(** * Job scheduling and campaign dispatch pipeline of [backend/src/queues.ts]

    A shallow embedding of the queue handlers of [queues.ts] and the
    properties of the pipeline they implement.

    Conventions.
    - Timestamps ([moment()], SQL [now()], [Date] columns) are integers:
      milliseconds since the epoch.
    - A database table is the list of its rows, in table order; a model
      instance (a [Campaign] loaded by [getCampaign], a [CampaignShipping]
      returned by [findOrCreate]) is a row value, and [instance.update]
      rewrites the row of the same primary key and the instance.
    - A Bull queue is the list of the jobs added to it, oldest first, with
      the next job id.
    - Every collaborator that is not defined in [queues.ts] (the WhatsApp
      session, the ticket services, [ShowService], [verifyContact],
      [Math.random], the clock) is read from an environment value [Env]
      given to each handler run: the handlers are functions of the stored
      state and of what the outside world answers.
    - The database answers every call, except the re-fetch that
      [handleSendScheduledMessage] guards with a [try] of its own.
    - Logging ([logger], [Sentry], [console]) has no effect on the stored
      state and is left out, except the log line of the dispatcher that
      reads the name of the contact of the shipping record, which throws
      when that contact is null. The handlers of the message queue and of
      the invoices, which touch neither campaigns, shipping records nor
      schedules, are left out too. The handler of the user monitor works on the [Users]
      table alone and is a function on that table. *)

From Stdlib Require Import ZArith List String Ascii Bool Lia RelationClasses.
Import ListNotations.

Local Open Scope string_scope.
Local Open Scope Z_scope.

(** ** JavaScript primitives the handlers rely on *)

Module Js.

(** [a || b] on numbers: [b] when [a] is falsy (zero). *)
Definition or_num (a b : Z) : Z := if a =? 0 then b else a.

(** Truthiness of a number, as in [a ? x : y]. *)
Definition truthy_num (a : Z) : bool := negb (a =? 0).

(** [a % n === 0]. The remainder takes the sign of the dividend; [a % 0]
    is [NaN], which is not [=== 0]. *)
Definition rem_is_zero (a n : Z) : bool :=
  if n =? 0 then false else Z.rem a n =? 0.

(** [Math.random()] returns a double in [[0, 1)]; a draw is modelled by its
    numerator [u] over [2^53], [0 <= u < 2^53]. *)
Definition random_den : Z := 2 ^ 53.

Definition valid_draw (u : Z) : Prop := 0 <= u < random_den.

(** The double nearest to [p / 2^53], as its numerator over [2^53], for
    [p >= 0]: a double holds 53 significant bits, so a numerator of more bits
    is rounded to a multiple of [2^s], [s] being the number of bits in
    excess, to the nearest one and to the even one of two that are equally
    near. *)
Definition round_pos (p : Z) : Z :=
  let s := Z.log2 p - 52 in
  if s <=? 0 then p
  else
    let q := p / 2 ^ s in
    let r := p mod 2 ^ s in
    let half := 2 ^ (s - 1) in
    let q' := if r <? half then q
              else if half <? r then q + 1
              else if Z.even q then q else q + 1 in
    q' * 2 ^ s.

(** Rounding is symmetric about zero. *)
Definition round_double (p : Z) : Z := Z.sgn p * round_pos (Z.abs p).

(** [Math.floor(Math.random() * max)] for the draw [u] and an integer
    [max] that a double holds: the product is rounded to a double before the
    floor is taken. *)
Definition floor_random_times (u max : Z) : Z :=
  round_double (u * max) / random_den.

(** [!isEmpty(s) && !isNil(s)] on a nullable text column. *)
Definition present (s : option string) : bool :=
  match s with
  | Some t => negb (t =? "")%string
  | None => false
  end.

(** What [String.prototype.replace] puts in the place of a match, for a
    pattern without capture groups: in the replacement text [$$] stands for
    a dollar sign, [$&] for the matched text, [$`] for the text before the
    match and [$'] for the text after it; a dollar sign before anything else
    stands for itself. *)
Fixpoint substitution (rep matched before after : string) : string :=
  match rep with
  | EmptyString => EmptyString
  | String c tail =>
      if Ascii.eqb c "$"
      then match tail with
           | EmptyString => String c EmptyString
           | String d rest =>
               if Ascii.eqb d "$"
               then String c (substitution rest matched before after)
               else if Ascii.eqb d "&"
               then (matched ++ substitution rest matched before after)%string
               else if Ascii.eqb d "`"
               then (before ++ substitution rest matched before after)%string
               else if Ascii.eqb d "'"
               then (after ++ substitution rest matched before after)%string
               else String c (substitution tail matched before after)
           end
      else String c (substitution tail matched before after)
  end.

(** [s.replace(/pat/g, rep)] for a literal, non-empty pattern, read from the
    position that [before] precedes: [skip] counts the characters of a match
    still to be dropped. *)
Fixpoint replace_from (pat rep before : string) (skip : nat) (s : string)
    : string :=
  match s with
  | EmptyString => EmptyString
  | String c s' =>
      match skip with
      | S k =>
          replace_from pat rep (before ++ String c EmptyString)%string k s'
      | O =>
          if prefix pat s
          then (substitution rep pat before
                  (substring (String.length pat)
                             (String.length s - String.length pat) s)
                ++ replace_from pat rep (before ++ String c EmptyString)
                     (String.length pat - 1) s')%string
          else String c
                 (replace_from pat rep (before ++ String c EmptyString)%string
                    0 s')
      end
  end.

Definition replace_all (pat rep s : string) : string :=
  replace_from pat rep EmptyString 0 s.

(** [s.includes(pat)]. *)
Fixpoint includes (pat s : string) : bool :=
  if prefix pat s then true
  else match s with
       | EmptyString => false
       | String _ s' => includes pat s'
       end.

End Js.

(** ** Data model *)

Inductive CampaignStatus :=
| PROGRAMADA
| EM_ANDAMENTO
| FINALIZADA
| FINALIZADA_COM_ERROS.

Definition CampaignStatus_eqb (a b : CampaignStatus) : bool :=
  match a, b with
  | PROGRAMADA, PROGRAMADA
  | EM_ANDAMENTO, EM_ANDAMENTO
  | FINALIZADA, FINALIZADA
  | FINALIZADA_COM_ERROS, FINALIZADA_COM_ERROS => true
  | _, _ => false
  end.

(** The two states the specification calls terminal. *)
Definition terminal (s : CampaignStatus) : bool :=
  match s with
  | FINALIZADA | FINALIZADA_COM_ERROS => true
  | _ => false
  end.

Inductive ScheduleStatus :=
| PENDENTE
| AGENDADA
| ENVIADA
| ERRO.

Definition ScheduleStatus_eqb (a b : ScheduleStatus) : bool :=
  match a, b with
  | PENDENTE, PENDENTE | AGENDADA, AGENDADA
  | ENVIADA, ENVIADA | ERRO, ERRO => true
  | _, _ => false
  end.

(** A row of [ContactListItems], with the attributes [getCampaign] loads. *)
Module ContactListItem.
Record t := mk {
  id : Z;
  name : string;
  number : string;
  email : string;
  isWhatsappValid : bool
}.
End ContactListItem.

(** The [Contact] that [verifyContact] resolves for a recipient. *)
Module Contact.
Record t := mk {
  id : Z;
  name : string;
  number : string;
  email : string
}.
End Contact.

(** A campaign. In a stored row [contacts] holds the items of the contact
    list of the campaign, [None] when the campaign has no list. In an
    instance that [getCampaign] returns it is
    [campaign.contactList.contacts], the valid items, and [None] when
    [campaign.contactList] is null. *)
Module Campaign.
Record t := mk {
  id : Z;
  companyId : Z;
  status : CampaignStatus;
  scheduledAt : Z;
  completedAt : option Z;
  confirmation : bool;
  message1 : option string;
  message2 : option string;
  message3 : option string;
  message4 : option string;
  message5 : option string;
  confirmationMessage1 : option string;
  confirmationMessage2 : option string;
  confirmationMessage3 : option string;
  confirmationMessage4 : option string;
  confirmationMessage5 : option string;
  mediaPath : option string;
  mediaName : option string;
  queueId : option Z;
  userId : option Z;
  whatsappId : option Z;
  contacts : option (list ContactListItem.t)
}.

(** The assignment of [update({ status })]. *)
Definition set_status (st : CampaignStatus) (c : t) : t :=
  mk (id c) (companyId c) st (scheduledAt c) (completedAt c) (confirmation c)
     (message1 c) (message2 c) (message3 c) (message4 c) (message5 c)
     (confirmationMessage1 c) (confirmationMessage2 c)
     (confirmationMessage3 c) (confirmationMessage4 c)
     (confirmationMessage5 c)
     (mediaPath c) (mediaName c) (queueId c) (userId c) (whatsappId c)
     (contacts c).

(** The assignment of [update({ status, completedAt: moment() })]. *)
Definition set_completed (st : CampaignStatus) (at_ : Z) (c : t) : t :=
  mk (id c) (companyId c) st (scheduledAt c) (Some at_) (confirmation c)
     (message1 c) (message2 c) (message3 c) (message4 c) (message5 c)
     (confirmationMessage1 c) (confirmationMessage2 c)
     (confirmationMessage3 c) (confirmationMessage4 c)
     (confirmationMessage5 c)
     (mediaPath c) (mediaName c) (queueId c) (userId c) (whatsappId c)
     (contacts c).

(** The instance with another value of the [contacts] include. *)
Definition set_contacts (v : option (list ContactListItem.t)) (c : t) : t :=
  mk (id c) (companyId c) (status c) (scheduledAt c) (completedAt c)
     (confirmation c)
     (message1 c) (message2 c) (message3 c) (message4 c) (message5 c)
     (confirmationMessage1 c) (confirmationMessage2 c)
     (confirmationMessage3 c) (confirmationMessage4 c)
     (confirmationMessage5 c)
     (mediaPath c) (mediaName c) (queueId c) (userId c) (whatsappId c) v.
End Campaign.

(** A row of [CampaignShipping]. [confirmation] is the column the dispatcher
    tests with [campaignShipping.confirmation === null]. *)
Module CampaignShipping.
Record t := mk {
  id : Z;
  campaignId : Z;
  contactId : Z;
  number : string;
  message : option string;
  confirmationMessage : option string;
  confirmation : option bool;
  deliveredAt : option Z;
  confirmationRequestedAt : option Z;
  jobId : option Z
}.

Definition set_deliveredAt (v : option Z) (s : t) : t :=
  mk (id s) (campaignId s) (contactId s) (number s) (message s)
     (confirmationMessage s) (confirmation s) v
     (confirmationRequestedAt s) (jobId s).

Definition set_confirmationRequestedAt (v : option Z) (s : t) : t :=
  mk (id s) (campaignId s) (contactId s) (number s) (message s)
     (confirmationMessage s) (confirmation s) (deliveredAt s) v (jobId s).

Definition set_jobId (v : option Z) (s : t) : t :=
  mk (id s) (campaignId s) (contactId s) (number s) (message s)
     (confirmationMessage s) (confirmation s) (deliveredAt s)
     (confirmationRequestedAt s) v.
End CampaignShipping.

(** A row of [Schedules] with its [contact] include. *)
Module Schedule.
Record t := mk {
  id : Z;
  companyId : Z;
  body : string;
  sendAt : Z;
  sentAt : option Z;
  status : ScheduleStatus;
  contact : Contact.t
}.

Definition set_status (st : ScheduleStatus) (s : t) : t :=
  mk (id s) (companyId s) (body s) (sendAt s) (sentAt s) st (contact s).

Definition set_sent (at_ : Z) (st : ScheduleStatus) (s : t) : t :=
  mk (id s) (companyId s) (body s) (sendAt s) (Some at_) st (contact s).
End Schedule.

(** A row of [Settings]; [value] is [JSON.parse(setting.value)], a whole
    number of seconds or of messages. *)
Module Setting.
Record t := mk {
  companyId : Z;
  key : string;
  value : Z
}.
End Setting.

(** [type CampaignDelay]. *)
Record CampaignDelay := mkCampaignDelay {
  randomMessageInterval : Z;
  longerIntervalAfter : Z;
  greaterInterval : Z;
  fixedMessageInterval : Z
}.

Definition campaignDelayDefaults : CampaignDelay :=
  {| randomMessageInterval := 20;
     longerIntervalAfter := 20;
     greaterInterval := 60;
     fixedMessageInterval := 0 |}.

(** ** Bull queues *)

(** Job payloads: [ProcessCampaignData], [PrepareContactData],
    [DispatchCampaignData] and the [{ schedule }] payload of the
    scheduled-send queue. *)
Inductive JobData :=
| ProcessCampaignData (id delay : Z)
| PrepareContactData (contactListItemId campaignId delay : Z)
| DispatchCampaignData (contactId campaignId campaignShippingId : Z)
| ScheduleData (schedule : Schedule.t).

(** The options of [queue.add] that the handlers pass. *)
Record JobOpts := mkJobOpts {
  opt_delay : option Z;
  opt_removeOnComplete : bool
}.

Record Job := mkJob {
  job_id : Z;
  job_name : string;
  job_data : JobData;
  job_opts : JobOpts
}.

Record Queue := mkQueue {
  q_jobs : list Job;
  q_next : Z
}.

Definition emptyQueue : Queue := {| q_jobs := []; q_next := 1 |}.

(** [queue.add(name, data, opts)]: the job gets the next id and goes to the
    end of the queue; the created job is returned. *)
Definition queue_add (q : Queue) (name : string) (data : JobData)
    (opts : JobOpts) : Queue * Job :=
  let j := {| job_id := q_next q; job_name := name;
              job_data := data; job_opts := opts |} in
  ({| q_jobs := q_jobs q ++ [j]; q_next := q_next q + 1 |}, j).

(** The jobs a queue has gained since an earlier state of it. *)
Definition jobs_since (before after : Queue) : list Job :=
  skipn (List.length (q_jobs before)) (q_jobs after).

(** ** Effects on the outside world *)

(** [io.emit(`company-${companyId}-campaign`, { action: "update", record })]. *)
Record IoEvent := mkIoEvent {
  io_companyId : Z;
  io_action : string;
  io_record : Campaign.t
}.

(** What [wbot.sendMessage(chatId, content)] was given. *)
Inductive WbotContent :=
| Text (text : option string)
| Media (mediaName : option string).

Record WbotMessage := mkWbotMessage {
  wm_chatId : string;
  wm_content : WbotContent
}.

(** A call [SendMessage(whatsapp, { number, body })] of the helper, with
    whether it returned ([true]) or threw. *)
Record SentMessage := mkSentMessage {
  sm_companyId : Z;
  sm_number : string;
  sm_body : string;
  sm_returned : bool
}.

(** The stored state the handlers read and write. *)
Record World := mkWorld {
  campaigns : list Campaign.t;
  shippings : list CampaignShipping.t;
  nextShippingId : Z;
  settings : list Setting.t;
  schedules : list Schedule.t;
  campaignQueue : Queue;
  sendScheduledMessages : Queue;
  ioEvents : list IoEvent;
  wbotSent : list WbotMessage;
  sentMessages : list SentMessage
}.

Definition with_campaigns (v : list Campaign.t) (w : World) : World :=
  mkWorld v (shippings w) (nextShippingId w) (settings w) (schedules w)
          (campaignQueue w) (sendScheduledMessages w) (ioEvents w)
          (wbotSent w) (sentMessages w).

Definition with_shippings (v : list CampaignShipping.t) (n : Z) (w : World)
    : World :=
  mkWorld (campaigns w) v n (settings w) (schedules w)
          (campaignQueue w) (sendScheduledMessages w) (ioEvents w)
          (wbotSent w) (sentMessages w).

Definition with_schedules (v : list Schedule.t) (w : World) : World :=
  mkWorld (campaigns w) (shippings w) (nextShippingId w) (settings w) v
          (campaignQueue w) (sendScheduledMessages w) (ioEvents w)
          (wbotSent w) (sentMessages w).

Definition with_campaignQueue (v : Queue) (w : World) : World :=
  mkWorld (campaigns w) (shippings w) (nextShippingId w) (settings w)
          (schedules w) v (sendScheduledMessages w) (ioEvents w)
          (wbotSent w) (sentMessages w).

Definition with_sendScheduledMessages (v : Queue) (w : World) : World :=
  mkWorld (campaigns w) (shippings w) (nextShippingId w) (settings w)
          (schedules w) (campaignQueue w) v (ioEvents w)
          (wbotSent w) (sentMessages w).

Definition with_ioEvents (v : list IoEvent) (w : World) : World :=
  mkWorld (campaigns w) (shippings w) (nextShippingId w) (settings w)
          (schedules w) (campaignQueue w) (sendScheduledMessages w) v
          (wbotSent w) (sentMessages w).

Definition with_wbotSent (v : list WbotMessage) (w : World) : World :=
  mkWorld (campaigns w) (shippings w) (nextShippingId w) (settings w)
          (schedules w) (campaignQueue w) (sendScheduledMessages w)
          (ioEvents w) v (sentMessages w).

Definition with_sentMessages (v : list SentMessage) (w : World) : World :=
  mkWorld (campaigns w) (shippings w) (nextShippingId w) (settings w)
          (schedules w) (campaignQueue w) (sendScheduledMessages w)
          (ioEvents w) (wbotSent w) v.

(** How a handler run ends: it returns, or it throws and Bull marks the job
    failed. *)
Inductive Outcome :=
| Completed
| Threw (message : string).


(** ** Handlers as computations over the stored state

    A handler reads and writes the [World] and may throw: a small state and
    exception monad, with [try_catch] for the [try { } catch { }] blocks. *)

Inductive Result (A : Type) :=
| Ok (a : A)
| Thrown (message : string).

Arguments Ok {A} a.
Arguments Thrown {A} message.

Definition M (A : Type) : Type := World -> Result A * World.

Definition ret {A} (a : A) : M A := fun w => (Ok a, w).

Definition bind {A B} (m : M A) (k : A -> M B) : M B :=
  fun w =>
    match m w with
    | (Ok a, w') => k a w'
    | (Thrown msg, w') => (Thrown msg, w')
    end.

Definition throw {A} (msg : string) : M A := fun w => (Thrown msg, w).

Definition try_catch {A} (body : M A) (handler : string -> M A) : M A :=
  fun w =>
    match body w with
    | (Ok a, w') => (Ok a, w')
    | (Thrown msg, w') => handler msg w'
    end.

(** An awaited read of the stored state. *)
Definition query {A} (f : World -> A) : M A := fun w => (Ok (f w), w).

Definition modify (f : World -> World) : M unit := fun w => (Ok tt, f w).

Declare Scope handler_scope.
Delimit Scope handler_scope with handler.
Notation "x <- m ;; k" := (bind m (fun x => k))
  (at level 61, m at next level, right associativity) : handler_scope.
Notation "m ;; k" := (bind m (fun _ => k))
  (at level 61, right associativity) : handler_scope.
Local Open Scope handler_scope.

(** The outcome and final state of running a handler. *)
Definition outcome {A} (r : Result A * World) : Outcome :=
  match fst r with
  | Ok _ => Completed
  | Thrown msg => Threw msg
  end.

Definition world_after {A} (r : Result A * World) : World := snd r.

(** An awaited call of a collaborator that answers [Some v], or throws. *)
Definition await {A} (what : string) (answer : option A) : M A :=
  match answer with
  | Some v => ret v
  | None => throw what
  end.

(** An awaited call of a collaborator whose value is not used. *)
Definition await_ok (what : string) (returns : bool) : M unit :=
  if returns then ret tt else throw what.

(** What the outside world answers during one run of a campaign-queue
    handler. *)
Record Env := mkEnv {
  (** [moment()] *)
  now : Z;
  (** the successive draws of [Math.random()], see [Js.valid_draw] *)
  random : nat -> Z;
  (** [ShowService(contactListItemId)]; [None]: it throws *)
  showService : option ContactListItem.t;
  (** [GetWhatsappWbot(campaign.whatsapp)] returns a session *)
  getWhatsappWbot : bool;
  (** [verifyContact({ wbot, companyId, newContact })]; [None]: it throws *)
  verifyContact : option Contact.t;
  (** [FindOrCreateTicketService(newTicket)]: [[created, ticket]], the ticket
      by its id or [null]; [None]: it throws *)
  findOrCreateTicket : option (bool * option Z);
  (** [UpdateTicketService(...)] returns *)
  updateTicket : bool;
  (** [getMessageOptions(...)]: whether the options object has keys; [None]:
      it throws *)
  getMessageOptions : option bool;
  (** [wbot.sendMessage(chatId, { ...options })] returns *)
  sendMedia : bool;
  (** [wbot.sendMessage(chatId, { text })] returns *)
  sendText : bool;
  (** the [contact] include of [CampaignShipping.findByPk] is there: the
      contact-list item of the record exists *)
  contactIncluded : bool
}.

(** ** Persistence primitives *)

(** [instance.update(values)] on a campaign: the assignment [f] is applied to
    the instance and to the row of its primary key. *)
Definition campaign_update (f : Campaign.t -> Campaign.t)
    (campaign : Campaign.t) : M Campaign.t :=
  fun w =>
    (Ok (f campaign),
     with_campaigns
       (map (fun row =>
               if Campaign.id row =? Campaign.id campaign then f row else row)
            (campaigns w))
       w).

(** [instance.update(values)] / [instance.save()] on a shipping record. *)
Definition shipping_update (f : CampaignShipping.t -> CampaignShipping.t)
    (record : CampaignShipping.t) : M CampaignShipping.t :=
  fun w =>
    (Ok (f record),
     with_shippings
       (map (fun row =>
               if CampaignShipping.id row =? CampaignShipping.id record
               then f row else row)
            (shippings w))
       (nextShippingId w) w).

(** [campaignQueue.add(name, data, opts)]. *)
Definition campaignQueue_add (name : string) (data : JobData) (opts : JobOpts)
    : M Job :=
  fun w =>
    let (q, j) := queue_add (campaignQueue w) name data opts in
    (Ok j, with_campaignQueue q w).

(** [getIO().emit(`company-${companyId}-campaign`, { action, record })]. *)
Definition io_emit (companyId : Z) (action : string) (record : Campaign.t)
    : M unit :=
  modify (fun w =>
            with_ioEvents
              (ioEvents w ++ [{| io_companyId := companyId;
                                 io_action := action;
                                 io_record := record |}]) w).

(** [wbot.sendMessage(chatId, content)]; [returns] is the session's answer. *)
Definition wbot_sendMessage (returns : bool) (chatId : string)
    (content : WbotContent) : M unit :=
  if returns
  then modify (fun w =>
                 with_wbotSent
                   (wbotSent w ++ [{| wm_chatId := chatId;
                                      wm_content := content |}]) w)
  else throw "wbot.sendMessage".

(** ** The campaign pipeline *)

(** The include of [getCampaign]: the [contacts] of the list are joined
    under [where: { isWhatsappValid: true }], which makes that include a
    required one inside the optional include of the list; so
    [campaign.contactList] is the list with its valid items when it has one,
    and null when the campaign has no list or the list has no valid item. *)
Definition validContacts (stored : option (list ContactListItem.t))
    : option (list ContactListItem.t) :=
  match stored with
  | Some items =>
      match filter ContactListItem.isWhatsappValid items with
      | [] => None
      | valid => Some valid
      end
  | None => None
  end.

(** [getCampaign(id)]: [Campaign.findByPk] with its includes. *)
Definition getCampaign (w : World) (id : Z) : option Campaign.t :=
  option_map
    (fun c => Campaign.set_contacts (validContacts (Campaign.contacts c)) c)
    (find (fun c => Campaign.id c =? id) (campaigns w)).

(** The shared opening of the three campaign handlers:
    [campaign = await getCampaign(id); if (!campaign) throw ...], the error
    being rethrown as it is. *)
Definition loadCampaign (id : Z) : M Campaign.t :=
  campaign <- query (fun w => getCampaign w id) ;;
  match campaign with
  | Some c => ret c
  | None => throw "Campanha não identificada"
  end.

(** One iteration of [settings.forEach] in [getSettings]. *)
Definition applySetting (acc : CampaignDelay) (setting : Setting.t)
    : CampaignDelay :=
  let acc :=
    if (Setting.key setting =? "randomMessageInterval")%string
    then mkCampaignDelay (Setting.value setting) (longerIntervalAfter acc)
                         (greaterInterval acc) (fixedMessageInterval acc)
    else acc in
  let acc :=
    if (Setting.key setting =? "fixedMessageInterval")%string
    then mkCampaignDelay (randomMessageInterval acc) (longerIntervalAfter acc)
                         (greaterInterval acc) (Setting.value setting)
    else acc in
  let acc :=
    if (Setting.key setting =? "longerIntervalAfter")%string
    then mkCampaignDelay (randomMessageInterval acc) (Setting.value setting)
                         (greaterInterval acc) (fixedMessageInterval acc)
    else acc in
  if (Setting.key setting =? "greaterInterval")%string
  then mkCampaignDelay (randomMessageInterval acc) (longerIntervalAfter acc)
                       (Setting.value setting) (fixedMessageInterval acc)
  else acc.

(** [getSettings(campaign)]. *)
Definition getSettings (w : World) (campaign : Campaign.t) : CampaignDelay :=
  fold_left applySetting
    (filter (fun s => Setting.companyId s =? Campaign.companyId campaign)
            (settings w))
    campaignDelayDefaults.

Definition parseToMilliseconds (seconds : Z) : Z := seconds * 1000.

Definition push_present (messages : list string) (m : option string)
    : list string :=
  match m with
  | Some t => if Js.present m then messages ++ [t] else messages
  | None => messages
  end.

Definition getCampaignValidMessages (campaign : Campaign.t) : list string :=
  fold_left push_present
    [Campaign.message1 campaign; Campaign.message2 campaign;
     Campaign.message3 campaign; Campaign.message4 campaign;
     Campaign.message5 campaign] [].

Definition getCampaignValidConfirmationMessages (campaign : Campaign.t)
    : list string :=
  fold_left push_present
    [Campaign.confirmationMessage1 campaign;
     Campaign.confirmationMessage2 campaign;
     Campaign.confirmationMessage3 campaign;
     Campaign.confirmationMessage4 campaign;
     Campaign.confirmationMessage5 campaign] [].

(** [getProcessedMessage(msg, contact)]; the name, the email and the number
    are replacement texts of [String.prototype.replace], so the [$] patterns
    they hold are expanded. *)
Definition getProcessedMessage (msg : string) (contact : Contact.t) : string :=
  let finalMessage := msg in
  let finalMessage :=
    if Js.includes "{nome}" finalMessage
    then Js.replace_all "{nome}" (Contact.name contact) finalMessage
    else finalMessage in
  let finalMessage :=
    if Js.includes "{email}" finalMessage
    then Js.replace_all "{email}" (Contact.email contact) finalMessage
    else finalMessage in
  if Js.includes "{numero}" finalMessage
  then Js.replace_all "{numero}" (Contact.number contact) finalMessage
  else finalMessage.

(** [randomValue(min, max)], for the draw [u] that its call of
    [Math.random()] returns. *)
Definition randomValue (u : Z) (min max : Z) : Z :=
  Js.floor_random_times u max + min.

Definition isSome {A} (o : option A) : bool :=
  match o with Some _ => true | None => false end.

(** [CampaignShipping.count({ where: { campaignId, deliveredAt: not null } })]. *)
Definition countDelivered (campaignId : Z) (w : World) : Z :=
  Z.of_nat
    (List.length
       (filter (fun s =>
                  (CampaignShipping.campaignId s =? campaignId)
                  && isSome (CampaignShipping.deliveredAt s))
               (shippings w))).

(** [verifyAndFinalizeCampaign(campaign)]. Reading [contacts] off a null
    [campaign.contactList] throws. The updated instance is returned,
    being the one the caller goes on with. *)
Definition verifyAndFinalizeCampaign (e : Env) (campaign : Campaign.t)
    : M Campaign.t :=
  match Campaign.contacts campaign with
  | None => throw "TypeError: campaign.contactList"
  | Some contacts =>
      let count1 := Z.of_nat (List.length contacts) in
      count2 <- query (countDelivered (Campaign.id campaign)) ;;
      campaign <-
        (if count1 =? count2
         then campaign_update (Campaign.set_completed FINALIZADA (now e))
                              campaign
         else ret campaign) ;;
      io_emit (Campaign.companyId campaign) "update" campaign ;;
      ret campaign
  end.

(** *** Campaign Verifier *)

(** The rows the SQL query of [handleVerifyCampaigns] selects at the
    database's [now()]: ["scheduledAt" between now() and now() + '1 hour'
    and status = 'PROGRAMADA']. *)
Definition dueCampaigns (dbNow : Z) (w : World) : list (Z * Z) :=
  map (fun c => (Campaign.id c, Campaign.scheduledAt c))
      (filter (fun c =>
                 (dbNow <=? Campaign.scheduledAt c)
                 && (Campaign.scheduledAt c <=? dbNow + 3600000)
                 && CampaignStatus_eqb (Campaign.status c) PROGRAMADA)
              (campaigns w)).

(** The loop of [handleVerifyCampaigns]; [clock k] is what [moment()] returns
    in the iteration of the campaign number [k] of the result. *)
Fixpoint verifyEach (clock : nat -> Z) (k : nat) (due : list (Z * Z))
    : M unit :=
  match due with
  | [] => ret tt
  | (id, scheduledAt) :: rest =>
      let now := clock k in
      let delay := scheduledAt - now in
      _ <- campaignQueue_add "ProcessCampaign" (ProcessCampaignData id delay)
             {| opt_delay := None; opt_removeOnComplete := true |} ;;
      verifyEach clock (S k) rest
  end.

Definition handleVerifyCampaigns (dbNow : Z) (clock : nat -> Z) : M unit :=
  campaigns <- query (dueCampaigns dbNow) ;;
  verifyEach clock 0 campaigns.

(** *** Campaign Orchestrator *)

(** The [for (let contact of contacts)] loop of [handleProcessCampaign], with
    its variables [delay] and [index] and the number [draws] of calls of
    [Math.random()] made so far. *)
Fixpoint fanOut (e : Env) (settings : CampaignDelay) (campaign : Campaign.t)
    (contacts : list ContactListItem.t) (delay index : Z) (draws : nat)
    : M unit :=
  match contacts with
  | [] => ret tt
  | contact :: rest =>
      _ <- campaignQueue_add "PrepareContact"
             (PrepareContactData (ContactListItem.id contact)
                                 (Campaign.id campaign)
                                 (Js.or_num delay 0))
             {| opt_delay := None; opt_removeOnComplete := true |} ;;
      let index := index + 1 in
      if Js.rem_is_zero index (longerIntervalAfter settings)
      then
        fanOut e settings campaign rest
          (delay + parseToMilliseconds (Js.or_num (greaterInterval settings) 60))
          index draws
      else if Js.truthy_num (fixedMessageInterval settings)
      then
        fanOut e settings campaign rest
          (delay + parseToMilliseconds (fixedMessageInterval settings))
          index draws
      else
        fanOut e settings campaign rest
          (delay + parseToMilliseconds
                     (randomValue (random e draws) 0
                        (Js.or_num (randomMessageInterval settings) 20)))
          index (S draws)
  end.

(** [handleProcessCampaign]. Reading [contacts] off a null
    [campaign.contactList] throws, inside the [try]; the contacts of a list
    are an array, so that the branch of [!isArray(contacts)] is not taken. *)
Definition handleProcessCampaign (e : Env) (id delay : Z) : M unit :=
  campaign <- loadCampaign id ;;
  try_catch
    (settings <- query (fun w => getSettings w campaign) ;;
     match Campaign.contacts campaign with
     | None => throw "TypeError: campaign.contactList"
     | Some contacts =>
         fanOut e settings campaign contacts delay 0 0 ;;
         _ <- campaign_update (Campaign.set_status EM_ANDAMENTO) campaign ;;
         ret tt
     end)
    (fun err =>
       _ <- campaign_update
              (Campaign.set_completed FINALIZADA_COM_ERROS (now e))
              campaign ;;
       ret tt).

(** *** Contact Preparer *)

(** The object [campaignShipping] that [handlePrepareContact] builds: the
    keys [message] and [confirmationMessage] may be absent. *)
Record ShippingValues := mkShippingValues {
  sv_number : string;
  sv_contactId : Z;
  sv_campaignId : Z;
  sv_message : option string;
  sv_confirmationMessage : option string
}.

(** The zero-width non-joiner U+200C, in UTF-8. *)
Definition zwnj : string :=
  String (ascii_of_nat 226)
    (String (ascii_of_nat 128) (String (ascii_of_nat 140) EmptyString)).

(** [xs[i]]: [undefined] out of range. *)
Definition js_index {A} (xs : list A) (i : Z) : option A :=
  if i <? 0 then None else nth_error xs (Z.to_nat i).

(** The rendering of one variant among [messages], drawn with [u]; no value
    when [messages] is empty; reading a variant that is not there throws. *)
Definition pickMessage (u : Z) (messages : list string) (contact : Contact.t)
    : M (option string) :=
  if (0 <? Z.of_nat (List.length messages))
  then
    let radomIndex := randomValue u 0 (Z.of_nat (List.length messages)) in
    match js_index messages radomIndex with
    | Some msg => ret (Some (zwnj ++ getProcessedMessage msg contact)%string)
    | None => throw "TypeError: msg.includes"
    end
  else ret None.

(** A record created from [defaults]. *)
Definition newShipping (id : Z) (v : ShippingValues) : CampaignShipping.t :=
  CampaignShipping.mk id (sv_campaignId v) (sv_contactId v) (sv_number v)
    (sv_message v) (sv_confirmationMessage v) None None None None.

(** [record.set(campaignShipping)]: the keys that are present are assigned. *)
Definition setShipping (v : ShippingValues) (r : CampaignShipping.t)
    : CampaignShipping.t :=
  CampaignShipping.mk (CampaignShipping.id r) (sv_campaignId v)
    (sv_contactId v) (sv_number v)
    (match sv_message v with
     | Some m => Some m
     | None => CampaignShipping.message r
     end)
    (match sv_confirmationMessage v with
     | Some m => Some m
     | None => CampaignShipping.confirmationMessage r
     end)
    (CampaignShipping.confirmation r) (CampaignShipping.deliveredAt r)
    (CampaignShipping.confirmationRequestedAt r) (CampaignShipping.jobId r).

(** The record that [where: { campaignId, contactId }] finds. *)
Definition existingRecord (campaignId contactId : Z) (w : World)
    : option CampaignShipping.t :=
  find (fun s =>
          (CampaignShipping.campaignId s =? campaignId)
          && (CampaignShipping.contactId s =? contactId))
       (shippings w).

(** [CampaignShipping.findOrCreate({ where: { campaignId, contactId },
    defaults })]: the record and whether it was created. *)
Definition findOrCreate (v : ShippingValues)
    : M (CampaignShipping.t * bool) :=
  fun w =>
    match existingRecord (sv_campaignId v) (sv_contactId v) w with
    | Some record => (Ok (record, false), w)
    | None =>
        let record := newShipping (nextShippingId w) v in
        (Ok (record, true),
         with_shippings (shippings w ++ [record]) (nextShippingId w + 1) w)
    end.

Definition undeliveredUnconfirmed (record : CampaignShipping.t) : bool :=
  negb (isSome (CampaignShipping.deliveredAt record))
  && negb (isSome (CampaignShipping.confirmationRequestedAt record)).

(** The idempotency block of [handlePrepareContact]: the find-or-create on
    the pair, the refresh of an existing record that is neither delivered nor
    confirmation-requested, and the [DispatchCampaign] job with the id of
    which the record is updated. *)
Definition bookDispatch (campaign : Campaign.t) (contact : Contact.t)
    (campaignShipping : ShippingValues) (delay : Z) : M unit :=
  found <- findOrCreate campaignShipping ;;
  let (record, created) := found : CampaignShipping.t * bool in
  record <-
    (if negb created && undeliveredUnconfirmed record
     then shipping_update (setShipping campaignShipping) record
     else ret record) ;;
  if undeliveredUnconfirmed record
  then
    nextJob <- campaignQueue_add "DispatchCampaign"
                 (DispatchCampaignData (Contact.id contact)
                                       (Campaign.id campaign)
                                       (CampaignShipping.id record))
                 {| opt_delay := Some delay;
                    opt_removeOnComplete := false |} ;;
    _ <- shipping_update
           (CampaignShipping.set_jobId (Some (job_id nextJob))) record ;;
    ret tt
  else ret tt.

(** The object [campaignShipping] of a run: the number of the resolved
    contact, the id of the contact-list item, the campaign id of the job and
    the rendered texts. *)
Definition renderShipping (e : Env) (campaign : Campaign.t) (campaignId : Z)
    (contactListItem : ContactListItem.t) (contact : Contact.t)
    : M ShippingValues :=
  let messages := getCampaignValidMessages campaign in
  message <- pickMessage (random e 0) messages contact ;;
  let draws := if 0 <? Z.of_nat (List.length messages) then 1%nat else 0%nat in
  confirmationMessage <-
    (if Campaign.confirmation campaign
     then pickMessage (random e draws)
            (getCampaignValidConfirmationMessages campaign) contact
     else ret None) ;;
  ret {| sv_number := Contact.number contact;
         sv_contactId := ContactListItem.id contactListItem;
         sv_campaignId := campaignId;
         sv_message := message;
         sv_confirmationMessage := confirmationMessage |}.

Definition handlePrepareContact (e : Env)
    (contactListItemId campaignId delay : Z) : M unit :=
  campaign <- loadCampaign campaignId ;;
  try_catch
    (contactListItem <- await "ShowService" (showService e) ;;
     await_ok "GetWhatsappWbot" (getWhatsappWbot e) ;;
     contact <- await "verifyContact" (verifyContact e) ;;
     campaignShipping <-
       renderShipping e campaign campaignId contactListItem contact ;;
     bookDispatch campaign contact campaignShipping delay ;;
     _ <- verifyAndFinalizeCampaign e campaign ;;
     ret tt)
    (fun err =>
       _ <- campaign_update
              (Campaign.set_completed FINALIZADA_COM_ERROS (now e))
              campaign ;;
       throw "Contato invalido").

(** *** Dispatcher *)

(** [CampaignShipping.findByPk(id)]. *)
Definition findShipping (w : World) (id : Z) : option CampaignShipping.t :=
  find (fun s => CampaignShipping.id s =? id) (shippings w).

(** [campaign.confirmation && campaignShipping.confirmation === null]. *)
Definition isConfirm (campaign : Campaign.t) (campaignShipping : CampaignShipping.t)
    : bool :=
  Campaign.confirmation campaign
  && negb (isSome (CampaignShipping.confirmation campaignShipping)).

(** The first [try] block of [handleDispatchCampaign]: the campaign ticket. *)
Definition openTicket (e : Env) : M unit :=
  found <- await "FindOrCreateTicketService" (findOrCreateTicket e) ;;
  let (created, ticket) := found : bool * option Z in
  (if negb created
   then match ticket with
        | Some _ => await_ok "UpdateTicketService" (updateTicket e)
        | None => throw "TypeError: ticket.id"
        end
   else ret tt) ;;
  match ticket with
  | Some _ => ret tt
  | None => throw "Erro na criação do ticket da campanha"
  end.

(** The ticket calls of the last [catch] block: the ticket is found again and
    closed. *)
Definition closeTicket (e : Env) : M unit :=
  found <- await "FindOrCreateTicketService" (findOrCreateTicket e) ;;
  match snd found with
  | Some _ => await_ok "UpdateTicketService" (updateTicket e)
  | None => throw "TypeError: ticket.id"
  end.

(** The second [try] block of [handleDispatchCampaign]: the send, the update
    of the shipping record, the re-evaluation of the campaign, the
    notification, and the last log line, which reads
    [campaignShipping.contact.name] and throws when the [contact] include is
    null. *)
Definition sendCampaignMessage (e : Env) (campaign : Campaign.t)
    (campaignShippingId : Z) : M unit :=
  found <- query (fun w => findShipping w campaignShippingId) ;;
  await_ok "GetWhatsappWbot" (getWhatsappWbot e) ;;
  campaignShipping <- await "TypeError: campaignShipping.number" found ;;
  let chatId :=
    (CampaignShipping.number campaignShipping ++ "@s.whatsapp.net")%string in
  let isConfirm := isConfirm campaign campaignShipping in
  (if negb isConfirm && Js.present (Campaign.mediaPath campaign)
   then
     options <- await "getMessageOptions" (getMessageOptions e) ;;
     if options : bool
     then wbot_sendMessage (sendMedia e) chatId
            (Media (Campaign.mediaName campaign))
     else ret tt
   else ret tt) ;;
  wbot_sendMessage (sendText e) chatId
    (Text (if isConfirm
           then CampaignShipping.confirmationMessage campaignShipping
           else CampaignShipping.message campaignShipping)) ;;
  _ <- shipping_update
         (if isConfirm
          then CampaignShipping.set_confirmationRequestedAt (Some (now e))
          else CampaignShipping.set_deliveredAt (Some (now e)))
         campaignShipping ;;
  campaign <- verifyAndFinalizeCampaign e campaign ;;
  io_emit (Campaign.companyId campaign) "update" campaign ;;
  await_ok "TypeError: campaignShipping.contact" (contactIncluded e).

(** The [catch] block of that [try]. *)
Definition abortDispatch (e : Env) (campaign : Campaign.t) : M unit :=
  _ <- campaign_update
         (Campaign.set_completed FINALIZADA_COM_ERROS (now e)) campaign ;;
  closeTicket e ;;
  throw "Erro no disparo da campanha".

Definition handleDispatchCampaign (e : Env)
    (contactId campaignId campaignShippingId : Z) : M unit :=
  campaign <- loadCampaign campaignId ;;
  try_catch (openTicket e)
    (fun err =>
       _ <- campaign_update
              (Campaign.set_completed FINALIZADA_COM_ERROS (now e))
              campaign ;;
       throw "Erro no disparo da campanha") ;;
  try_catch (sendCampaignMessage e campaign campaignShippingId)
    (fun err => abortDispatch e campaign).

(** ** Scheduled messages *)

(** A timestamp printed by [format("YYYY-MM-DD HH:mm:ss")] and read back: the
    whole second. *)
Definition format_seconds (t : Z) : Z := 1000 * (t / 1000).

(** A timestamp printed by [format("YYYY-MM-DD HH:mm")] and read back. *)
Definition format_minutes (t : Z) : Z := 60000 * (t / 60000).

(** The rows of [Schedule.findAndCountAll] in [handleVerifySchedules];
    [now1] and [now2] are the two readings of [moment()] in the query. *)
Definition pendingSchedules (now1 now2 : Z) (w : World) : list Schedule.t :=
  filter (fun s =>
            ScheduleStatus_eqb (Schedule.status s) PENDENTE
            && negb (isSome (Schedule.sentAt s))
            && (format_seconds now1 <=? Schedule.sendAt s)
            && (Schedule.sendAt s <=? format_seconds (now2 + 30000)))
         (schedules w).

(** [instance.update(values)] on a schedule. *)
Definition schedule_update (f : Schedule.t -> Schedule.t)
    (schedule : Schedule.t) : M Schedule.t :=
  fun w =>
    (Ok (f schedule),
     with_schedules
       (map (fun row =>
               if Schedule.id row =? Schedule.id schedule then f row else row)
            (schedules w))
       w).

(** [sendScheduledMessages.add(name, data, opts)]. *)
Definition sendScheduledMessages_add (name : string) (data : JobData)
    (opts : JobOpts) : M Job :=
  fun w =>
    let (q, j) := queue_add (sendScheduledMessages w) name data opts in
    (Ok j, with_sendScheduledMessages q w).

(** The callbacks of [schedules.map(async schedule => ...)], each run to its
    end. *)
Fixpoint scheduleEach (rows : list Schedule.t) : M unit :=
  match rows with
  | [] => ret tt
  | schedule :: rest =>
      schedule <- schedule_update (Schedule.set_status AGENDADA) schedule ;;
      _ <- sendScheduledMessages_add "SendMessage" (ScheduleData schedule)
             {| opt_delay := Some 40000; opt_removeOnComplete := false |} ;;
      scheduleEach rest
  end.

(** [handleVerifySchedules]. The callbacks of [schedules.map] are not
    awaited by the handler; their effects are those of the run. *)
Definition handleVerifySchedules (now1 now2 : Z) : M unit :=
  schedules <- query (pendingSchedules now1 now2) ;;
  let count := Z.of_nat (List.length schedules) in
  if 0 <? count then scheduleEach schedules else ret tt.

(** What the outside world answers during one run of
    [handleSendScheduledMessage]. *)
Record SendEnv := mkSendEnv {
  (** [moment()] *)
  send_now : Z;
  (** [Schedule.findByPk(schedule.id)] answers (with the row or [null]);
      [false]: it throws *)
  findByPk_answers : bool;
  (** [GetDefaultWhatsApp(schedule.companyId)] returns a connection *)
  getDefaultWhatsApp : bool;
  (** [SendMessage(whatsapp, { number, body })] returns *)
  sendMessage : bool
}.

(** [Schedule.findByPk(id)]. *)
Definition findSchedule (w : World) (id : Z) : option Schedule.t :=
  find (fun s => Schedule.id s =? id) (schedules w).

(** The call [SendMessage(whatsapp, { number, body })]. *)
Definition SendMessage (returns : bool) (companyId : Z) (number body : string)
    : M unit :=
  modify (fun w =>
            with_sentMessages
              (sentMessages w ++ [{| sm_companyId := companyId;
                                     sm_number := number;
                                     sm_body := body;
                                     sm_returned := returns |}]) w) ;;
  await_ok "SendMessage" returns.

(** [scheduleRecord?.update(values)]. *)
Definition update_if_fetched (f : Schedule.t -> Schedule.t)
    (scheduleRecord : option Schedule.t) : M unit :=
  match scheduleRecord with
  | Some record => _ <- schedule_update f record ;; ret tt
  | None => ret tt
  end.

(** [handleSendScheduledMessage], for the job payload [{ schedule }]. The
    call [sendScheduledMessages.clean(15000, "completed")] prunes the history
    of completed jobs, which a [Queue] does not hold. *)
Definition handleSendScheduledMessage (e : SendEnv) (schedule : Schedule.t)
    : M unit :=
  scheduleRecord <-
    try_catch
      (await_ok "Schedule.findByPk" (findByPk_answers e) ;;
       query (fun w => findSchedule w (Schedule.id schedule)))
      (fun err => ret None) ;;
  try_catch
    (await_ok "GetDefaultWhatsApp" (getDefaultWhatsApp e) ;;
     SendMessage (sendMessage e) (Schedule.companyId schedule)
       (Contact.number (Schedule.contact schedule)) (Schedule.body schedule) ;;
     update_if_fetched
       (Schedule.set_sent (format_minutes (send_now e)) ENVIADA)
       scheduleRecord)
    (fun err =>
       update_if_fetched (Schedule.set_status ERRO) scheduleRecord ;;
       throw err).

(** ** The queues as a transition system

    What happens to the stored state: a repeating verifier job fires, or a
    worker takes a job of the campaign queue or of the scheduled-send queue
    and runs the handler registered for its name in [startQueueProcess]. *)

Inductive Event :=
| VerifyCampaignsTick (dbNow : Z) (clock : nat -> Z)
| RunJob (n : nat) (e : Env)
| VerifySchedulesTick (now1 now2 : Z)
| RunScheduledSend (n : nat) (e : SendEnv).

(** The queue without its job number [n]. *)
Definition take_job (n : nat) (q : Queue) : Queue :=
  {| q_jobs := firstn n (q_jobs q) ++ skipn (S n) (q_jobs q);
     q_next := q_next q |}.

(** The handler of [campaignQueue.process(name, handler)] applied to the
    job. *)
Definition process (e : Env) (j : Job) : M unit :=
  match job_data j with
  | ProcessCampaignData id delay =>
      if (job_name j =? "ProcessCampaign")%string
      then handleProcessCampaign e id delay else ret tt
  | PrepareContactData contactListItemId campaignId delay =>
      if (job_name j =? "PrepareContact")%string
      then handlePrepareContact e contactListItemId campaignId delay
      else ret tt
  | DispatchCampaignData contactId campaignId campaignShippingId =>
      if (job_name j =? "DispatchCampaign")%string
      then handleDispatchCampaign e contactId campaignId campaignShippingId
      else ret tt
  | ScheduleData _ => ret tt
  end.

(** The handler of [sendScheduledMessages.process("SendMessage", handler)]
    applied to the job. *)
Definition processScheduled (e : SendEnv) (j : Job) : M unit :=
  match job_data j with
  | ScheduleData schedule =>
      if (job_name j =? "SendMessage")%string
      then handleSendScheduledMessage e schedule else ret tt
  | _ => ret tt
  end.

Definition step (w : World) (ev : Event) : World :=
  match ev with
  | VerifyCampaignsTick dbNow clock =>
      world_after (handleVerifyCampaigns dbNow clock w)
  | RunJob n e =>
      match nth_error (q_jobs (campaignQueue w)) n with
      | Some j =>
          world_after
            (process e j (with_campaignQueue (take_job n (campaignQueue w)) w))
      | None => w
      end
  | VerifySchedulesTick now1 now2 =>
      world_after (handleVerifySchedules now1 now2 w)
  | RunScheduledSend n e =>
      match nth_error (q_jobs (sendScheduledMessages w)) n with
      | Some j =>
          world_after
            (processScheduled e j
               (with_sendScheduledMessages
                  (take_job n (sendScheduledMessages w)) w))
      | None => w
      end
  end.

Definition run (w : World) (evs : list Event) : World := fold_left step evs w.

(** A state the pipeline starts from: campaigns waiting to run, no shipping
    record, no job, nothing sent. *)
Definition initial (w : World) : Prop :=
  shippings w = [] /\ q_jobs (campaignQueue w) = []
  /\ q_jobs (sendScheduledMessages w) = []
  /\ ioEvents w = [] /\ wbotSent w = [] /\ sentMessages w = []
  /\ forall c, In c (campaigns w) -> Campaign.status c = PROGRAMADA.

Definition reachable (w : World) : Prop :=
  exists w0 evs, initial w0 /\ run w0 evs = w.

(** Whether the event is a run of the dispatcher. *)
Definition is_dispatch_run (w : World) (ev : Event) : bool :=
  match ev with
  | RunJob n _ =>
      match nth_error (q_jobs (campaignQueue w)) n with
      | Some j =>
          match job_data j with
          | DispatchCampaignData _ _ _ =>
              (job_name j =? "DispatchCampaign")%string
          | _ => false
          end
      | None => false
      end
  | _ => false
  end.

(** ** Reading the jobs a run has enqueued *)

(** The jobs the campaign queue gained between two states. *)
Definition enqueued (w w' : World) : list Job :=
  jobs_since (campaignQueue w) (campaignQueue w').

(** The [delay] a [PrepareContact] or [ProcessCampaign] job carries in its
    data. *)
Definition delayOf (j : Job) : Z :=
  match job_data j with
  | ProcessCampaignData _ delay => delay
  | PrepareContactData _ _ delay => delay
  | _ => 0
  end.

(** The jobs of the loop of [handleProcessCampaign], one per recipient, for
    the first job id [next]. *)
Fixpoint fanOutJobs (e : Env) (settings : CampaignDelay) (campaign : Campaign.t)
    (contacts : list ContactListItem.t) (delay index : Z) (draws : nat)
    (next : Z) : list Job :=
  match contacts with
  | [] => []
  | contact :: rest =>
      {| job_id := next; job_name := "PrepareContact";
         job_data := PrepareContactData (ContactListItem.id contact)
                                        (Campaign.id campaign)
                                        (Js.or_num delay 0);
         job_opts := {| opt_delay := None; opt_removeOnComplete := true |} |}
      :: (let index := index + 1 in
          if Js.rem_is_zero index (longerIntervalAfter settings)
          then
            fanOutJobs e settings campaign rest
              (delay + parseToMilliseconds
                         (Js.or_num (greaterInterval settings) 60))
              index draws (next + 1)
          else if Js.truthy_num (fixedMessageInterval settings)
          then
            fanOutJobs e settings campaign rest
              (delay + parseToMilliseconds (fixedMessageInterval settings))
              index draws (next + 1)
          else
            fanOutJobs e settings campaign rest
              (delay + parseToMilliseconds
                         (randomValue (random e draws) 0
                            (Js.or_num (randomMessageInterval settings) 20)))
              index (S draws) (next + 1))
  end.

(** What the loop of [handleProcessCampaign] adds to [delay] after the
    recipient of 1-based [index], [u] being the draw when one is made. *)
Definition advance (settings : CampaignDelay) (index u : Z) : Z :=
  if Js.rem_is_zero index (longerIntervalAfter settings)
  then parseToMilliseconds (Js.or_num (greaterInterval settings) 60)
  else parseToMilliseconds
         (if Js.truthy_num (fixedMessageInterval settings)
          then fixedMessageInterval settings
          else randomValue u 0
                 (Js.or_num (randomMessageInterval settings) 20)).



(** ** Relations between the states before and after a computation *)

(** No shipping record of [w'] has a non-null [deliveredAt] that the record
    of the same id did not already have in [w]. *)
Definition noNewDelivery (w w' : World) : Prop :=
  forall s', In s' (shippings w') ->
    CampaignShipping.deliveredAt s' <> None ->
    exists s, In s (shippings w)
              /\ CampaignShipping.id s = CampaignShipping.id s'
              /\ CampaignShipping.deliveredAt s
                 = CampaignShipping.deliveredAt s'.

(** Every run of the computation relates its final state to its initial
    state by [R], whether it returns or throws. *)
Definition preserves {A} (R : World -> World -> Prop) (m : M A) : Prop :=
  forall w, R w (snd (m w)).

(** The shipping records of a campaign and recipient. *)
Definition recordsFor (campaignId contactId : Z) (w : World)
    : list CampaignShipping.t :=
  filter (fun s =>
            (CampaignShipping.campaignId s =? campaignId)
            && (CampaignShipping.contactId s =? contactId))
         (shippings w).

(** The pair a shipping record stands for. *)
Definition shipping_key (s : CampaignShipping.t) : Z * Z :=
  (CampaignShipping.campaignId s, CampaignShipping.contactId s).

(** The shipping table is well formed: the primary keys are distinct and
    below the next id, and no two records stand for the same campaign and
    recipient. *)
Definition shippings_wf (w : World) : Prop :=
  NoDup (map CampaignShipping.id (shippings w))
  /\ (forall s, In s (shippings w) ->
                CampaignShipping.id s < nextShippingId w)
  /\ NoDup (map shipping_key (shippings w)).

(** The shipping records and the campaign queue are the same in both
    states. *)
Definition sameShippingsAndJobs (w w' : World) : Prop :=
  shippings w' = shippings w
  /\ nextShippingId w' = nextShippingId w
  /\ campaignQueue w' = campaignQueue w.

(** The recipient's record exists and is delivered or
    confirmation-requested. *)
Definition settled (campaignId contactId : Z) (w : World) : Prop :=
  exists r, existingRecord campaignId contactId w = Some r
            /\ undeliveredUnconfirmed r = false.

(** From a state in which the recipient is settled, the shipping records and
    the queue are kept. *)
Definition keepsWhenSettled (campaignId contactId : Z) (w w' : World) : Prop :=
  settled campaignId contactId w -> sameShippingsAndJobs w w'.

(** Well-formedness of the shipping table is kept. *)
Definition keepsWf (w w' : World) : Prop :=
  shippings_wf w -> shippings_wf w'.

(** The [DispatchCampaign] job the preparer adds to the queue of [w], for the
    record [recordId]. *)
Definition dispatchJob (w : World) (contactId campaignId recordId delay : Z)
    : Job :=
  {| job_id := q_next (campaignQueue w);
     job_name := "DispatchCampaign";
     job_data := DispatchCampaignData contactId campaignId recordId;
     job_opts := {| opt_delay := Some delay;
                    opt_removeOnComplete := false |} |}.

(** The media message the dispatcher sends before the text: on a final send
    of a campaign with a [mediaPath], when [getMessageOptions] answers an
    object with keys. *)
Definition mediaSent (e : Env) (c : Campaign.t) (s : CampaignShipping.t)
    : list WbotMessage :=
  if negb (isConfirm c s) && Js.present (Campaign.mediaPath c)
  then match getMessageOptions e with
       | Some true =>
           [{| wm_chatId :=
                 (CampaignShipping.number s ++ "@s.whatsapp.net")%string;
               wm_content := Media (Campaign.mediaName c) |}]
       | _ => []
       end
  else [].

(** The schedule a job of the scheduled-send queue is for. *)
Definition scheduleOf (j : Job) : option Z :=
  match job_data j with
  | ScheduleData schedule => Some (Schedule.id schedule)
  | _ => None
  end.

(** The jobs of a list that are for the schedule [id]. *)
Definition jobsForSchedule (id : Z) (jobs : list Job) : list Job :=
  filter (fun j =>
            match scheduleOf j with
            | Some i => i =? id
            | None => false
            end) jobs.

(** ** The user monitor

    [handleLoginStatus] works on the [Users] table alone. *)

Module User.
Record t := mk {
  id : Z;
  online : bool;
  updatedAt : Z
}.
End User.

(** The ids the SQL query of [handleLoginStatus] selects at the database's
    [now()]: ["updatedAt" < now() - '5 minutes' and online = true]. *)
Definition staleOnline (dbNow : Z) (users : list User.t) : list Z :=
  map User.id
      (filter (fun u => (User.updatedAt u <? dbNow - 300000) && User.online u)
              users).

(** One iteration of the loop of [handleLoginStatus], inside its [try]:
    [User.findByPk(item.id)], then [user.update({ online: false })], which
    stamps [updatedAt]. [answer] is the time of the update, or [None] when
    the update throws; a user that is no longer there makes [user.update]
    throw. Whatever is thrown is caught and the loop goes on. *)
Definition sweepUser (answer : Z -> option Z) (users : list User.t) (id : Z)
    : list User.t :=
  match find (fun u => User.id u =? id) users with
  | Some user =>
      match answer id with
      | Some at_ =>
          map (fun row =>
                 if User.id row =? User.id user
                 then User.mk (User.id row) false at_ else row)
              users
      | None => users
      end
  | None => users
  end.

(** [handleLoginStatus], for a query that answers. *)
Definition handleLoginStatus (dbNow : Z) (answer : Z -> option Z)
    (users : list User.t) : list User.t :=
  fold_left (sweepUser answer) (staleOnline dbNow users) users.

(** ** Further notions the properties are stated with *)

(** The value of the last row of the company that has the key. *)
Definition lastSetting (key : string) (companyId : Z) (rows : list Setting.t)
    : option Z :=
  fold_left
    (fun acc s =>
       if (Setting.companyId s =? companyId)
          && (Setting.key s =? key)%string
       then Some (Setting.value s) else acc)
    rows None.

(** The present ones among nullable texts, in order. *)
Definition presentTexts (texts : list (option string)) : list string :=
  flat_map (fun m =>
              match m with
              | Some t => if (t =? "")%string then [] else [t]
              | None => []
              end)
           texts.

(** Everything that is stored is the same in both states: the tables and
    the queues; the logs of what went out may differ. *)
Definition sameStored (w w' : World) : Prop :=
  campaigns w' = campaigns w
  /\ shippings w' = shippings w
  /\ nextShippingId w' = nextShippingId w
  /\ settings w' = settings w
  /\ schedules w' = schedules w
  /\ campaignQueue w' = campaignQueue w
  /\ sendScheduledMessages w' = sendScheduledMessages w.

(** The shipping table is the same in both states. *)
Definition sameShippings (w w' : World) : Prop :=
  shippings w' = shippings w /\ nextShippingId w' = nextShippingId w.

(** No shipping record is deleted, and none that is delivered becomes
    undelivered. *)
Definition deliveredStays (w w' : World) : Prop :=
  forall s, In s (shippings w) ->
    exists s', In s' (shippings w')
               /\ CampaignShipping.id s' = CampaignShipping.id s
               /\ (CampaignShipping.deliveredAt s <> None ->
                   CampaignShipping.deliveredAt s' <> None).

(** No campaign row is created or deleted, and none becomes [PROGRAMADA]. *)
Definition noNewProgramada (w w' : World) : Prop :=
  map Campaign.id (campaigns w') = map Campaign.id (campaigns w)
  /\ forall c', In c' (campaigns w') ->
       Campaign.status c' = PROGRAMADA ->
       exists c, In c (campaigns w)
                 /\ Campaign.id c = Campaign.id c'
                 /\ Campaign.status c = PROGRAMADA.

(** The job is one that [campaignQueue.process] has a handler for: its name
    is the one registered for its payload. *)
Definition handled (j : Job) : bool :=
  match job_data j with
  | ProcessCampaignData _ _ => (job_name j =? "ProcessCampaign")%string
  | PrepareContactData _ _ _ => (job_name j =? "PrepareContact")%string
  | DispatchCampaignData _ _ _ => (job_name j =? "DispatchCampaign")%string
  | ScheduleData _ => false
  end.

(** The job is a scheduled send as the verifier enqueues them. *)
Definition scheduledSend (j : Job) : bool :=
  match job_data j, opt_delay (job_opts j) with
  | ScheduleData _, Some d => (job_name j =? "SendMessage")%string && (d =? 40000)
  | _, _ => false
  end.

(** The jobs of a queue have distinct ids below the next id, and are all of
    the kind [ok]. *)
Definition queue_ok (ok : Job -> bool) (q : Queue) : Prop :=
  NoDup (map job_id (q_jobs q))
  /\ forall j, In j (q_jobs q) -> ok j = true /\ job_id j < q_next q.

Definition queues_ok (w : World) : Prop :=
  queue_ok handled (campaignQueue w)
  /\ queue_ok scheduledSend (sendScheduledMessages w).

(** Well-formedness of the queues is kept. *)
Definition keepsQueues (w w' : World) : Prop := queues_ok w -> queues_ok w'.

(** A dispatch that failed before the text went out: every shipping record
    is as it was, no notification was emitted, and at most media messages
    were sent. *)
Definition failedEarly (w w' : World) : Prop :=
  shippings w' = shippings w
  /\ ioEvents w' = ioEvents w
  /\ exists media,
       wbotSent w' = (wbotSent w ++ media)%list
       /\ forall m, In m media -> exists name, wm_content m = Media name.

(** A dispatch that failed after the text went out and the record of the job
    was stamped: the contact list of the campaign is not loaded, or the
    [contact] include of the record is null. *)
Definition failedLate (e : Env) (c : Campaign.t) (sid : Z) (w w' : World)
    : Prop :=
  (Campaign.contacts c = None \/ contactIncluded e = false)
  /\ exists s,
       findShipping w sid = Some s
       /\ shippings w'
          = map (fun row =>
                   if CampaignShipping.id row =? CampaignShipping.id s
                   then (if isConfirm c s
                         then CampaignShipping.set_confirmationRequestedAt
                                (Some (now e))
                         else CampaignShipping.set_deliveredAt (Some (now e)))
                          row
                   else row)
                (shippings w)
       /\ wbotSent w'
          = (wbotSent w ++ mediaSent e c s
             ++ [{| wm_chatId :=
                      (CampaignShipping.number s ++ "@s.whatsapp.net")%string;
                    wm_content :=
                      Text (if isConfirm c s
                            then CampaignShipping.confirmationMessage s
                            else CampaignShipping.message s) |}])%list.

(** The campaign a job of the campaign queue is for. *)
Definition campaignOf (j : Job) : option Z :=
  match job_data j with
  | ProcessCampaignData id _ => Some id
  | PrepareContactData _ campaignId _ => Some campaignId
  | DispatchCampaignData _ campaignId _ => Some campaignId
  | ScheduleData _ => None
  end.

(** The rows of the campaign [id]. *)
Definition rowsOf (id : Z) (w : World) : list Campaign.t :=
  filter (fun c => Campaign.id c =? id) (campaigns w).

(** The rows of the campaign [id] are the same in both states, and the
    campaign queue of [w'] has no job for it that the queue of [w] has
    not. *)
Definition leavesAlone (id : Z) (w w' : World) : Prop :=
  rowsOf id w' = rowsOf id w
  /\ forall j, In j (q_jobs (campaignQueue w')) ->
                campaignOf j = Some id ->
                In j (q_jobs (campaignQueue w)).

(** Nothing is pending for the campaign [id]: the campaign queue has no job
    for it, and no row of it waits for the verifier. *)
Definition quiet (id : Z) (w : World) : Prop :=
  (forall j, In j (q_jobs (campaignQueue w)) -> campaignOf j <> Some id)
  /\ (forall c, In c (campaigns w) -> Campaign.id c = id ->
                 Campaign.status c <> PROGRAMADA).

(** * Scenarios *)

(** Concrete states and answers of the outside world, on which the handlers
    are run. *)

(** A stream of draws of [Math.random()]. *)
Definition lcg (k : nat) : Z :=
  ((Z.of_nat k + 1) * 6364136223846793005 + 1442695040888963407)
  mod Js.random_den.

Definition recipient (n : nat) : ContactListItem.t :=
  ContactListItem.mk (Z.of_nat n) "Ana" "5511900000000" "ana@example.com" true.

Definition recipients (n : nat) : list ContactListItem.t :=
  map recipient (seq 1 n).

Definition contactOf (n : nat) : Contact.t :=
  Contact.mk (100 + Z.of_nat n) "Ana" "5511900000000" "ana@example.com".

(** A campaign of company 1 scheduled at [t = 600000] with one message
    variant and one confirmation variant. *)
Definition demoCampaign (id : Z) (st : CampaignStatus) (confirmation : bool)
    (contacts : list ContactListItem.t) : Campaign.t :=
  Campaign.mk id 1 st 600000 None confirmation
    (Some "Oi {nome}") None None None None
    (Some "{nome}, posso enviar?") None None None None
    None None None None (Some 1) (Some contacts).

Definition emptyWorld : World :=
  mkWorld [] [] 1 [] [] emptyQueue emptyQueue [] [] [].

(** What the outside world answers when every collaborator succeeds, for
    the recipient number [n], at time [t]. *)
Definition allGood (t : Z) (n : nat) : Env :=
  {| now := t; random := lcg;
     showService := Some (recipient n);
     getWhatsappWbot := true;
     verifyContact := Some (contactOf n);
     findOrCreateTicket := Some (true, Some 7);
     updateTicket := true;
     getMessageOptions := Some true;
     sendMedia := true;
     sendText := true;
     contactIncluded := true |}.

(** The same, except that the WhatsApp session fails to send the text. *)
Definition sendFails (t : Z) (n : nat) : Env :=
  {| now := t; random := lcg;
     showService := Some (recipient n);
     getWhatsappWbot := true;
     verifyContact := Some (contactOf n);
     findOrCreateTicket := Some (true, Some 7);
     updateTicket := true;
     getMessageOptions := Some true;
     sendMedia := true;
     sendText := false;
     contactIncluded := true |}.

(** The same as [allGood], except that the contact-list item of the shipping
    record is gone when the dispatcher loads the record. *)
Definition contactGone (t : Z) (n : nat) : Env :=
  {| now := t; random := lcg;
     showService := Some (recipient n);
     getWhatsappWbot := true;
     verifyContact := Some (contactOf n);
     findOrCreateTicket := Some (true, Some 7);
     updateTicket := true;
     getMessageOptions := Some true;
     sendMedia := true;
     sendText := true;
     contactIncluded := false |}.

(** The same as [allGood], except that [verifyContact] throws. *)
Definition contactUnknown (t : Z) (n : nat) : Env :=
  {| now := t; random := lcg;
     showService := Some (recipient n);
     getWhatsappWbot := true;
     verifyContact := None;
     findOrCreateTicket := Some (true, Some 7);
     updateTicket := true;
     getMessageOptions := Some true;
     sendMedia := true;
     sendText := true;
     contactIncluded := true |}.

(** A campaign with 21 recipients and no setting row: the pacing defaults
    apply. *)
Definition pacingWorld : World :=
  with_campaigns [demoCampaign 1 PROGRAMADA false (recipients 21)] emptyWorld.

(** A company that sets [greaterInterval] to 0 and [longerIntervalAfter]
    to 2, with a campaign of three recipients. *)
Definition zeroCooldownWorld : World :=
  mkWorld [demoCampaign 1 PROGRAMADA false (recipients 3)] [] 1
          [Setting.mk 1 "greaterInterval" 0;
           Setting.mk 1 "longerIntervalAfter" 2]
          [] emptyQueue emptyQueue [] [] [].


(** One campaign due at [t = 600000], still [PROGRAMADA]. *)
Definition dueWorld : World :=
  with_campaigns [demoCampaign 1 PROGRAMADA false (recipients 2)] emptyWorld.

(** A campaign with a single recipient, due at [t = 600000]. *)
Definition soloWorld : World :=
  with_campaigns [demoCampaign 1 PROGRAMADA false (recipients 1)] emptyWorld.

(** The verifier fires twice, 20 s apart, before a worker takes the first
    [ProcessCampaign] job, so that the recipient is prepared twice and two
    dispatch jobs exist for the one shipping record, delayed by 29999 ms and
    by 9999 ms; the dispatch that is due first delivers, the other one fails
    to send. *)
Definition doubleTick : list Event :=
  [VerifyCampaignsTick 570000 (fun _ => 570001);
   VerifyCampaignsTick 590000 (fun _ => 590001);
   RunJob 0 (allGood 591000 1);
   RunJob 0 (allGood 592000 1);
   RunJob 0 (allGood 593000 1);
   RunJob 0 (allGood 594000 1);
   RunJob 1 (allGood 604000 1);
   RunJob 0 (sendFails 623000 1)].

(** One tick, the fan-out, the preparation of both recipients, then the
    dispatch to the first recipient, due after 9999 ms, fails to send. The
    dispatch to the second recipient, due after 23999 ms, is still in the
    queue. *)
Definition firstDispatchFails : list Event :=
  [VerifyCampaignsTick 590000 (fun _ => 590001);
   RunJob 0 (allGood 591000 1);
   RunJob 0 (allGood 592000 1);
   RunJob 0 (allGood 593000 2);
   RunJob 0 (sendFails 602000 1)].

(** The campaign of [dueWorld] after [firstDispatchFails] and the dispatch
    to the second recipient: one of its two shipping records is delivered,
    and its status is [FINALIZADA_COM_ERROS]. *)
Definition oneOfTwoDelivered : World :=
  step (run dueWorld firstDispatchFails) (RunJob 0 (allGood 617000 2)).

(** A campaign that asks for confirmation, its single recipient prepared:
    the shipping record 1 exists, with both texts, and the campaign is
    [EM_ANDAMENTO]. *)
Definition confirmWorld : World :=
  run (with_campaigns [demoCampaign 1 PROGRAMADA true (recipients 1)]
                      emptyWorld)
      [VerifyCampaignsTick 590000 (fun _ => 590001);
       RunJob 0 (allGood 591000 1);
       RunJob 0 (allGood 592000 1)].

(** The preparation of the single recipient of [soloWorld] has been
    enqueued. *)
Definition fannedOutWorld : World :=
  run soloWorld [VerifyCampaignsTick 590000 (fun _ => 590001);
                 RunJob 0 (allGood 591000 1)].

(** A schedule of company 1 for the contact 101. *)
Definition demoSchedule (id sendAt : Z) (st : ScheduleStatus) : Schedule.t :=
  Schedule.mk id 1 "Lembrete: consulta amanha" sendAt None st (contactOf 1).

(** One pending schedule due at [t = 1700000030800], 30.8 s after the whole
    second [1700000000000]. *)
Definition scheduleWorld : World :=
  with_schedules [demoSchedule 1 1700000030800 PENDENTE] emptyWorld.

(** One schedule that the verifier has promoted. *)
Definition promotedWorld : World :=
  with_schedules [demoSchedule 1 1700000030000 AGENDADA] emptyWorld.

(** A company that paces with a fixed interval of 5 s and a cooldown, of the
    default length, after every second message; a campaign of five
    recipients. *)
Definition fixedPaceWorld : World :=
  mkWorld [demoCampaign 1 PROGRAMADA false (recipients 5)] [] 1
          [Setting.mk 1 "fixedMessageInterval" 5;
           Setting.mk 1 "longerIntervalAfter" 2]
          [] emptyQueue emptyQueue [] [] [].

(** Four users at [t = 1000000]: two online and silent for more than five
    minutes, one offline, one online and seen 100 s ago. *)
Definition demoUsers : list User.t :=
  [User.mk 1 true 0; User.mk 2 true 0; User.mk 3 false 0;
   User.mk 4 true 900000].

(** The update of user 2 throws; the others are stamped at
    [t = 1000050]. *)
Definition demoAnswer (id : Z) : option Z :=
  if id =? 2 then None else Some 1000050.

(** A contact-list item whose number is not a WhatsApp number. *)
Definition invalidRecipient (n : nat) : ContactListItem.t :=
  ContactListItem.mk (Z.of_nat n) "Rui" "5511800000000" "rui@example.com"
    false.

(** A campaign whose contact list holds one item, not a valid one, due at
    [t = 600000]. *)
Definition noRecipientWorld : World :=
  with_campaigns [demoCampaign 1 PROGRAMADA false [invalidRecipient 1]]
                 emptyWorld.

(** The campaign of [soloWorld] beside a campaign 2 of two recipients that
    is running and has no job in the queue. *)
Definition twoCampaignWorld : World :=
  with_campaigns [demoCampaign 1 PROGRAMADA false (recipients 1);
                  demoCampaign 2 EM_ANDAMENTO false (recipients 2)]
                 emptyWorld.

(** * Properties *)

(** ** The primitives on concrete values *)

Example getProcessedMessage_fills_placeholders :
  getProcessedMessage "Oi {nome}, seu numero {numero} ({nome})" (contactOf 1)
  = "Oi Ana, seu numero 5511900000000 (Ana)".
Proof. reflexivity. Qed.

Example randomValue_of_a_draw_near_one :
  randomValue (Js.random_den - 1) 0 20 = 19.
Proof. reflexivity. Qed.

Example randomValue_of_the_draw_zero : randomValue 0 0 20 = 0.
Proof. reflexivity. Qed.

(** The double nearest to 0.95 is [8556839292003942 / 2^53]; its product with
    20 is rounded to 19, above the exact product. *)
Example randomValue_rounds_the_product :
  randomValue 8556839292003942 0 20 = 19
  /\ 8556839292003942 * 20 / Js.random_den = 18.
Proof. split; reflexivity. Qed.

(** The patterns of the replacement text are expanded. *)
Example getProcessedMessage_expands_dollar_patterns :
  getProcessedMessage "Oi {nome}!"
    (Contact.mk 101 "A$&B" "5511900000000" "ana@example.com")
  = "Oi A{nome}B!"
  /\ getProcessedMessage "Oi {nome}!"
       (Contact.mk 101 "R$$ 5" "5511900000000" "ana@example.com")
     = "Oi R$ 5!"
  /\ getProcessedMessage "Oi {nome}!"
       (Contact.mk 101 "<$`|$'>" "5511900000000" "ana@example.com")
     = "Oi <Oi |!>!"
  /\ getProcessedMessage "Oi {nome}!"
       (Contact.mk 101 "US$ 5 e $1" "5511900000000" "ana@example.com")
     = "Oi US$ 5 e $1!".
Proof. repeat split; reflexivity. Qed.

Example rem_is_zero_at_multiples :
  map (fun i => Js.rem_is_zero i 20) [19; 20; 21; 40]
  = [false; true; false; true]
  /\ Js.rem_is_zero 20 0 = false.
Proof. split; reflexivity. Qed.

Example getSettings_reads_the_company_rows :
  getSettings zeroCooldownWorld (demoCampaign 1 PROGRAMADA false (recipients 3))
  = {| randomMessageInterval := 20; longerIntervalAfter := 2;
       greaterInterval := 0; fixedMessageInterval := 0 |}.
Proof. reflexivity. Qed.

(** ** Basic facts *)

Lemma or_num_0_r (a : Z) : Js.or_num a 0 = a.
Proof. unfold Js.or_num. destruct (Z.eqb_spec a 0); congruence. Qed.

Lemma with_campaignQueue_same (w : World) :
  with_campaignQueue (campaignQueue w) w = w.
Proof. destruct w; reflexivity. Qed.

Lemma with_campaignQueue_twice (q q' : Queue) (w : World) :
  with_campaignQueue q' (with_campaignQueue q w) = with_campaignQueue q' w.
Proof. reflexivity. Qed.

Lemma jobs_since_app (q : Queue) (js : list Job) (n : Z) :
  jobs_since q {| q_jobs := q_jobs q ++ js; q_next := n |} = js.
Proof.
  unfold jobs_since; simpl.
  rewrite skipn_app, skipn_all, Nat.sub_diag. reflexivity.
Qed.

(** ** The orchestrator's loop *)

Section FanOut.

Variable e : Env.
Variable settings : CampaignDelay.
Variable campaign : Campaign.t.

(** The loop returns, and all it does is to add its jobs to the queue. *)
Lemma fanOut_run (contacts : list ContactListItem.t) :
  forall (delay index : Z) (draws : nat) (w : World),
    fanOut e settings campaign contacts delay index draws w =
    (Ok tt,
     with_campaignQueue
       {| q_jobs := q_jobs (campaignQueue w)
                    ++ fanOutJobs e settings campaign contacts delay index
                         draws (q_next (campaignQueue w));
          q_next := q_next (campaignQueue w)
                    + Z.of_nat (List.length contacts) |}
       w).
Proof.
  induction contacts as [|contact rest IH]; intros delay index draws w.
  - simpl. rewrite app_nil_r, Z.add_0_r.
    destruct w as [? ? ? ? ? [js n] ? ? ? ?]; reflexivity.
  - cbn [fanOut fanOutJobs]. unfold bind at 1.
    unfold campaignQueue_add, queue_add. cbn [fst snd].
    destruct (Js.rem_is_zero (index + 1) (longerIntervalAfter settings));
      [|destruct (Js.truthy_num (fixedMessageInterval settings))];
      rewrite IH, with_campaignQueue_twice;
      cbn [campaignQueue with_campaignQueue q_jobs q_next];
      rewrite <- app_assoc; cbn [app List.length];
      rewrite Nat2Z.inj_succ;
      do 2 f_equal; f_equal; lia.
Qed.

Lemma fanOutJobs_length (contacts : list ContactListItem.t) :
  forall delay index draws next,
    List.length (fanOutJobs e settings campaign contacts delay index draws next)
    = List.length contacts.
Proof.
  induction contacts as [|contact rest IH]; intros; cbn [fanOutJobs List.length].
  - reflexivity.
  - destruct (Js.rem_is_zero _ _); [|destruct (Js.truthy_num _)];
      rewrite IH; reflexivity.
Qed.


(** The first job carries the delay the loop starts with. *)
Lemma fanOutJobs_first (contacts : list ContactListItem.t) :
  forall delay index draws next,
    contacts <> [] ->
    nth 0 (map delayOf
             (fanOutJobs e settings campaign contacts delay index draws next)) 0
    = delay.
Proof.
  destruct contacts; intros; [congruence|].
  cbn [fanOutJobs map nth delayOf job_data]. apply or_num_0_r.
Qed.

(** Between two consecutive jobs the delay grows by [advance] at the 1-based
    index of the first of them. *)
Lemma fanOutJobs_advance (contacts : list ContactListItem.t) :
  forall delay index draws next (i : nat),
    (S i < List.length contacts)%nat ->
    exists k : nat,
      nth (S i)
          (map delayOf
             (fanOutJobs e settings campaign contacts delay index draws next)) 0
      - nth i
          (map delayOf
             (fanOutJobs e settings campaign contacts delay index draws next)) 0
      = advance settings (index + Z.of_nat i + 1) (random e k).
Proof.
  induction contacts as [|c rest IH]; intros delay index draws next i Hi.
  - simpl in Hi; lia.
  - cbn [List.length] in Hi.
    destruct i as [|i].
    + exists draws. cbn [fanOutJobs]. unfold advance.
      rewrite Z.add_0_r.
      destruct rest as [|c' rest']; [simpl in Hi; lia|].
      destruct (Js.rem_is_zero _ _); [|destruct (Js.truthy_num _)];
        cbn [fanOutJobs map nth delayOf job_data];
        rewrite !or_num_0_r; lia.
    + cbn [fanOutJobs].
      replace (index + Z.of_nat (S i) + 1)
        with (index + 1 + Z.of_nat i + 1) by lia.
      destruct (Js.rem_is_zero _ _); [|destruct (Js.truthy_num _)];
        cbn [map nth]; apply IH; lia.
Qed.

End FanOut.

(** ** The orchestrator *)

(** A run of the orchestrator on a campaign with a recipient list returns,
    and the jobs it enqueues are those of its loop started at the job's
    [delay], index 0. *)
Lemma handleProcessCampaign_fans_out (w : World) (e : Env) (id d0 : Z)
    (c : Campaign.t) (l : list ContactListItem.t) :
  getCampaign w id = Some c ->
  Campaign.contacts c = Some l ->
  outcome (handleProcessCampaign e id d0 w) = Completed
  /\ enqueued w (world_after (handleProcessCampaign e id d0 w))
     = fanOutJobs e (getSettings w c) c l d0 0 0 (q_next (campaignQueue w)).
Proof.
  intros Hc Hl.
  unfold handleProcessCampaign, loadCampaign, try_catch, bind, query.
  rewrite Hc. cbn [ret]. rewrite Hl.
  rewrite fanOut_run. cbn [campaign_update ret fst snd].
  split; [reflexivity|].
  unfold enqueued, world_after. cbn [snd campaignQueue with_campaigns
    with_campaignQueue].
  apply jobs_since_app.
Qed.

(** *** The floor of a rounded product

    [Math.random() * max] is rounded to a double before [Math.floor]; the
    result stays below [max] all the same. *)

Lemma round_pos_exact (p : Z) :
  Z.log2 p - 52 <= 0 -> Js.round_pos p = p.
Proof.
  intros H. unfold Js.round_pos. cbv zeta.
  replace (Z.log2 p - 52 <=? 0) with true by (symmetry; apply Z.leb_le; exact H).
  reflexivity.
Qed.

(** The rounded numerator is a multiple of the unit [t] of its binade that
    is not below the multiple under [p], and is within half a unit of [p];
    half a unit is at most [p / 2^53]. *)
Lemma round_pos_spec (p : Z) :
  0 < Z.log2 p - 52 ->
  exists h k : Z,
    0 < h /\ 2 ^ (Z.log2 p - 52) = 2 * h
    /\ h * Js.random_den <= p
    /\ Js.round_pos p = k * (2 * h)
    /\ p / (2 * h) <= k
    /\ k * (2 * h) <= p + h.
Proof.
  intros Hs. unfold Js.round_pos. cbv zeta.
  replace (Z.log2 p - 52 <=? 0) with false by (symmetry; apply Z.leb_gt; exact Hs).
  assert (Hp : 0 < p).
  { destruct (Z_lt_le_dec 0 p) as [N|N]; [exact N|].
    rewrite (Z.log2_nonpos p N) in Hs. lia. }
  set (s := Z.log2 p - 52) in *.
  exists (2 ^ (s - 1)).
  assert (Hh : 0 < 2 ^ (s - 1)) by (apply Z.pow_pos_nonneg; lia).
  assert (Hts : 2 ^ s = 2 * 2 ^ (s - 1)).
  { replace s with (Z.succ (s - 1)) at 1 by lia. apply Z.pow_succ_r. lia. }
  assert (Hlog : 2 ^ (s - 1) * Js.random_den <= p).
  { unfold Js.random_den. rewrite <- Z.pow_add_r by lia.
    replace (s - 1 + 53) with (Z.log2 p) by lia.
    apply Z.log2_spec. exact Hp. }
  rewrite Hts.
  set (h := 2 ^ (s - 1)) in *.
  pose proof (Z.div_mod p (2 * h) ltac:(lia)) as Hdm.
  pose proof (Z.mod_pos_bound p (2 * h) ltac:(lia)) as Hr.
  set (q := p / (2 * h)) in *. set (r := p mod (2 * h)) in *.
  destruct (r <? h) eqn:E1.
  - exists q. apply Z.ltb_lt in E1. repeat split; try lia.
  - apply Z.ltb_ge in E1. destruct (h <? r) eqn:E2.
    + exists (q + 1). apply Z.ltb_lt in E2. repeat split; try lia.
    + apply Z.ltb_ge in E2. destruct (Z.even q).
      * exists q. repeat split; try lia.
      * exists (q + 1). repeat split; try lia.
Qed.

Lemma floor_random_times_range (u max : Z) :
  Js.valid_draw u -> 0 < max ->
  0 <= Js.floor_random_times u max < max.
Proof.
  unfold Js.valid_draw, Js.floor_random_times, Js.round_double.
  intros [Hu0 Hu1] Hmax.
  assert (Hden : 0 < Js.random_den) by reflexivity.
  assert (Hp : 0 <= u * max) by nia.
  rewrite (Z.abs_eq _ Hp).
  destruct (Z.eq_dec (u * max) 0) as [E|N].
  - rewrite E. cbn. lia.
  - rewrite (Z.sgn_pos (u * max)) by lia. rewrite Z.mul_1_l.
    destruct (Z_le_gt_dec (Z.log2 (u * max) - 52) 0) as [Hs|Hs].
    + rewrite (round_pos_exact _ Hs). split.
      * apply Z.div_pos; lia.
      * apply Z.div_lt_upper_bound; nia.
    + destruct (round_pos_spec (u * max) ltac:(lia))
        as (h & k & Hh & _ & Hlog & -> & Hk & Hup).
      assert (0 <= u * max / (2 * h)) by (apply Z.div_pos; lia).
      split.
      * apply Z.div_pos; nia.
      * apply Z.div_lt_upper_bound; [lia|]. nia.
Qed.

(** The largest draw gives the largest value. *)
Lemma floor_random_times_top (max : Z) :
  0 < max -> max <= Js.random_den ->
  Js.floor_random_times (Js.random_den - 1) max = max - 1.
Proof.
  intros Hpos Hmax.
  assert (Hden : 1 < Js.random_den) by reflexivity.
  assert (Hu : Js.valid_draw (Js.random_den - 1))
    by (unfold Js.valid_draw; lia).
  pose proof (floor_random_times_range _ max Hu Hpos) as [_ Hlt].
  assert (Hge : max - 1 <= Js.floor_random_times (Js.random_den - 1) max);
    [|lia].
  unfold Js.floor_random_times, Js.round_double.
  set (p := (Js.random_den - 1) * max).
  assert (Hp : 0 < p) by (unfold p; nia).
  assert (HL : Js.random_den * (max - 1) <= p) by (unfold p; nia).
  rewrite (Z.abs_eq p) by lia. rewrite (Z.sgn_pos p Hp), Z.mul_1_l.
  apply Z.div_le_lower_bound; [lia|].
  destruct (Z_le_gt_dec (Z.log2 p - 52) 0) as [Hs|Hs].
  - rewrite (round_pos_exact _ Hs). exact HL.
  - destruct (round_pos_spec p ltac:(lia))
      as (h & k & Hh & Hunit & _ & -> & Hk & _).
    assert (Hs53 : Z.log2 p - 52 <= 53).
    { assert (Z.log2 p < 106); [|lia].
      apply Z.log2_lt_pow2; [exact Hp|].
      change (2 ^ 106) with (Js.random_den * Js.random_den).
      unfold p. nia. }
    assert (Hdiv : Js.random_den = 2 ^ (53 - (Z.log2 p - 52)) * (2 * h)).
    { rewrite <- Hunit, <- Z.pow_add_r by lia.
      replace (53 - (Z.log2 p - 52) + (Z.log2 p - 52)) with 53 by lia.
      reflexivity. }
    set (c := 2 ^ (53 - (Z.log2 p - 52))) in *.
    assert (Hc : 0 < c) by (apply Z.pow_pos_nonneg; lia).
    assert (Hq : c * (max - 1) <= p / (2 * h)).
    { apply Z.div_le_lower_bound; [lia|]. rewrite Hdiv in HL. nia. }
    rewrite Hdiv. nia.
Qed.

(** ** Counting draws *)





Lemma randomValue_range (u min max : Z) :
  Js.valid_draw u -> 0 < max ->
  min <= randomValue u min max < min + max.
Proof.
  intros Hu Hmax. unfold randomValue.
  pose proof (floor_random_times_range u max Hu Hmax). lia.
Qed.

(** For a positive index, [index % n === 0] says that [n] divides it. *)
Lemma rem_is_zero_divide (index n : Z) :
  0 < index -> (Js.rem_is_zero index n = true <-> (n | index)).
Proof.
  intros Hpos. unfold Js.rem_is_zero.
  destruct (Z.eqb_spec n 0) as [->|Hn].
  - split; [discriminate|]. intros [k Hk]. lia.
  - rewrite Z.eqb_eq. apply Z.rem_divide. assumption.
Qed.

(** The growth of the delay from the job of the recipient of 1-based index
    [i] to the job of the next recipient. *)
Lemma handleProcessCampaign_advance (w : World) (e : Env) (id d0 : Z)
    (c : Campaign.t) (l : list ContactListItem.t) (i : nat) :
  getCampaign w id = Some c ->
  Campaign.contacts c = Some l ->
  (1 <= i < List.length l)%nat ->
  exists k : nat,
    nth i (map delayOf
             (enqueued w (world_after (handleProcessCampaign e id d0 w)))) 0
    - nth (i - 1)
          (map delayOf
             (enqueued w (world_after (handleProcessCampaign e id d0 w)))) 0
    = advance (getSettings w c) (Z.of_nat i) (random e k).
Proof.
  intros Hc Hl Hi.
  destruct (handleProcessCampaign_fans_out w e id d0 c l Hc Hl) as [_ ->].
  destruct i as [|j]; [lia|].
  replace (S j - 1)%nat with j by lia.
  destruct (fanOutJobs_advance e (getSettings w c) c l d0 0 0
              (q_next (campaignQueue w)) j) as [k Hk]; [lia|].
  exists k. rewrite Hk. f_equal. lia.
Qed.

(** C3, as amended. With [longerIntervalAfter = 20], [greaterInterval = 60],
    [randomMessageInterval = 20] and [fixedMessageInterval = 0], the
    orchestrator enqueues one job per recipient; the delay of the job of the
    recipient of 1-based index 21 exceeds the delay of the job of recipient
    20 by exactly 60000 ms (the cooldown is added after the 20th job is
    enqueued); and after every recipient whose index [i] is not a multiple of
    20 the delay grows, from the job of recipient [i] to the job of recipient
    [i + 1], by an amount in [[0, 20000)] ms. *)
Theorem pacing_cooldown_follows_the_twentieth_job (w : World) (e : Env)
    (id d0 : Z) (c : Campaign.t) (l : list ContactListItem.t) :
  getCampaign w id = Some c ->
  Campaign.contacts c = Some l ->
  getSettings w c = {| randomMessageInterval := 20;
                       longerIntervalAfter := 20;
                       greaterInterval := 60;
                       fixedMessageInterval := 0 |} ->
  (forall k, Js.valid_draw (random e k)) ->
  let delays :=
    map delayOf (enqueued w (world_after (handleProcessCampaign e id d0 w))) in
  List.length delays = List.length l
  /\ ((20 < List.length l)%nat -> nth 20 delays 0 - nth 19 delays 0 = 60000)
  /\ (forall i : nat,
        (1 <= i < List.length l)%nat -> ~ (20 | Z.of_nat i) ->
        0 <= nth i delays 0 - nth (i - 1) delays 0 < 20000).
Proof.
  intros Hc Hl Hs Hrnd delays.
  split; [|split].
  - unfold delays.
    destruct (handleProcessCampaign_fans_out w e id d0 c l Hc Hl) as [_ ->].
    rewrite length_map. apply fanOutJobs_length.
  - intros Hlen.
    destruct (handleProcessCampaign_advance w e id d0 c l 20 Hc Hl)
      as [k Hk]; [lia|].
    unfold delays. change (20 - 1)%nat with 19%nat in Hk.
    rewrite Hk, Hs. reflexivity.
  - intros i Hi Hndiv.
    destruct (handleProcessCampaign_advance w e id d0 c l i Hc Hl Hi)
      as [k Hk].
    unfold delays. rewrite Hk, Hs. unfold advance.
    cbn [longerIntervalAfter fixedMessageInterval randomMessageInterval].
    destruct (Js.rem_is_zero (Z.of_nat i) 20) eqn:Hrem.
    + exfalso. apply Hndiv. apply rem_is_zero_divide; [lia|assumption].
    + change (Js.truthy_num 0) with false. cbn iota.
      change (Js.or_num 20 20) with 20.
      pose proof (randomValue_range (random e k) 0 20 (Hrnd k) eq_refl).
      unfold parseToMilliseconds. lia.
Qed.

(** The theorem applied to the campaign of 21 recipients under the default
    settings. *)
Lemma pacing_cooldown_follows_the_twentieth_job_witness :
  let delays :=
    map delayOf
      (enqueued pacingWorld
         (world_after (handleProcessCampaign (allGood 0 1) 1 0 pacingWorld))) in
  List.length delays = 21%nat
  /\ ((20 < 21)%nat -> nth 20 delays 0 - nth 19 delays 0 = 60000)
  /\ (forall i : nat,
        (1 <= i < 21)%nat -> ~ (20 | Z.of_nat i) ->
        0 <= nth i delays 0 - nth (i - 1) delays 0 < 20000).
Proof.
  apply (pacing_cooldown_follows_the_twentieth_job pacingWorld (allGood 0 1)
           1 0 (demoCampaign 1 PROGRAMADA false (recipients 21))
           (recipients 21)).
  - reflexivity.
  - reflexivity.
  - reflexivity.
  - intro k. apply Z.mod_pos_bound. reflexivity.
Defined.

(** C3, as stated, fails: with [longerIntervalAfter = 20],
    [greaterInterval = 60], [randomMessageInterval = 20] and
    [fixedMessageInterval = 0], the job of the 20th recipient carries a delay
    16000 ms above that of the 19th, not 60000 ms; the 60000 ms are between
    the 20th and the 21st. *)
Lemma pacing_no_cooldown_before_the_twentieth_job :
  let c := demoCampaign 1 PROGRAMADA false (recipients 21) in
  let delays :=
    map delayOf
      (enqueued pacingWorld
         (world_after (handleProcessCampaign (allGood 0 1) 1 0 pacingWorld))) in
  getCampaign pacingWorld 1 = Some c
  /\ getSettings pacingWorld c = {| randomMessageInterval := 20;
                                    longerIntervalAfter := 20;
                                    greaterInterval := 60;
                                    fixedMessageInterval := 0 |}
  /\ nth 18 delays 0 = 171000
  /\ nth 19 delays 0 = 187000
  /\ nth 19 delays 0 - nth 18 delays 0 <> 60000
  /\ nth 20 delays 0 - nth 19 delays 0 = 60000.
Proof.
  vm_compute. repeat split; try reflexivity. discriminate.
Qed.






(** ** The campaign verifier *)

(** The loop of the verifier returns, and adds one job per selected row. *)
Lemma verifyEach_run (clock : nat -> Z) (due : list (Z * Z)) :
  forall (k : nat) (w : World),
  exists js : list Job,
    verifyEach clock k due w
    = (Ok tt,
       with_campaignQueue
         {| q_jobs := q_jobs (campaignQueue w) ++ js;
            q_next := q_next (campaignQueue w)
                      + Z.of_nat (List.length due) |} w)
    /\ List.length js = List.length due
    /\ forall (i : nat) (id scheduledAt : Z),
         nth_error due i = Some (id, scheduledAt) ->
         nth_error js i
         = Some {| job_id := q_next (campaignQueue w) + Z.of_nat i;
                   job_name := "ProcessCampaign";
                   job_data := ProcessCampaignData id
                                 (scheduledAt - clock (k + i)%nat);
                   job_opts := {| opt_delay := None;
                                  opt_removeOnComplete := true |} |}.
Proof.
  induction due as [|[id0 at0] rest IH]; intros k w.
  - exists []. cbn [verifyEach List.length]. rewrite app_nil_r, Z.add_0_r.
    split; [|split]; [|reflexivity|intros [|i] ? ? H; discriminate].
    destruct w as [? ? ? ? ? [js n] ? ? ? ?]; reflexivity.
  - cbn [verifyEach]. unfold bind at 1.
    unfold campaignQueue_add, queue_add. cbn [fst snd].
    match goal with
    | |- context [verifyEach clock (S k) rest ?w1] =>
        destruct (IH (S k) w1) as (js & Hrun & Hlen & Hnth)
    end.
    cbn [campaignQueue with_campaignQueue q_jobs q_next] in Hrun, Hnth.
    eexists (_ :: js). rewrite Hrun, with_campaignQueue_twice.
    split; [|split].
    + rewrite <- app_assoc. cbn [app List.length]. rewrite Nat2Z.inj_succ.
      do 2 f_equal. f_equal. lia.
    + cbn [List.length]. rewrite Hlen. reflexivity.
    + intros [|i] id scheduledAt H; cbn [nth_error] in H |- *.
      * injection H as -> ->. rewrite Z.add_0_r, Nat.add_0_r. reflexivity.
      * rewrite (Hnth i id scheduledAt H).
        replace (S k + i)%nat with (k + S i)%nat by lia.
        do 2 f_equal. lia.
Qed.

(** C5, as amended. One run of the Campaign Verifier returns and enqueues
    exactly one [ProcessCampaign] job per campaign its query selects, in the
    order of the result, with [removeOnComplete] set and carrying the
    campaign id and [delay = scheduledAt - now], where [now] is the clock
    read in the loop: a signed difference, non-negative exactly when that
    reading has not passed [scheduledAt] (nothing clamps it to zero). The
    selected campaigns are those with status [PROGRAMADA] and [scheduledAt]
    between the database's [now()] and one hour later. *)
Theorem verifier_enqueues_signed_delay (w : World) (dbNow : Z)
    (clock : nat -> Z) :
  let due := dueCampaigns dbNow w in
  let jobs :=
    enqueued w (world_after (handleVerifyCampaigns dbNow clock w)) in
  outcome (handleVerifyCampaigns dbNow clock w) = Completed
  /\ List.length jobs = List.length due
  /\ (forall (k : nat) (id scheduledAt : Z),
        nth_error due k = Some (id, scheduledAt) ->
        nth_error jobs k
        = Some {| job_id := q_next (campaignQueue w) + Z.of_nat k;
                  job_name := "ProcessCampaign";
                  job_data := ProcessCampaignData id (scheduledAt - clock k);
                  job_opts := {| opt_delay := None;
                                 opt_removeOnComplete := true |} |}
        /\ (0 <= scheduledAt - clock k <-> clock k <= scheduledAt)
        /\ dbNow <= scheduledAt <= dbNow + 3600000)
  /\ (forall c : Campaign.t,
        In (Campaign.id c, Campaign.scheduledAt c) due <->
        exists c', In c' (campaigns w)
                   /\ Campaign.id c' = Campaign.id c
                   /\ Campaign.scheduledAt c' = Campaign.scheduledAt c
                   /\ Campaign.status c' = PROGRAMADA
                   /\ dbNow <= Campaign.scheduledAt c' <= dbNow + 3600000).
Proof.
  intros due jobs.
  assert (Hdue : forall id scheduledAt,
             In (id, scheduledAt) due <->
             exists c', In c' (campaigns w)
                        /\ Campaign.id c' = id
                        /\ Campaign.scheduledAt c' = scheduledAt
                        /\ Campaign.status c' = PROGRAMADA
                        /\ dbNow <= Campaign.scheduledAt c' <= dbNow + 3600000).
  { intros id scheduledAt. unfold due, dueCampaigns.
    rewrite in_map_iff. split.
    - intros (c' & E & Hin). apply filter_In in Hin. destruct Hin as [Hin Hf].
      injection E as <- <-.
      apply andb_prop in Hf. destruct Hf as [Hf Hst].
      apply andb_prop in Hf. destruct Hf as [Hlo Hhi].
      exists c'. repeat split; try assumption; try lia.
      destruct (Campaign.status c'); try discriminate; reflexivity.
    - intros (c' & Hin & <- & <- & Hst & Hlo & Hhi).
      exists c'. split; [reflexivity|]. apply filter_In. split; [assumption|].
      rewrite Hst. cbn [CampaignStatus_eqb].
      rewrite andb_true_r. apply andb_true_intro. split; lia. }
  unfold jobs, handleVerifyCampaigns, bind, query.
  fold due.
  destruct (verifyEach_run clock due 0 w) as (js & Hrun & Hlen & Hnth).
  rewrite Hrun. unfold outcome, world_after, enqueued. cbn [fst snd].
  cbn [campaignQueue with_campaignQueue]. rewrite jobs_since_app.
  split; [reflexivity|]. split; [exact Hlen|]. split.
  - intros k id scheduledAt Hk.
    split; [exact (Hnth k id scheduledAt Hk)|].
    split; [lia|].
    apply nth_error_In in Hk. apply Hdue in Hk.
    destruct Hk as (c' & _ & _ & <- & _ & Hb). exact Hb.
  - intros c. apply Hdue.
Qed.

(** The verifier on the state with one due campaign. *)
Lemma verifier_enqueues_signed_delay_witness :
  nth_error
    (enqueued dueWorld
       (world_after (handleVerifyCampaigns 590000 (fun _ => 590001) dueWorld)))
    0
  = Some {| job_id := 1; job_name := "ProcessCampaign";
            job_data := ProcessCampaignData 1 (600000 - 590001);
            job_opts := {| opt_delay := None;
                           opt_removeOnComplete := true |} |}.
Proof.
  apply (proj1 (proj2 (proj2 (verifier_enqueues_signed_delay dueWorld 590000
                                (fun _ => 590001))))
           0%nat 1 600000).
  reflexivity.
Defined.

(** C5, as stated, fails: a campaign scheduled at [t = 600000] is selected
    by the query run at that very instant, the loop reads the clock 20 ms
    later, and the job carries the delay -20. *)
Lemma verifier_delay_can_be_negative :
  let clock := fun _ : nat => 600020 in
  let jobs :=
    enqueued dueWorld
      (world_after (handleVerifyCampaigns 600000 clock dueWorld)) in
  dueCampaigns 600000 dueWorld = [(1, 600000)]
  /\ map job_data jobs = [ProcessCampaignData 1 (-20)]
  /\ ~ (forall j, In j jobs -> 0 <= delayOf j).
Proof.
  split; [reflexivity|]. split; [reflexivity|].
  intros H.
  assert (X : 0 <= delayOf
                     {| job_id := 1; job_name := "ProcessCampaign";
                        job_data := ProcessCampaignData 1 (-20);
                        job_opts := {| opt_delay := None;
                                       opt_removeOnComplete := true |} |})
    by (apply H; left; reflexivity).
  cbn in X. lia.
Qed.

(** ** The completion evaluator *)

(** What the evaluator does, for a campaign with a recipient list. *)
Lemma verifyAndFinalizeCampaign_run (w : World) (e : Env) (c : Campaign.t)
    (l : list ContactListItem.t) :
  Campaign.contacts c = Some l ->
  verifyAndFinalizeCampaign e c w
  = if Z.of_nat (List.length l) =? countDelivered (Campaign.id c) w
    then
      (Ok (Campaign.set_completed FINALIZADA (now e) c),
       with_ioEvents
         (ioEvents w
          ++ [{| io_companyId := Campaign.companyId c;
                 io_action := "update";
                 io_record := Campaign.set_completed FINALIZADA (now e) c |}])
         (with_campaigns
            (map (fun row =>
                    if Campaign.id row =? Campaign.id c
                    then Campaign.set_completed FINALIZADA (now e) row
                    else row)
                 (campaigns w)) w))
    else
      (Ok c,
       with_ioEvents
         (ioEvents w
          ++ [{| io_companyId := Campaign.companyId c;
                 io_action := "update";
                 io_record := c |}]) w).
Proof.
  intros Hl. unfold verifyAndFinalizeCampaign. rewrite Hl.
  unfold bind, query.
  destruct (Z.of_nat (List.length l) =? countDelivered (Campaign.id c) w);
    reflexivity.
Qed.

(** C9, as amended. For a campaign whose recipient list is loaded, the
    Completion Evaluator returns; it sets the status to [FINALIZADA] with
    the completion timestamp, on the instance and on the stored row, when
    the number of the shipping records of the campaign with a non-null
    [deliveredAt] equals the number of recipients, and writes nothing to the
    campaigns otherwise; in both cases it emits exactly one state-change
    notification carrying the instance, and leaves the shipping records as
    they are. *)
Theorem evaluator_finalizes_exactly_when_all_delivered (w : World) (e : Env)
    (c : Campaign.t) (l : list ContactListItem.t) :
  Campaign.contacts c = Some l ->
  let r := verifyAndFinalizeCampaign e c w in
  let delivered :=
    Z.of_nat
      (List.length
         (filter (fun s =>
                    (CampaignShipping.campaignId s =? Campaign.id c)
                    && match CampaignShipping.deliveredAt s with
                       | Some _ => true
                       | None => false
                       end)
                 (shippings w))) in
  outcome r = Completed
  /\ (delivered = Z.of_nat (List.length l) ->
      fst r = Ok (Campaign.set_completed FINALIZADA (now e) c)
      /\ campaigns (world_after r)
         = map (fun row =>
                  if Campaign.id row =? Campaign.id c
                  then Campaign.set_completed FINALIZADA (now e) row
                  else row)
               (campaigns w))
  /\ (delivered <> Z.of_nat (List.length l) ->
      fst r = Ok c /\ campaigns (world_after r) = campaigns w)
  /\ (exists record,
        fst r = Ok record
        /\ ioEvents (world_after r)
           = (ioEvents w ++ [{| io_companyId := Campaign.companyId c;
                                io_action := "update";
                                io_record := record |}])%list)
  /\ shippings (world_after r) = shippings w.
Proof.
  intros Hl r delivered. unfold r.
  change delivered with (countDelivered (Campaign.id c) w).
  rewrite (verifyAndFinalizeCampaign_run w e c l Hl).
  destruct (Z.eqb_spec (Z.of_nat (List.length l))
                       (countDelivered (Campaign.id c) w)) as [E|E];
    unfold outcome, world_after; cbn [fst snd].
  - split; [reflexivity|]. split; [intros _; split; reflexivity|].
    split; [intros N; congruence|].
    split; [|reflexivity]. eexists. split; reflexivity.
  - split; [reflexivity|]. split; [intros N; congruence|].
    split; [intros _; split; reflexivity|].
    split; [|reflexivity]. eexists. split; reflexivity.
Qed.

(** The theorem at two states. In the state reached by [doubleTick] the one
    shipping record of the campaign is delivered and the evaluator finalizes
    the campaign; in [oneOfTwoDelivered] one record of two is delivered, and
    the evaluator leaves the campaign as it is and emits the notification. *)
Lemma evaluator_finalizes_exactly_when_all_delivered_witness :
  (fst (verifyAndFinalizeCampaign (allGood 624000 1)
          (Campaign.set_completed FINALIZADA_COM_ERROS 623000
             (demoCampaign 1 PROGRAMADA false (recipients 1)))
          (run soloWorld doubleTick))
   = Ok (Campaign.set_completed FINALIZADA 624000
           (Campaign.set_completed FINALIZADA_COM_ERROS 623000
              (demoCampaign 1 PROGRAMADA false (recipients 1))))
   /\ campaigns
        (world_after
           (verifyAndFinalizeCampaign (allGood 624000 1)
              (Campaign.set_completed FINALIZADA_COM_ERROS 623000
                 (demoCampaign 1 PROGRAMADA false (recipients 1)))
              (run soloWorld doubleTick)))
      = map (fun row =>
               if Campaign.id row =? 1
               then Campaign.set_completed FINALIZADA 624000 row
               else row)
            (campaigns (run soloWorld doubleTick)))
  /\ (fst (verifyAndFinalizeCampaign (allGood 618000 2)
             (Campaign.set_completed FINALIZADA_COM_ERROS 602000
                (demoCampaign 1 PROGRAMADA false (recipients 2)))
             oneOfTwoDelivered)
      = Ok (Campaign.set_completed FINALIZADA_COM_ERROS 602000
              (demoCampaign 1 PROGRAMADA false (recipients 2)))
      /\ campaigns
           (world_after
              (verifyAndFinalizeCampaign (allGood 618000 2)
                 (Campaign.set_completed FINALIZADA_COM_ERROS 602000
                    (demoCampaign 1 PROGRAMADA false (recipients 2)))
                 oneOfTwoDelivered))
         = campaigns oneOfTwoDelivered).
Proof.
  split.
  - apply (evaluator_finalizes_exactly_when_all_delivered
             (run soloWorld doubleTick) (allGood 624000 1)
             (Campaign.set_completed FINALIZADA_COM_ERROS 623000
                (demoCampaign 1 PROGRAMADA false (recipients 1)))
             (recipients 1) eq_refl).
    vm_compute. reflexivity.
  - apply (evaluator_finalizes_exactly_when_all_delivered
             oneOfTwoDelivered (allGood 618000 2)
             (Campaign.set_completed FINALIZADA_COM_ERROS 602000
                (demoCampaign 1 PROGRAMADA false (recipients 2)))
             (recipients 2) eq_refl).
    vm_compute. discriminate.
Defined.

(** C9, as stated, fails: the only item of the list of the campaign of
    [noRecipientWorld] is not valid on WhatsApp, so the instance that
    [getCampaign] returns has no list; on it the evaluator throws before the
    comparison and emits nothing, and so does the preparer that calls it. *)
Lemma evaluator_throws_without_a_loaded_list :
  option_map Campaign.contacts (getCampaign noRecipientWorld 1) = Some None
  /\ option_map
       (fun c => verifyAndFinalizeCampaign (allGood 600000 1) c
                                           noRecipientWorld)
       (getCampaign noRecipientWorld 1)
     = Some (Thrown "TypeError: campaign.contactList", noRecipientWorld)
  /\ ioEvents noRecipientWorld = []
  /\ outcome (handlePrepareContact (allGood 600000 1) 1 1 0 noRecipientWorld)
     = Threw "Contato invalido"
  /\ ioEvents
       (world_after
          (handlePrepareContact (allGood 600000 1) 1 1 0 noRecipientWorld))
     = [].
Proof.
  vm_compute. repeat split; reflexivity.
Qed.

Lemma initial_soloWorld : initial soloWorld.
Proof.
  repeat split.
  intros c [<-|[]]. reflexivity.
Qed.

(** C10. The Completion Evaluator does not look at the status the campaign
    has: whenever the delivered count equals the number of recipients, the
    stored row of the campaign becomes [FINALIZADA], whatever it was. And
    there is a reachable state (the verifier fired twice before the campaign
    was processed, the first of the two dispatches delivered, the second
    failed) in which the campaign is [FINALIZADA_COM_ERROS] and the
    evaluator turns it into [FINALIZADA]. *)
Theorem evaluator_overwrites_terminal_status :
  (forall (w : World) (e : Env) (c row : Campaign.t)
          (l : list ContactListItem.t),
     Campaign.contacts c = Some l ->
     countDelivered (Campaign.id c) w = Z.of_nat (List.length l) ->
     In row (campaigns w) ->
     Campaign.id row = Campaign.id c ->
     In (Campaign.set_completed FINALIZADA (now e) row)
        (campaigns (world_after (verifyAndFinalizeCampaign e c w))))
  /\ exists (w : World) (e : Env) (c : Campaign.t),
       reachable w
       /\ getCampaign w (Campaign.id c) = Some c
       /\ Campaign.status c = FINALIZADA_COM_ERROS
       /\ option_map Campaign.status
            (getCampaign (world_after (verifyAndFinalizeCampaign e c w))
                         (Campaign.id c))
          = Some FINALIZADA.
Proof.
  split.
  - intros w e c row l Hl Hcount Hin Hid.
    rewrite (verifyAndFinalizeCampaign_run w e c l Hl), Hcount, Z.eqb_refl.
    unfold world_after. cbn [snd campaigns with_ioEvents with_campaigns].
    apply in_map_iff. exists row. split; [|assumption].
    rewrite Hid, Z.eqb_refl. reflexivity.
  - exists (run soloWorld doubleTick), (allGood 624000 1),
      (Campaign.set_completed FINALIZADA_COM_ERROS 623000
         (demoCampaign 1 PROGRAMADA false (recipients 1))).
    split; [|split; [|split]].
    + exists soloWorld, doubleTick. split; [exact initial_soloWorld|reflexivity].
    + vm_compute. reflexivity.
    + reflexivity.
    + vm_compute. reflexivity.
Qed.

(** The general part of the theorem at the state reached in [doubleTick]. *)
Lemma evaluator_overwrites_terminal_status_witness :
  In (Campaign.set_completed FINALIZADA 624000
        (Campaign.set_completed FINALIZADA_COM_ERROS 623000
           (demoCampaign 1 PROGRAMADA false (recipients 1))))
     (campaigns
        (world_after
           (verifyAndFinalizeCampaign (allGood 624000 1)
              (Campaign.set_completed FINALIZADA_COM_ERROS 623000
                 (demoCampaign 1 PROGRAMADA false (recipients 1)))
              (run soloWorld doubleTick)))).
Proof.
  apply (proj1 evaluator_overwrites_terminal_status
           (run soloWorld doubleTick) (allGood 624000 1)
           (Campaign.set_completed FINALIZADA_COM_ERROS 623000
              (demoCampaign 1 PROGRAMADA false (recipients 1)))
           (Campaign.set_completed FINALIZADA_COM_ERROS 623000
              (demoCampaign 1 PROGRAMADA false (recipients 1)))
           (recipients 1)).
  - reflexivity.
  - vm_compute. reflexivity.
  - vm_compute. left. reflexivity.
  - reflexivity.
Defined.

(** ** Relating the states before and after a handler run

    For a reflexive and transitive relation on states, [preserves] is
    established along the structure of the computation. *)

Section Preserves.

Context (R : World -> World -> Prop) {R_preorder : PreOrder R}.

Lemma preserves_ret {A} (a : A) : preserves R (ret a).
Proof. intros w. reflexivity. Qed.

Lemma preserves_throw {A} (msg : string) : preserves R (@throw A msg).
Proof. intros w. reflexivity. Qed.

Lemma preserves_query {A} (f : World -> A) : preserves R (query f).
Proof. intros w. reflexivity. Qed.

Lemma preserves_await {A} (what : string) (answer : option A) :
  preserves R (await what answer).
Proof. destruct answer; [apply preserves_ret | apply preserves_throw]. Qed.

Lemma preserves_await_ok (what : string) (returns : bool) :
  preserves R (await_ok what returns).
Proof. destruct returns; [apply preserves_ret | apply preserves_throw]. Qed.

Lemma preserves_bind {A B} (m : M A) (k : A -> M B) :
  preserves R m -> (forall a, preserves R (k a)) -> preserves R (bind m k).
Proof.
  intros Hm Hk w. unfold bind. specialize (Hm w).
  destruct (m w) as [[a|msg] w1]; cbn [snd] in *.
  - transitivity w1; [exact Hm | apply Hk].
  - exact Hm.
Qed.

Lemma preserves_try_catch {A} (body : M A) (handler : string -> M A) :
  preserves R body -> (forall msg, preserves R (handler msg)) ->
  preserves R (try_catch body handler).
Proof.
  intros Hb Hh w. unfold try_catch. specialize (Hb w).
  destruct (body w) as [[a|msg] w1]; cbn [snd] in *.
  - exact Hb.
  - transitivity w1; [exact Hb | apply Hh].
Qed.

(** A state change that [R] accepts wherever it is made. *)
Lemma preserves_modify (f : World -> World) :
  (forall w, R w (f w)) -> preserves R (modify f).
Proof. intros H w. apply H. Qed.

End Preserves.

(** One step of the syntax-directed proof of a [preserves] goal. *)
Ltac preserves_step :=
  lazymatch goal with
  | |- preserves ?R (bind _ _) => apply (@preserves_bind R _); [|intro]
  | |- preserves ?R (try_catch _ _) =>
      apply (@preserves_try_catch R _); [|intro]
  | |- preserves ?R (ret _) => apply (@preserves_ret R _)
  | |- preserves ?R (throw _) => apply (@preserves_throw R _)
  | |- preserves ?R (query _) => apply (@preserves_query R _)
  | |- preserves ?R (await _ _) => apply (@preserves_await R _)
  | |- preserves ?R (await_ok _ _) => apply (@preserves_await_ok R _)
  | |- preserves _ (match ?x with _ => _ end) => destruct x
  end.

(** *** No delivery is recorded outside the dispatcher *)

#[local] Instance noNewDelivery_preorder : PreOrder noNewDelivery.
Proof.
  split.
  - intros w s' Hin _. exists s'. repeat split; assumption.
  - intros w1 w2 w3 H12 H23 s3 Hin Hd.
    destruct (H23 s3 Hin Hd) as (s2 & Hin2 & Hid2 & Hd2).
    destruct (H12 s2 Hin2) as (s1 & Hin1 & Hid1 & Hd1); [congruence|].
    exists s1. repeat split; congruence.
Qed.

Lemma noNewDelivery_same_shippings (w w' : World) :
  shippings w' = shippings w -> noNewDelivery w w'.
Proof.
  intros E s' Hin _. rewrite E in Hin. exists s'. repeat split; assumption.
Qed.

Lemma campaign_update_noNewDelivery f c :
  preserves noNewDelivery (campaign_update f c).
Proof. intros w. apply noNewDelivery_same_shippings. reflexivity. Qed.

Lemma campaignQueue_add_noNewDelivery name data opts :
  preserves noNewDelivery (campaignQueue_add name data opts).
Proof. intros w. apply noNewDelivery_same_shippings. reflexivity. Qed.

Lemma io_emit_noNewDelivery companyId action record :
  preserves noNewDelivery (io_emit companyId action record).
Proof. intros w. apply noNewDelivery_same_shippings. reflexivity. Qed.

(** An update of a shipping record that leaves [deliveredAt] alone. *)
Lemma shipping_update_noNewDelivery f record :
  (forall s, CampaignShipping.id (f s) = CampaignShipping.id s
             /\ CampaignShipping.deliveredAt (f s)
                = CampaignShipping.deliveredAt s) ->
  preserves noNewDelivery (shipping_update f record).
Proof.
  intros Hf w s' Hin _.
  cbn [shipping_update snd shippings with_shippings] in Hin.
  apply in_map_iff in Hin. destruct Hin as (s & E & Hin).
  exists s. split; [assumption|].
  destruct (CampaignShipping.id s =? CampaignShipping.id record).
  - subst s'. destruct (Hf s) as [-> ->]. split; reflexivity.
  - subst s'. split; reflexivity.
Qed.

Lemma findOrCreate_noNewDelivery v :
  preserves noNewDelivery (findOrCreate v).
Proof.
  intros w. unfold findOrCreate.
  destruct (existingRecord _ _ w); cbn [snd].
  - reflexivity.
  - intros s' Hin Hd. cbn [shippings with_shippings] in Hin.
    apply in_app_iff in Hin. destruct Hin as [Hin|[<-|[]]].
    + exists s'. repeat split; assumption.
    + exfalso. apply Hd. reflexivity.
Qed.

Lemma verifyAndFinalizeCampaign_noNewDelivery e c :
  preserves noNewDelivery (verifyAndFinalizeCampaign e c).
Proof.
  unfold verifyAndFinalizeCampaign.
  repeat first [ apply campaign_update_noNewDelivery
               | apply io_emit_noNewDelivery
               | preserves_step ].
Qed.

Lemma fanOut_noNewDelivery e settings c contacts :
  forall delay index draws,
    preserves noNewDelivery (fanOut e settings c contacts delay index draws).
Proof.
  induction contacts as [|contact rest IH]; intros; cbn [fanOut].
  - preserves_step.
  - preserves_step; [apply campaignQueue_add_noNewDelivery|].
    destruct (Js.rem_is_zero _ _); [|destruct (Js.truthy_num _)]; apply IH.
Qed.

Lemma loadCampaign_noNewDelivery id : preserves noNewDelivery (loadCampaign id).
Proof. unfold loadCampaign. repeat preserves_step. Qed.

Lemma handleProcessCampaign_noNewDelivery e id delay :
  preserves noNewDelivery (handleProcessCampaign e id delay).
Proof.
  unfold handleProcessCampaign.
  repeat first [ apply campaign_update_noNewDelivery
               | apply fanOut_noNewDelivery
               | apply loadCampaign_noNewDelivery
               | preserves_step ].
Qed.

Lemma verifyEach_noNewDelivery clock due :
  forall k, preserves noNewDelivery (verifyEach clock k due).
Proof.
  induction due as [|[id scheduledAt] rest IH]; intros; cbn [verifyEach].
  - preserves_step.
  - preserves_step; [apply campaignQueue_add_noNewDelivery|].
    apply IH.
Qed.

Lemma handleVerifyCampaigns_noNewDelivery dbNow clock :
  preserves noNewDelivery (handleVerifyCampaigns dbNow clock).
Proof.
  unfold handleVerifyCampaigns.
  preserves_step; [preserves_step|].
  apply verifyEach_noNewDelivery.
Qed.

Lemma pickMessage_noNewDelivery u messages contact :
  preserves noNewDelivery (pickMessage u messages contact).
Proof. unfold pickMessage. repeat preserves_step. Qed.

Lemma renderShipping_noNewDelivery e c campaignId item contact :
  preserves noNewDelivery (renderShipping e c campaignId item contact).
Proof.
  unfold renderShipping.
  repeat first [ apply pickMessage_noNewDelivery | preserves_step ].
Qed.

Lemma bookDispatch_noNewDelivery c contact v delay :
  preserves noNewDelivery (bookDispatch c contact v delay).
Proof.
  unfold bookDispatch.
  preserves_step; [apply findOrCreate_noNewDelivery|].
  match goal with
  | found : (CampaignShipping.t * bool)%type |- _ =>
      destruct found as [record created]
  end.
  preserves_step.
  - destruct (negb created && undeliveredUnconfirmed record).
    + apply shipping_update_noNewDelivery. intros s. split; reflexivity.
    + preserves_step.
  - repeat first [ apply campaignQueue_add_noNewDelivery
                 | apply shipping_update_noNewDelivery;
                   intros s; split; reflexivity
                 | preserves_step ].
Qed.

Lemma handlePrepareContact_noNewDelivery e itemId campaignId delay :
  preserves noNewDelivery (handlePrepareContact e itemId campaignId delay).
Proof.
  unfold handlePrepareContact.
  repeat first [ apply campaign_update_noNewDelivery
               | apply loadCampaign_noNewDelivery
               | apply renderShipping_noNewDelivery
               | apply bookDispatch_noNewDelivery
               | apply verifyAndFinalizeCampaign_noNewDelivery
               | preserves_step ].
Qed.

(** ** Runs that return

    A computation that returns went through each of its steps: the
    inversion of [bind] and of the primitives. *)

Lemma bind_Ok {A B} (m : M A) (k : A -> M B) (w w' : World) (b : B) :
  bind m k w = (Ok b, w') ->
  exists a w1, m w = (Ok a, w1) /\ k a w1 = (Ok b, w').
Proof.
  unfold bind. destruct (m w) as [[a|msg] w1]; [|discriminate].
  intros H. exists a, w1. split; [reflexivity | exact H].
Qed.

Lemma await_Ok {A} (what : string) (answer : option A) (w w' : World) (a : A) :
  await what answer w = (Ok a, w') -> answer = Some a /\ w' = w.
Proof.
  destruct answer; cbn; intros H; inversion H; split; reflexivity.
Qed.

Lemma await_ok_Ok (what : string) (returns : bool) (w w' : World) (u : unit) :
  await_ok what returns w = (Ok u, w') -> returns = true /\ w' = w.
Proof.
  destruct returns; cbn; intros H; inversion H; split; reflexivity.
Qed.

Lemma wbot_sendMessage_Ok (returns : bool) (chatId : string)
    (content : WbotContent) (w w' : World) (u : unit) :
  wbot_sendMessage returns chatId content w = (Ok u, w') ->
  returns = true
  /\ w' = with_wbotSent
            (wbotSent w ++ [{| wm_chatId := chatId;
                               wm_content := content |}]) w.
Proof.
  destruct returns; cbn; intros H; inversion H; split; reflexivity.
Qed.

(** A [try] whose [catch] always throws returns only if its body does. *)
Lemma try_catch_Ok {A} (body : M A) (handler : string -> M A)
    (w w' : World) (a : A) :
  (forall msg w1, exists msg', fst (handler msg w1) = Thrown msg') ->
  try_catch body handler w = (Ok a, w') -> body w = (Ok a, w').
Proof.
  intros Hh. unfold try_catch.
  destruct (body w) as [[a1|msg] w1]; [intros H; exact H|].
  intros H. destruct (Hh msg w1) as [msg' E]. rewrite H in E. discriminate.
Qed.

(** ** The dispatcher *)

(** The ticket calls leave the stored state alone. *)
Lemma openTicket_world (e : Env) (w : World) : snd (openTicket e w) = w.
Proof.
  unfold openTicket, bind, await, await_ok.
  destruct (findOrCreateTicket e) as [[[] [t|]]|]; cbn; try reflexivity;
    destruct (updateTicket e); reflexivity.
Qed.

(** The [catch] block of the send always throws. *)
Lemma abortDispatch_throws (e : Env) (c : Campaign.t) (w : World) :
  exists msg, fst (abortDispatch e c w) = Thrown msg.
Proof.
  unfold abortDispatch, closeTicket, bind, await, await_ok, throw.
  cbn [campaign_update].
  destruct (findOrCreateTicket e) as [[created [t|]]|]; cbn;
    try (eexists; reflexivity).
  destruct (updateTicket e); cbn; eexists; reflexivity.
Qed.

(** What a send that returns has done: the record of the job has
    [confirmationRequestedAt] or [deliveredAt] set, according to [isConfirm],
    and the text went out after the media. *)
Lemma sendCampaignMessage_returns (e : Env) (c : Campaign.t) (sid : Z)
    (s : CampaignShipping.t) (w w' : World) :
  findShipping w sid = Some s ->
  sendCampaignMessage e c sid w = (Ok tt, w') ->
  shippings w'
  = map (fun row =>
           if CampaignShipping.id row =? CampaignShipping.id s
           then (if isConfirm c s
                 then CampaignShipping.set_confirmationRequestedAt
                        (Some (now e)) row
                 else CampaignShipping.set_deliveredAt (Some (now e)) row)
           else row)
        (shippings w)
  /\ wbotSent w'
     = (wbotSent w ++ mediaSent e c s
        ++ [{| wm_chatId :=
                 (CampaignShipping.number s ++ "@s.whatsapp.net")%string;
               wm_content :=
                 Text (if isConfirm c s
                       then CampaignShipping.confirmationMessage s
                       else CampaignShipping.message s) |}])%list.
Proof.
  intros Hs H. unfold sendCampaignMessage in H.
  apply bind_Ok in H. destruct H as (found & w0 & H0 & H).
  unfold query in H0. injection H0 as <- <-. rewrite Hs in H.
  apply bind_Ok in H. destruct H as (u & w0 & H0 & H).
  apply await_ok_Ok in H0. destruct H0 as [_ ->].
  apply bind_Ok in H. destruct H as (s' & w0 & H0 & H).
  apply await_Ok in H0. destruct H0 as [E ->]. injection E as <-.
  apply bind_Ok in H. destruct H as (u1 & w1 & Hmedia & H).
  apply bind_Ok in H. destruct H as (u2 & w2 & Htext & H).
  apply wbot_sendMessage_Ok in Htext. destruct Htext as [_ ->].
  apply bind_Ok in H. destruct H as (s' & w3 & Hupd & H).
  cbn [shipping_update] in Hupd. injection Hupd as <- <-.
  apply bind_Ok in H. destruct H as (c' & w4 & Heval & H).
  apply bind_Ok in H. destruct H as (u3 & w5 & Hemit & H).
  cbn [io_emit modify] in Hemit. injection Hemit as <- <-.
  apply await_ok_Ok in H. destruct H as [_ ->].
  assert (Hw4 : shippings w4
                = shippings (with_shippings
                    (map (fun row =>
                       if CampaignShipping.id row =? CampaignShipping.id s
                       then (if isConfirm c s
                             then CampaignShipping.set_confirmationRequestedAt
                                    (Some (now e))
                             else CampaignShipping.set_deliveredAt
                                    (Some (now e))) row
                       else row)
                       (shippings w1)) (nextShippingId w1) w1)
                /\ wbotSent w4
                   = (wbotSent w1
                      ++ [{| wm_chatId :=
                               (CampaignShipping.number s
                                ++ "@s.whatsapp.net")%string;
                             wm_content :=
                               Text (if isConfirm c s
                                     then CampaignShipping.confirmationMessage s
                                     else CampaignShipping.message s) |}])%list).
  { destruct (Campaign.contacts c) as [l|] eqn:Hl.
    - rewrite (verifyAndFinalizeCampaign_run _ e c l Hl) in Heval.
      destruct (_ =? _) in Heval; injection Heval as <- <-;
        split; reflexivity.
    - unfold verifyAndFinalizeCampaign in Heval. rewrite Hl in Heval.
      discriminate. }
  destruct Hw4 as [Hsh Hsent].
  cbn [shippings wbotSent with_ioEvents]. rewrite Hsh, Hsent.
  cbn [shippings with_shippings].
  assert (Hw1 : shippings w1 = shippings w
                /\ wbotSent w1 = (wbotSent w ++ mediaSent e c s)%list).
  { unfold mediaSent.
    destruct (negb (isConfirm c s) && Js.present (Campaign.mediaPath c)).
    - apply bind_Ok in Hmedia. destruct Hmedia as (b & w0 & H0 & Hmedia).
      apply await_Ok in H0. destruct H0 as [-> ->].
      destruct b.
      + apply wbot_sendMessage_Ok in Hmedia. destruct Hmedia as [_ ->].
        split; reflexivity.
      + injection Hmedia as <- <-. rewrite app_nil_r. split; reflexivity.
    - injection Hmedia as <- <-. rewrite app_nil_r. split; reflexivity. }
  destruct Hw1 as [-> ->].
  split.
  - apply map_ext. intros row.
    destruct (_ =? _); [destruct (isConfirm c s)|]; reflexivity.
  - rewrite <- app_assoc. reflexivity.
Qed.

(** A run of the dispatcher that returns is a send that returned. *)
Lemma handleDispatchCampaign_returns (e : Env) (contactId cid sid : Z)
    (c : Campaign.t) (w : World) :
  getCampaign w cid = Some c ->
  outcome (handleDispatchCampaign e contactId cid sid w) = Completed ->
  sendCampaignMessage e c sid w
  = (Ok tt, world_after (handleDispatchCampaign e contactId cid sid w)).
Proof.
  intros Hc. unfold outcome, world_after.
  destruct (handleDispatchCampaign e contactId cid sid w) as [[[]|msg] w']
    eqn:H; [intros _|discriminate].
  cbn [snd]. unfold handleDispatchCampaign in H.
  apply bind_Ok in H. destruct H as (c' & w0 & H0 & H).
  unfold loadCampaign, bind, query in H0. rewrite Hc in H0.
  injection H0 as <- <-.
  apply bind_Ok in H. destruct H as (u & w0 & H0 & H).
  apply try_catch_Ok in H0.
  2:{ intros msg w1. eexists. reflexivity. }
  pose proof (openTicket_world e w) as Hw. rewrite H0 in Hw. cbn in Hw.
  subst w0.
  apply try_catch_Ok in H; [exact H|].
  intros msg w1. apply abortDispatch_throws.
Qed.

(** C7, as amended. For a campaign that asks for confirmation, a dispatch
    that returns, for a shipping record whose [confirmation] column is null,
    sends the confirmation message and sets [confirmationRequestedAt],
    leaving [deliveredAt] as it is; for a record whose [confirmation] column
    is not null (the recipient has answered), it sends the main message,
    after the media if any, and sets [deliveredAt], leaving
    [confirmationRequestedAt] as it is. No dispatch changes both fields of a
    record. *)
Theorem dispatch_confirmation_then_delivery (w : World) (e : Env)
    (contactId cid sid : Z) (c : Campaign.t) (s : CampaignShipping.t) :
  getCampaign w cid = Some c ->
  Campaign.confirmation c = true ->
  findShipping w sid = Some s ->
  outcome (handleDispatchCampaign e contactId cid sid w) = Completed ->
  let w' := world_after (handleDispatchCampaign e contactId cid sid w) in
  let chatId := (CampaignShipping.number s ++ "@s.whatsapp.net")%string in
  (CampaignShipping.confirmation s = None ->
   wbotSent w'
   = (wbotSent w
      ++ [{| wm_chatId := chatId;
             wm_content := Text (CampaignShipping.confirmationMessage s) |}])%list
   /\ shippings w'
      = map (fun row =>
               if CampaignShipping.id row =? CampaignShipping.id s
               then CampaignShipping.set_confirmationRequestedAt
                      (Some (now e)) row
               else row)
            (shippings w))
  /\ (CampaignShipping.confirmation s <> None ->
      wbotSent w'
      = (wbotSent w ++ mediaSent e c s
         ++ [{| wm_chatId := chatId;
                wm_content := Text (CampaignShipping.message s) |}])%list
      /\ shippings w'
         = map (fun row =>
                  if CampaignShipping.id row =? CampaignShipping.id s
                  then CampaignShipping.set_deliveredAt (Some (now e)) row
                  else row)
               (shippings w))
  /\ (forall row', In row' (shippings w') ->
        exists row, In row (shippings w)
                    /\ CampaignShipping.id row = CampaignShipping.id row'
                    /\ (CampaignShipping.deliveredAt row'
                        = CampaignShipping.deliveredAt row
                        \/ CampaignShipping.confirmationRequestedAt row'
                           = CampaignShipping.confirmationRequestedAt row)).
Proof.
  intros Hc Hconf Hs Hout w' chatId.
  pose proof (handleDispatchCampaign_returns e contactId cid sid c w Hc Hout)
    as Hrun.
  fold w' in Hrun.
  destruct (sendCampaignMessage_returns e c sid s w w' Hs Hrun)
    as [Hsh Hsent].
  unfold mediaSent, isConfirm in Hsh, Hsent. rewrite Hconf in Hsh, Hsent.
  split; [|split].
  - intros Hnull. rewrite Hnull in Hsh, Hsent. cbn in Hsh, Hsent.
    split; assumption.
  - intros Hset.
    destruct (CampaignShipping.confirmation s) as [b|] eqn:E; [|congruence].
    cbn [andb isSome negb] in Hsh, Hsent.
    split; [|exact Hsh].
    rewrite Hsent. unfold mediaSent, isConfirm. rewrite Hconf, E.
    reflexivity.
  - intros row' Hin. rewrite Hsh in Hin. apply in_map_iff in Hin.
    destruct Hin as (row & <- & Hin). exists row. split; [exact Hin|].
    destruct (_ =? _); [|split; [reflexivity|left; reflexivity]].
    destruct (negb (isSome (CampaignShipping.confirmation s)));
      cbn [andb]; split; try reflexivity; [left|right]; reflexivity.
Qed.

(** The first dispatch of the prepared confirmation campaign. *)
Lemma dispatch_confirmation_then_delivery_witness :
  wbotSent
    (world_after (handleDispatchCampaign (allGood 600000 1) 101 1 1
                    confirmWorld))
  = (wbotSent confirmWorld
     ++ [{| wm_chatId := "5511900000000@s.whatsapp.net";
            wm_content :=
              Text (Some (zwnj ++ "Ana, posso enviar?")%string) |}])%list
  /\ shippings
       (world_after (handleDispatchCampaign (allGood 600000 1) 101 1 1
                       confirmWorld))
     = map (fun row =>
              if CampaignShipping.id row =? 1
              then CampaignShipping.set_confirmationRequestedAt
                     (Some 600000) row
              else row)
           (shippings confirmWorld).
Proof.
  refine (proj1
            (dispatch_confirmation_then_delivery confirmWorld
               (allGood 600000 1) 101 1 1
               (demoCampaign 1 EM_ANDAMENTO true (recipients 1))
               (CampaignShipping.mk 1 1 1 "5511900000000"
                  (Some (zwnj ++ "Oi Ana")%string)
                  (Some (zwnj ++ "Ana, posso enviar?")%string)
                  None None None (Some 3))
               _ _ _ _) _).
  - vm_compute. reflexivity.
  - reflexivity.
  - vm_compute. reflexivity.
  - vm_compute. reflexivity.
  - reflexivity.
Defined.

(** C7, as stated, fails: after the first dispatch has requested the
    confirmation, a second dispatch for the same recipient, with the
    [confirmation] column still null, sends the confirmation message again
    and leaves [deliveredAt] null. *)
Lemma second_dispatch_asks_again :
  let first := handleDispatchCampaign (allGood 600000 1) 101 1 1 confirmWorld in
  let second :=
    handleDispatchCampaign (allGood 700000 1) 101 1 1 (world_after first) in
  option_map Campaign.confirmation (getCampaign confirmWorld 1) = Some true
  /\ option_map CampaignShipping.confirmationRequestedAt
       (findShipping confirmWorld 1) = Some None
  /\ outcome first = Completed
  /\ option_map CampaignShipping.confirmationRequestedAt
       (findShipping (world_after first) 1) = Some (Some 600000)
  /\ outcome second = Completed
  /\ option_map CampaignShipping.deliveredAt
       (findShipping (world_after second) 1) = Some None
  /\ map wm_content (wbotSent (world_after second))
     = [Text (Some (zwnj ++ "Ana, posso enviar?")%string);
        Text (Some (zwnj ++ "Ana, posso enviar?")%string)].
Proof.
  vm_compute. repeat split; reflexivity.
Qed.

(** ** Delivery and the campaign status *)

(** A step that is not a run of the dispatcher records no delivery. *)
Lemma schedule_update_noNewDelivery f schedule :
  preserves noNewDelivery (schedule_update f schedule).
Proof. intros w. apply noNewDelivery_same_shippings. reflexivity. Qed.

Lemma scheduleEach_noNewDelivery rows :
  preserves noNewDelivery (scheduleEach rows).
Proof.
  induction rows as [|schedule rest IH]; cbn [scheduleEach].
  - preserves_step.
  - preserves_step; [apply schedule_update_noNewDelivery|].
    preserves_step; [|exact IH].
    intros w. apply noNewDelivery_same_shippings. reflexivity.
Qed.

Lemma handleVerifySchedules_noNewDelivery now1 now2 :
  preserves noNewDelivery (handleVerifySchedules now1 now2).
Proof.
  unfold handleVerifySchedules.
  repeat first [ apply scheduleEach_noNewDelivery | preserves_step ].
Qed.

Lemma update_if_fetched_noNewDelivery f scheduleRecord :
  preserves noNewDelivery (update_if_fetched f scheduleRecord).
Proof.
  unfold update_if_fetched.
  repeat first [ apply schedule_update_noNewDelivery | preserves_step ].
Qed.

Lemma handleSendScheduledMessage_noNewDelivery e schedule :
  preserves noNewDelivery (handleSendScheduledMessage e schedule).
Proof.
  unfold handleSendScheduledMessage, SendMessage.
  repeat first [ apply update_if_fetched_noNewDelivery
               | apply preserves_modify;
                 intros w; apply noNewDelivery_same_shippings; reflexivity
               | preserves_step ].
Qed.

Lemma step_noNewDelivery (w : World) (ev : Event) :
  is_dispatch_run w ev = false -> noNewDelivery w (step w ev).
Proof.
  destruct ev as [dbNow clock|n e|now1 now2|n e]; cbn [step is_dispatch_run].
  4:{ intros _.
      destruct (nth_error (q_jobs (sendScheduledMessages w)) n) as [j|];
        [|reflexivity].
      transitivity (with_sendScheduledMessages
                      (take_job n (sendScheduledMessages w)) w);
        [apply noNewDelivery_same_shippings; reflexivity|].
      unfold world_after, processScheduled.
      destruct (job_data j); try reflexivity.
      destruct (job_name j =? "SendMessage")%string;
        [apply handleSendScheduledMessage_noNewDelivery|reflexivity]. }
  3:{ intros _. apply handleVerifySchedules_noNewDelivery. }
  - intros _. apply handleVerifyCampaigns_noNewDelivery.
  - destruct (nth_error (q_jobs (campaignQueue w)) n) as [j|];
      [|intros _; reflexivity].
    intros Hnot.
    transitivity (with_campaignQueue (take_job n (campaignQueue w)) w);
      [apply noNewDelivery_same_shippings; reflexivity|].
    unfold world_after, process.
    destruct (job_data j) as [id delay|itemId cid delay|contactId cid sid|sch].
    + destruct (job_name j =? "ProcessCampaign")%string;
        [apply handleProcessCampaign_noNewDelivery|reflexivity].
    + destruct (job_name j =? "PrepareContact")%string;
        [apply handlePrepareContact_noNewDelivery|reflexivity].
    + rewrite Hnot. reflexivity.
    + reflexivity.
Qed.

(** C1, as amended. No step of the queues (a verifier tick, a run of a
    campaign-queue job, a run of a scheduled send) other than a run of the
    dispatcher writes a non-null [deliveredAt] into a shipping record. The
    dispatcher does not consult the campaign status: whatever the status is,
    [FINALIZADA] and [FINALIZADA_COM_ERROS] included, a run that returns
    after a final send has set [deliveredAt] on the record of the job. *)
Theorem only_the_dispatcher_records_delivery :
  (forall (w : World) (ev : Event),
     is_dispatch_run w ev = false -> noNewDelivery w (step w ev))
  /\ (forall (w : World) (e : Env) (contactId cid sid : Z)
             (c : Campaign.t) (s row : CampaignShipping.t),
        getCampaign w cid = Some c ->
        findShipping w sid = Some s ->
        isConfirm c s = false ->
        outcome (handleDispatchCampaign e contactId cid sid w) = Completed ->
        In row (shippings w) ->
        CampaignShipping.id row = CampaignShipping.id s ->
        In (CampaignShipping.set_deliveredAt (Some (now e)) row)
           (shippings
              (world_after (handleDispatchCampaign e contactId cid sid w)))).
Proof.
  split; [exact step_noNewDelivery|].
  intros w e contactId cid sid c s row Hc Hs Hfinal Hout Hin Hid.
  pose proof (handleDispatchCampaign_returns e contactId cid sid c w Hc Hout)
    as Hrun.
  destruct (sendCampaignMessage_returns e c sid s w _ Hs Hrun) as [-> _].
  rewrite Hfinal. apply in_map_iff. exists row. split; [|exact Hin].
  rewrite Hid, Z.eqb_refl. reflexivity.
Qed.

(** The second part at the state reached in [firstDispatchFails], where the
    campaign is [FINALIZADA_COM_ERROS]; the first part at the verifier's
    tick. *)
Lemma only_the_dispatcher_records_delivery_witness :
  noNewDelivery dueWorld
    (step dueWorld (VerifyCampaignsTick 590000 (fun _ => 590001)))
  /\ In (CampaignShipping.set_deliveredAt (Some 617000)
           (CampaignShipping.mk 2 1 2 "5511900000000"
              (Some (zwnj ++ "Oi Ana")%string) None None None None (Some 5)))
        (shippings
           (world_after
              (handleDispatchCampaign (allGood 617000 2) 102 1 2
                 (run dueWorld firstDispatchFails)))).
Proof.
  split.
  - apply (proj1 only_the_dispatcher_records_delivery). reflexivity.
  - apply (proj2 only_the_dispatcher_records_delivery
             (run dueWorld firstDispatchFails) (allGood 617000 2) 102 1 2
             (Campaign.set_completed FINALIZADA_COM_ERROS 602000
                (demoCampaign 1 PROGRAMADA false (recipients 2)))
             (CampaignShipping.mk 2 1 2 "5511900000000"
                (Some (zwnj ++ "Oi Ana")%string) None None None None (Some 5))).
    + vm_compute. reflexivity.
    + vm_compute. reflexivity.
    + reflexivity.
    + vm_compute. reflexivity.
    + vm_compute. right. left. reflexivity.
    + reflexivity.
Defined.

(** C1, as stated, fails: in the state reached when the dispatch to the
    first of two recipients has failed, the campaign is
    [FINALIZADA_COM_ERROS] and the second recipient's record is undelivered;
    the run of the dispatch job still in the queue then writes its
    [deliveredAt]. *)
Lemma dispatch_delivers_for_a_finished_campaign :
  let w := run dueWorld firstDispatchFails in
  let w' := step w (RunJob 0 (allGood 617000 2)) in
  reachable w
  /\ option_map Campaign.status (getCampaign w 1) = Some FINALIZADA_COM_ERROS
  /\ option_map (fun c => terminal (Campaign.status c)) (getCampaign w 1)
     = Some true
  /\ map job_data (q_jobs (campaignQueue w)) = [DispatchCampaignData 102 1 2]
  /\ option_map CampaignShipping.campaignId (findShipping w 2) = Some 1
  /\ option_map CampaignShipping.deliveredAt (findShipping w 2) = Some None
  /\ option_map CampaignShipping.deliveredAt (findShipping w' 2)
     = Some (Some 617000).
Proof.
  split.
  - exists dueWorld, firstDispatchFails. split; [|reflexivity].
    repeat split. intros c [<-|[]]. reflexivity.
  - vm_compute. repeat split; reflexivity.
Qed.

(** ** The contact preparer *)

(** The three cases of the idempotency block. *)

Lemma bookDispatch_settled (c : Campaign.t) (contact : Contact.t)
    (v : ShippingValues) (delay : Z) (w : World) (r : CampaignShipping.t) :
  existingRecord (sv_campaignId v) (sv_contactId v) w = Some r ->
  undeliveredUnconfirmed r = false ->
  bookDispatch c contact v delay w = (Ok tt, w).
Proof.
  intros Hf Hu. unfold bookDispatch, bind, findOrCreate.
  rewrite Hf. cbn [negb andb]. rewrite Hu. cbn [ret]. rewrite Hu.
  reflexivity.
Qed.

Lemma bookDispatch_pending (c : Campaign.t) (contact : Contact.t)
    (v : ShippingValues) (delay : Z) (w : World) (r : CampaignShipping.t) :
  existingRecord (sv_campaignId v) (sv_contactId v) w = Some r ->
  undeliveredUnconfirmed r = true ->
  bookDispatch c contact v delay w
  = (Ok tt,
     with_shippings
       (map (fun row =>
               if CampaignShipping.id row =? CampaignShipping.id r
               then CampaignShipping.set_jobId
                      (Some (q_next (campaignQueue w))) row
               else row)
            (map (fun row =>
                    if CampaignShipping.id row =? CampaignShipping.id r
                    then setShipping v row else row)
                 (shippings w)))
       (nextShippingId w)
       (with_campaignQueue
          {| q_jobs := q_jobs (campaignQueue w)
                       ++ [dispatchJob w (Contact.id contact) (Campaign.id c)
                             (CampaignShipping.id r) delay];
             q_next := q_next (campaignQueue w) + 1 |}
          w)).
Proof.
  intros Hf Hu. unfold bookDispatch, bind, findOrCreate.
  rewrite Hf. cbn [negb andb]. rewrite Hu.
  cbn [shipping_update].
  replace (undeliveredUnconfirmed (setShipping v r)) with true
    by (rewrite <- Hu; reflexivity).
  reflexivity.
Qed.

Lemma bookDispatch_created (c : Campaign.t) (contact : Contact.t)
    (v : ShippingValues) (delay : Z) (w : World) :
  existingRecord (sv_campaignId v) (sv_contactId v) w = None ->
  bookDispatch c contact v delay w
  = (Ok tt,
     with_shippings
       (map (fun row =>
               if CampaignShipping.id row =? nextShippingId w
               then CampaignShipping.set_jobId
                      (Some (q_next (campaignQueue w))) row
               else row)
            (shippings w ++ [newShipping (nextShippingId w) v]))
       (nextShippingId w + 1)
       (with_campaignQueue
          {| q_jobs := q_jobs (campaignQueue w)
                       ++ [dispatchJob w (Contact.id contact) (Campaign.id c)
                             (nextShippingId w) delay];
             q_next := q_next (campaignQueue w) + 1 |}
          w)).
Proof.
  intros Hf. unfold bookDispatch, bind, findOrCreate.
  rewrite Hf. reflexivity.
Qed.

(** *** What the other steps of the preparer leave alone *)

#[local] Instance sameShippingsAndJobs_preorder : PreOrder sameShippingsAndJobs.
Proof.
  split.
  - intros w. repeat split.
  - intros w1 w2 w3 (A1 & B1 & C1) (A2 & B2 & C2).
    repeat split; congruence.
Qed.

Lemma campaign_update_same f c :
  preserves sameShippingsAndJobs (campaign_update f c).
Proof. intros w. repeat split. Qed.

Lemma io_emit_same companyId action record :
  preserves sameShippingsAndJobs (io_emit companyId action record).
Proof. intros w. repeat split. Qed.

Lemma verifyAndFinalizeCampaign_same e c :
  preserves sameShippingsAndJobs (verifyAndFinalizeCampaign e c).
Proof.
  unfold verifyAndFinalizeCampaign.
  repeat first [ apply campaign_update_same
               | apply io_emit_same
               | preserves_step ].
Qed.

Lemma loadCampaign_same id : preserves sameShippingsAndJobs (loadCampaign id).
Proof. unfold loadCampaign. repeat preserves_step. Qed.

Lemma pickMessage_same u messages contact :
  preserves sameShippingsAndJobs (pickMessage u messages contact).
Proof. unfold pickMessage. repeat preserves_step. Qed.

Lemma renderShipping_same e c campaignId item contact :
  preserves sameShippingsAndJobs (renderShipping e c campaignId item contact).
Proof.
  unfold renderShipping.
  repeat first [ apply pickMessage_same | preserves_step ].
Qed.

Lemma pickMessage_world u messages contact w w' (r : option string) :
  pickMessage u messages contact w = (Ok r, w') -> w' = w.
Proof.
  unfold pickMessage.
  destruct (0 <? Z.of_nat (List.length messages));
    [destruct (js_index messages _)|]; cbn;
    intros E; inversion E; reflexivity.
Qed.

(** The object rendered for a recipient is keyed by the campaign id of the
    job and the id of the contact-list item. *)
Lemma renderShipping_key e c campaignId item contact w w' v :
  renderShipping e c campaignId item contact w = (Ok v, w') ->
  sv_campaignId v = campaignId
  /\ sv_contactId v = ContactListItem.id item.
Proof.
  unfold renderShipping. intros H.
  apply bind_Ok in H. destruct H as (m & w1 & _ & H).
  apply bind_Ok in H. destruct H as (m' & w2 & _ & H).
  injection H as <- _. split; reflexivity.
Qed.

Lemma getCampaign_id (w : World) (id : Z) (c : Campaign.t) :
  getCampaign w id = Some c -> Campaign.id c = id.
Proof.
  unfold getCampaign.
  destruct (find _ (campaigns w)) as [c0|] eqn:E; [|discriminate].
  intros H. injection H as <-. apply find_some in E.
  destruct E as [_ E]. apply Z.eqb_eq in E. exact E.
Qed.

(** A run of the preparer that returns has gone through the idempotency
    block for the item [ShowService] answered; the evaluator that follows
    leaves the shipping records and the queue as the block left them. *)
Lemma handlePrepareContact_returns (e : Env) (itemId cid delay : Z)
    (w w' : World) :
  handlePrepareContact e itemId cid delay w = (Ok tt, w') ->
  exists c item contact v w1,
    getCampaign w cid = Some c
    /\ showService e = Some item
    /\ verifyContact e = Some contact
    /\ sv_campaignId v = cid
    /\ sv_contactId v = ContactListItem.id item
    /\ bookDispatch c contact v delay w = (Ok tt, w1)
    /\ sameShippingsAndJobs w1 w'.
Proof.
  unfold handlePrepareContact. intros H.
  apply bind_Ok in H. destruct H as (c & w0 & H0 & H).
  unfold loadCampaign, bind, query in H0.
  destruct (getCampaign w cid) as [c0|] eqn:Hc; [|discriminate].
  injection H0 as <- <-.
  apply try_catch_Ok in H.
  2:{ intros msg w1. eexists. reflexivity. }
  apply bind_Ok in H. destruct H as (item & w0 & H0 & H).
  apply await_Ok in H0. destruct H0 as [Hitem ->].
  apply bind_Ok in H. destruct H as (u & w0 & H0 & H).
  apply await_ok_Ok in H0. destruct H0 as [_ ->].
  apply bind_Ok in H. destruct H as (contact & w0 & H0 & H).
  apply await_Ok in H0. destruct H0 as [Hcontact ->].
  apply bind_Ok in H. destruct H as (v & w0 & Hv & H).
  pose proof (renderShipping_same e c0 cid item contact w) as Hsame.
  rewrite Hv in Hsame. cbn [snd] in Hsame.
  destruct (renderShipping_key _ _ _ _ _ _ _ _ Hv) as [Hk1 Hk2].
  assert (w0 = w).
  { unfold renderShipping in Hv.
    apply bind_Ok in Hv. destruct Hv as (m & w1 & Hm & Hv).
    apply bind_Ok in Hv. destruct Hv as (m' & w2 & Hm' & Hv).
    injection Hv as _ <-.
    apply pickMessage_world in Hm. subst w1.
    destruct (Campaign.confirmation c0).
    - apply pickMessage_world in Hm'. exact Hm'.
    - injection Hm' as _ <-. reflexivity. }
  subst w0.
  apply bind_Ok in H. destruct H as (u1 & w1 & Hbook & H).
  apply bind_Ok in H. destruct H as (c' & w2 & Heval & H).
  injection H as <-.
  exists c0, item, contact, v, w1.
  repeat split; try assumption.
  - destruct u1. exact Hbook.
  - pose proof (verifyAndFinalizeCampaign_same e c0 w1) as [A [B C]].
    rewrite Heval in A. exact A.
  - pose proof (verifyAndFinalizeCampaign_same e c0 w1) as [A [B C]].
    rewrite Heval in B. exact B.
  - pose proof (verifyAndFinalizeCampaign_same e c0 w1) as [A [B C]].
    rewrite Heval in C. exact C.
Qed.

(** [bind] when what the continuation needs is known of every value the
    first computation returns. *)
Lemma preserves_bind_returns (R : World -> World -> Prop)
    {R_preorder : PreOrder R} {A B} (Q : A -> Prop) (m : M A) (k : A -> M B) :
  preserves R m ->
  (forall w a w', m w = (Ok a, w') -> Q a) ->
  (forall a, Q a -> preserves R (k a)) ->
  preserves R (bind m k).
Proof.
  intros Hm HQ Hk w. unfold bind. specialize (Hm w). specialize (HQ w).
  destruct (m w) as [[a|msg] w1]; cbn [snd] in *.
  - transitivity w1; [exact Hm | apply Hk; eapply HQ; reflexivity].
  - exact Hm.
Qed.

(** *** A settled recipient is left alone *)

Section Settled.

Variables campaignId contactId : Z.

#[local] Instance keepsWhenSettled_preorder :
  PreOrder (keepsWhenSettled campaignId contactId).
Proof.
  split.
  - intros w _. reflexivity.
  - intros w1 w2 w3 H12 H23 Hs.
    specialize (H12 Hs).
    transitivity w2; [exact H12|]. apply H23.
    destruct Hs as (r & Hr & Hu). exists r. split; [|exact Hu].
    unfold existingRecord in *. destruct H12 as (-> & _ & _). exact Hr.
Qed.

Lemma keepsWhenSettled_of_same {A} (m : M A) :
  preserves sameShippingsAndJobs m ->
  preserves (keepsWhenSettled campaignId contactId) m.
Proof. intros H w _. apply H. Qed.

Lemma bookDispatch_keepsWhenSettled c contact v delay :
  sv_campaignId v = campaignId ->
  sv_contactId v = contactId ->
  preserves (keepsWhenSettled campaignId contactId)
            (bookDispatch c contact v delay).
Proof.
  intros <- <- w (r & Hr & Hu).
  rewrite (bookDispatch_settled c contact v delay w r Hr Hu). reflexivity.
Qed.

Lemma handlePrepareContact_keepsWhenSettled e itemId delay item :
  showService e = Some item ->
  ContactListItem.id item = contactId ->
  preserves (keepsWhenSettled campaignId contactId)
            (handlePrepareContact e itemId campaignId delay).
Proof.
  intros Hitem Hid. unfold handlePrepareContact.
  preserves_step; [apply keepsWhenSettled_of_same, loadCampaign_same|].
  preserves_step.
  2:{ preserves_step; [apply keepsWhenSettled_of_same, campaign_update_same|].
      preserves_step. }
  apply (preserves_bind_returns _ (fun it => it = item)).
  { preserves_step. }
  { intros w it w' H. apply await_Ok in H. destruct H as [H _]. congruence. }
  intros it ->.
  preserves_step; [preserves_step|].
  preserves_step; [preserves_step|].
  apply (preserves_bind_returns _
           (fun v => sv_campaignId v = campaignId
                     /\ sv_contactId v = contactId)).
  { apply keepsWhenSettled_of_same, renderShipping_same. }
  { intros w v w' H. apply renderShipping_key in H.
    destruct H as [H1 H2]. split; congruence. }
  intros v [Hk1 Hk2].
  preserves_step; [apply bookDispatch_keepsWhenSettled; assumption|].
  preserves_step;
    [apply keepsWhenSettled_of_same, verifyAndFinalizeCampaign_same|].
  preserves_step.
Qed.

End Settled.

(** *** One record per campaign and recipient *)

#[local] Instance keepsWf_preorder : PreOrder keepsWf.
Proof.
  split.
  - intros w H. exact H.
  - intros w1 w2 w3 H12 H23 H. apply H23, H12, H.
Qed.

Lemma keepsWf_of_same {A} (m : M A) :
  preserves sameShippingsAndJobs m -> preserves keepsWf m.
Proof.
  intros H w (Hids & Hlt & Hkeys). destruct (H w) as (E1 & E2 & _).
  unfold shippings_wf. rewrite E1, E2. repeat split; assumption.
Qed.

Lemma NoDup_map_eq {A B} (f : A -> B) (l : list A) (x y : A) :
  NoDup (map f l) -> In x l -> In y l -> f x = f y -> x = y.
Proof.
  induction l as [|a l IH]; cbn [map]; intros Hnd Hx Hy E; [destruct Hx|].
  inversion Hnd as [|? ? Hnotin Hnd']; subst.
  destruct Hx as [->|Hx], Hy as [->|Hy].
  - reflexivity.
  - exfalso. apply Hnotin. rewrite E. apply in_map. exact Hy.
  - exfalso. apply Hnotin. rewrite <- E. apply in_map. exact Hx.
  - apply IH; assumption.
Qed.

Lemma existingRecord_some (cid iid : Z) (w : World) (r : CampaignShipping.t) :
  existingRecord cid iid w = Some r ->
  In r (shippings w) /\ shipping_key r = (cid, iid).
Proof.
  unfold existingRecord. intros H. apply find_some in H.
  destruct H as [Hin H]. apply andb_prop in H. destruct H as [H1 H2].
  apply Z.eqb_eq in H1, H2. split; [exact Hin|].
  unfold shipping_key. congruence.
Qed.

Lemma existingRecord_none (cid iid : Z) (w : World) :
  existingRecord cid iid w = None ->
  ~ In (cid, iid) (map shipping_key (shippings w)).
Proof.
  unfold existingRecord. intros H Hin. apply in_map_iff in Hin.
  destruct Hin as (s & E & Hin).
  pose proof (find_none _ _ H s Hin) as N. cbn beta in N.
  unfold shipping_key in E. injection E as E1 E2.
  rewrite E1, E2, !Z.eqb_refl in N. discriminate.
Qed.

(** The idempotency block keeps the table well formed: it creates a record
    only for a pair that has none, under a fresh id. *)
Lemma bookDispatch_keepsWf c contact v delay :
  preserves keepsWf (bookDispatch c contact v delay).
Proof.
  intros w (Hids & Hlt & Hkeys).
  destruct (existingRecord (sv_campaignId v) (sv_contactId v) w) as [r|] eqn:Hr.
  - destruct (undeliveredUnconfirmed r) eqn:Hu.
    + rewrite (bookDispatch_pending c contact v delay w r Hr Hu).
      cbn [snd]. unfold shippings_wf.
      cbn [shippings nextShippingId with_shippings].
      destruct (existingRecord_some _ _ _ _ Hr) as [Hin Hkey].
      assert (Hid : forall l : list CampaignShipping.t,
                 map CampaignShipping.id
                   (map (fun row =>
                      if CampaignShipping.id row =? CampaignShipping.id r
                      then CampaignShipping.set_jobId
                             (Some (q_next (campaignQueue w))) row
                      else row)
                      (map (fun row =>
                         if CampaignShipping.id row =? CampaignShipping.id r
                         then setShipping v row else row) l))
                 = map CampaignShipping.id l).
      { intros l. rewrite !map_map. apply map_ext. intros row.
        destruct (CampaignShipping.id row =? CampaignShipping.id r) eqn:E;
          cbn; rewrite E; reflexivity. }
      split; [rewrite Hid; exact Hids|]. split.
      * intros s Hs. apply (in_map CampaignShipping.id) in Hs.
        rewrite Hid in Hs. apply in_map_iff in Hs.
        destruct Hs as (s0 & <- & Hs0). apply Hlt. exact Hs0.
      * rewrite !map_map.
        rewrite (map_ext_in _ shipping_key); [exact Hkeys|].
        intros row Hrow.
        destruct (CampaignShipping.id row =? CampaignShipping.id r) eqn:E.
        -- apply Z.eqb_eq in E.
           assert (row = r)
             by (apply (NoDup_map_eq CampaignShipping.id (shippings w));
                 assumption).
           subst row. cbn. rewrite Z.eqb_refl. rewrite Hkey. reflexivity.
        -- rewrite E. reflexivity.
    + rewrite (bookDispatch_settled c contact v delay w r Hr Hu).
      repeat split; assumption.
  - rewrite (bookDispatch_created c contact v delay w Hr).
    cbn [snd]. unfold shippings_wf.
    cbn [shippings nextShippingId with_shippings].
    assert (Hid : map CampaignShipping.id
                    (map (fun row =>
                       if CampaignShipping.id row =? nextShippingId w
                       then CampaignShipping.set_jobId
                              (Some (q_next (campaignQueue w))) row
                       else row)
                       (shippings w ++ [newShipping (nextShippingId w) v]))
                  = (map CampaignShipping.id (shippings w)
                     ++ [nextShippingId w])%list).
    { rewrite map_map, map_app. cbn [map]. f_equal.
      - apply map_ext. intros row. destruct (_ =? _); reflexivity.
      - cbn. rewrite Z.eqb_refl. reflexivity. }
    split; [|split].
    + rewrite Hid.
      apply NoDup_app; [exact Hids|constructor; [intros []|constructor]|].
      intros x Hx [<-|[]]. apply in_map_iff in Hx.
      destruct Hx as (s & E & Hs). specialize (Hlt s Hs). lia.
    + intros s Hs. apply (in_map CampaignShipping.id) in Hs.
      rewrite Hid in Hs. apply in_app_iff in Hs.
      destruct Hs as [Hs|[<-|[]]]; [|lia].
      apply in_map_iff in Hs. destruct Hs as (s0 & <- & Hs0).
      specialize (Hlt s0 Hs0). lia.
    + rewrite map_map, map_app. cbn [map].
      rewrite (map_ext _ shipping_key)
        by (intros row; destruct (_ =? _); reflexivity).
      apply NoDup_app; [exact Hkeys|constructor; [intros []|constructor]|].
      intros k Hk [<-|[]].
      apply (existingRecord_none _ _ _ Hr).
      cbn in Hk. rewrite Z.eqb_refl in Hk. exact Hk.
Qed.

Lemma handlePrepareContact_keepsWf e itemId campaignId delay :
  preserves keepsWf (handlePrepareContact e itemId campaignId delay).
Proof.
  unfold handlePrepareContact.
  repeat first [ apply keepsWf_of_same, campaign_update_same
               | apply keepsWf_of_same, loadCampaign_same
               | apply keepsWf_of_same, renderShipping_same
               | apply keepsWf_of_same, verifyAndFinalizeCampaign_same
               | apply bookDispatch_keepsWf
               | preserves_step ].
Qed.

Lemma jobs_since_same (q : Queue) : jobs_since q q = [].
Proof. unfold jobs_since. apply skipn_all. Qed.

(** The dispatch jobs of a run of the preparer that returns: one when the
    record it finds or creates is neither delivered nor
    confirmation-requested, none otherwise. *)
Lemma handlePrepareContact_jobs (w : World) (e : Env) (itemId cid delay : Z)
    (item : ContactListItem.t) :
  showService e = Some item ->
  outcome (handlePrepareContact e itemId cid delay w) = Completed ->
  let w' := world_after (handlePrepareContact e itemId cid delay w) in
  match existingRecord cid (ContactListItem.id item) w with
  | Some r =>
      if undeliveredUnconfirmed r
      then exists contactId,
             enqueued w w'
             = [dispatchJob w contactId cid (CampaignShipping.id r) delay]
      else enqueued w w' = []
  | None =>
      exists contactId,
        enqueued w w' = [dispatchJob w contactId cid (nextShippingId w) delay]
  end.
Proof.
  intros Hitem. unfold outcome, world_after.
  destruct (handlePrepareContact e itemId cid delay w) as [[[]|msg] w'] eqn:H;
    [intros _|discriminate].
  cbn [snd].
  destruct (handlePrepareContact_returns e itemId cid delay w w' H)
    as (c & item' & contact & v & w1 & Hc & Hitem' & _ & Hk1 & Hk2 & Hbook
        & (_ & _ & Hq)).
  assert (item' = item) by congruence. subst item'.
  apply getCampaign_id in Hc. unfold enqueued. rewrite Hq.
  rewrite <- Hk1, <- Hk2.
  destruct (existingRecord (sv_campaignId v) (sv_contactId v) w) as [r|] eqn:Hr.
  - destruct (undeliveredUnconfirmed r) eqn:Hu.
    + rewrite (bookDispatch_pending c contact v delay w r Hr Hu) in Hbook.
      injection Hbook as <-. exists (Contact.id contact).
      cbn [campaignQueue with_shippings with_campaignQueue].
      rewrite jobs_since_app, Hc, Hk1. reflexivity.
    + rewrite (bookDispatch_settled c contact v delay w r Hr Hu) in Hbook.
      injection Hbook as <-. apply jobs_since_same.
  - rewrite (bookDispatch_created c contact v delay w Hr) in Hbook.
    injection Hbook as <-. exists (Contact.id contact).
    cbn [campaignQueue with_shippings with_campaignQueue].
    rewrite jobs_since_app, Hc, Hk1. reflexivity.
Qed.

Lemma filter_none {A} (p : A -> bool) (l : list A) :
  (forall x, In x l -> p x = false) -> filter p l = [].
Proof.
  induction l as [|a l IH]; intros H; [reflexivity|].
  cbn [filter]. rewrite (H a (or_introl eq_refl)).
  apply IH. intros x Hx. apply H. right. exact Hx.
Qed.

(** In a table with distinct keys, the rows of a key that is present are
    one row. *)
Lemma filter_distinct_key {A B} (f : A -> B) (p : A -> bool) (l : list A)
    (r : A) :
  NoDup (map f l) -> In r l -> (forall x, p x = true <-> f x = f r) ->
  filter p l = [r].
Proof.
  intros Hnd Hin Hp.
  induction l as [|a l IH]; [destruct Hin|].
  cbn [map] in Hnd. inversion Hnd as [|? ? Hnotin Hnd']; subst.
  cbn [filter]. destruct Hin as [->|Hin].
  - rewrite (proj2 (Hp r) eq_refl). f_equal.
    apply filter_none. intros x Hx.
    destruct (p x) eqn:E; [|reflexivity].
    exfalso. apply Hnotin. apply Hp in E. rewrite <- E. apply in_map. exact Hx.
  - destruct (p a) eqn:E.
    + exfalso. apply Hnotin. apply Hp in E. rewrite E. apply in_map. exact Hin.
    + apply IH; assumption.
Qed.

Lemma find_map_same {A} (p : A -> bool) (g : A -> A) (l : list A) :
  (forall x, p (g x) = p x) -> find p (map g l) = option_map g (find p l).
Proof.
  intros H. induction l as [|a l IH]; [reflexivity|].
  cbn [map find]. rewrite H. destruct (p a); [reflexivity | exact IH].
Qed.

Lemma find_last {A} (p : A -> bool) (l : list A) (x : A) :
  find p l = None -> p x = true -> find p (l ++ [x]) = Some x.
Proof.
  intros Hn Hx. induction l as [|a l IH]; cbn [app find].
  - rewrite Hx. reflexivity.
  - cbn [find] in Hn. destruct (p a); [discriminate | apply IH; exact Hn].
Qed.

(** Two runs of the preparer in sequence for a recipient without a record,
    both returning: one record, and one dispatch job from each run, for that
    record. *)
Lemma handlePrepareContact_twice (w : World) (e1 e2 : Env)
    (itemId cid d1 d2 : Z) (item1 item2 : ContactListItem.t) :
  shippings_wf w ->
  showService e1 = Some item1 ->
  showService e2 = Some item2 ->
  ContactListItem.id item2 = ContactListItem.id item1 ->
  existingRecord cid (ContactListItem.id item1) w = None ->
  outcome (handlePrepareContact e1 itemId cid d1 w) = Completed ->
  let w1 := world_after (handlePrepareContact e1 itemId cid d1 w) in
  outcome (handlePrepareContact e2 itemId cid d2 w1) = Completed ->
  let w2 := world_after (handlePrepareContact e2 itemId cid d2 w1) in
  List.length (recordsFor cid (ContactListItem.id item1) w2) = 1%nat
  /\ exists contact1 contact2,
       enqueued w w1 = [dispatchJob w contact1 cid (nextShippingId w) d1]
       /\ enqueued w1 w2
          = [dispatchJob w1 contact2 cid (nextShippingId w) d2].
Proof.
  intros Hwf Hitem1 Hitem2 Hsame Hnone Hout1 w1 Hout2 w2.
  set (iid := ContactListItem.id item1) in *.
  (* the first run creates the record *)
  pose proof (handlePrepareContact_jobs w e1 itemId cid d1 item1 Hitem1 Hout1)
    as Hjobs1.
  fold w1 iid in Hjobs1. rewrite Hnone in Hjobs1.
  destruct Hjobs1 as [contact1 Hjobs1].
  assert (Hrec1 : exists r1,
             existingRecord cid iid w1 = Some r1
             /\ undeliveredUnconfirmed r1 = true
             /\ CampaignShipping.id r1 = nextShippingId w).
  { unfold outcome in Hout1. unfold w1, world_after.
    destruct (handlePrepareContact e1 itemId cid d1 w) as [[[]|msg] wa] eqn:H;
      [|discriminate].
    cbn [snd].
    destruct (handlePrepareContact_returns e1 itemId cid d1 w wa H)
      as (c & item' & contact & v & wb & _ & Hitem' & _ & Hk1 & Hk2 & Hbook
          & (Hsh & _ & _)).
    assert (item' = item1) by congruence. subst item'. fold iid in Hk2.
    rewrite <- Hk1, <- Hk2 in Hnone.
    rewrite (bookDispatch_created c contact v d1 w Hnone) in Hbook.
    injection Hbook as <-. cbn [shippings with_shippings] in Hsh.
    exists (CampaignShipping.set_jobId (Some (q_next (campaignQueue w)))
              (newShipping (nextShippingId w) v)).
    split; [|split; reflexivity].
    unfold existingRecord. rewrite Hsh.
    rewrite find_map_same
      by (intros x;
          destruct (CampaignShipping.id x =? nextShippingId w); reflexivity).
    rewrite (find_last _ _ (newShipping (nextShippingId w) v)).
    - cbn. rewrite Z.eqb_refl. reflexivity.
    - rewrite <- Hk1, <- Hk2. exact Hnone.
    - cbn. rewrite Hk1, Hk2, !Z.eqb_refl. reflexivity. }
  destruct Hrec1 as (r1 & Hr1 & Hu1 & Hid1).
  (* the second run finds it and books another job *)
  pose proof (handlePrepareContact_jobs w1 e2 itemId cid d2 item2 Hitem2 Hout2)
    as Hjobs2.
  fold w2 in Hjobs2. rewrite Hsame in Hjobs2. fold iid in Hjobs2.
  rewrite Hr1, Hu1, Hid1 in Hjobs2. destruct Hjobs2 as [contact2 Hjobs2].
  split; [|exists contact1, contact2; split; assumption].
  (* and the record is still the only one of the pair *)
  assert (Hwf2 : shippings_wf w2).
  { apply handlePrepareContact_keepsWf, handlePrepareContact_keepsWf, Hwf. }
  assert (Hrec2 : exists r2, In r2 (shippings w2)
                             /\ shipping_key r2 = (cid, iid)).
  { unfold outcome in Hout2. unfold w2, world_after.
    destruct (handlePrepareContact e2 itemId cid d2 w1) as [[[]|msg] wa] eqn:H;
      [|discriminate].
    cbn [snd].
    destruct (handlePrepareContact_returns e2 itemId cid d2 w1 wa H)
      as (c & item' & contact & v & wb & _ & Hitem' & _ & Hk1 & Hk2 & Hbook
          & (Hsh & _ & _)).
    assert (item' = item2) by congruence. subst item'.
    rewrite Hsame in Hk2. fold iid in Hk2.
    rewrite <- Hk1, <- Hk2 in Hr1.
    rewrite (bookDispatch_pending c contact v d2 w1 r1 Hr1 Hu1) in Hbook.
    injection Hbook as <-. cbn [shippings with_shippings] in Hsh.
    destruct (existingRecord_some _ _ _ _ Hr1) as [Hin _].
    eexists. split.
    - rewrite Hsh. apply in_map, in_map. exact Hin.
    - cbn beta. rewrite Z.eqb_refl. cbn. rewrite Z.eqb_refl.
      unfold shipping_key. cbn. rewrite Hk1, Hk2. reflexivity. }
  destruct Hrec2 as (r2 & Hin2 & Hkey2).
  destruct Hwf2 as (_ & _ & Hkeys2).
  unfold recordsFor.
  rewrite (filter_distinct_key shipping_key _ (shippings w2) r2 Hkeys2 Hin2);
    [reflexivity|].
  intros x. rewrite Hkey2. unfold shipping_key.
  rewrite andb_true_iff, !Z.eqb_eq. split.
  - intros [-> ->]. reflexivity.
  - intros E. injection E as -> ->. split; reflexivity.
Qed.

(** C2, as amended. (1) When the recipient's shipping record exists and has
    a non-null [deliveredAt] or a non-null [confirmationRequestedAt], a run
    of the Contact Preparer, whatever its collaborators answer, enqueues no
    job and leaves the shipping records untouched. (2) No run creates a
    second record for a campaign and recipient: a well-formed shipping table
    (distinct ids, distinct pairs) stays well formed. (3) A run that returns
    enqueues exactly one [DispatchCampaign] job, for the record it found or
    created, when that record is undelivered and unconfirmed, and none
    otherwise; that a job was already enqueued for the record plays no
    role. (4) So two runs in sequence for a recipient without a record, both
    returning, yield one shipping record and two dispatch jobs for it. *)
Theorem preparer_dedups_records_not_jobs :
  (forall (w : World) (e : Env) (itemId cid delay : Z)
          (item : ContactListItem.t),
     showService e = Some item ->
     settled cid (ContactListItem.id item) w ->
     sameShippingsAndJobs w
       (world_after (handlePrepareContact e itemId cid delay w)))
  /\ (forall (w : World) (e : Env) (itemId cid delay : Z),
        shippings_wf w ->
        shippings_wf (world_after (handlePrepareContact e itemId cid delay w)))
  /\ (forall (w : World) (e : Env) (itemId cid delay : Z)
             (item : ContactListItem.t),
        showService e = Some item ->
        outcome (handlePrepareContact e itemId cid delay w) = Completed ->
        let w' := world_after (handlePrepareContact e itemId cid delay w) in
        match existingRecord cid (ContactListItem.id item) w with
        | Some r =>
            if undeliveredUnconfirmed r
            then exists contactId,
                   enqueued w w'
                   = [dispatchJob w contactId cid (CampaignShipping.id r)
                        delay]
            else enqueued w w' = []
        | None =>
            exists contactId,
              enqueued w w'
              = [dispatchJob w contactId cid (nextShippingId w) delay]
        end)
  /\ (forall (w : World) (e1 e2 : Env) (itemId cid d1 d2 : Z)
             (item1 item2 : ContactListItem.t),
        shippings_wf w ->
        showService e1 = Some item1 ->
        showService e2 = Some item2 ->
        ContactListItem.id item2 = ContactListItem.id item1 ->
        existingRecord cid (ContactListItem.id item1) w = None ->
        outcome (handlePrepareContact e1 itemId cid d1 w) = Completed ->
        let w1 := world_after (handlePrepareContact e1 itemId cid d1 w) in
        outcome (handlePrepareContact e2 itemId cid d2 w1) = Completed ->
        let w2 := world_after (handlePrepareContact e2 itemId cid d2 w1) in
        List.length (recordsFor cid (ContactListItem.id item1) w2) = 1%nat
        /\ exists contact1 contact2,
             enqueued w w1
             = [dispatchJob w contact1 cid (nextShippingId w) d1]
             /\ enqueued w1 w2
                = [dispatchJob w1 contact2 cid (nextShippingId w) d2]).
Proof.
  split; [|split; [|split]].
  - intros w e itemId cid delay item Hitem Hsettled.
    exact (handlePrepareContact_keepsWhenSettled cid (ContactListItem.id item)
             e itemId delay item Hitem eq_refl w Hsettled).
  - intros w e itemId cid delay. apply handlePrepareContact_keepsWf.
  - exact handlePrepareContact_jobs.
  - exact handlePrepareContact_twice.
Qed.

(** The fourth part at the state in which the preparation of the recipient
    has just been enqueued. *)
Lemma preparer_dedups_records_not_jobs_witness :
  let w1 := world_after (handlePrepareContact (allGood 592000 1) 1 1 9999
                           fannedOutWorld) in
  let w2 := world_after (handlePrepareContact (allGood 593000 1) 1 1 9999 w1) in
  List.length (recordsFor 1 1 w2) = 1%nat
  /\ exists contact1 contact2,
       enqueued fannedOutWorld w1
       = [dispatchJob fannedOutWorld contact1 1 1 9999]
       /\ enqueued w1 w2 = [dispatchJob w1 contact2 1 1 9999].
Proof.
  apply (proj2 (proj2 (proj2 preparer_dedups_records_not_jobs))
           fannedOutWorld (allGood 592000 1) (allGood 593000 1) 1 1 9999 9999
           (recipient 1) (recipient 1)).
  - split; [constructor|]. split; [intros s []|constructor].
  - reflexivity.
  - reflexivity.
  - reflexivity.
  - reflexivity.
  - vm_compute. reflexivity.
  - vm_compute. reflexivity.
Defined.

(** C2, as stated, fails in its second half: the preparation job of the
    recipient runs, and runs again as on a retry; the record stays the only
    one, undelivered and unconfirmed, and the queue holds two dispatch jobs
    for it. *)
Lemma preparer_twice_books_two_dispatches :
  let w1 := step fannedOutWorld (RunJob 0 (allGood 592000 1)) in
  let w2 := world_after (handlePrepareContact (allGood 593000 1) 1 1 9999 w1) in
  map job_data (q_jobs (campaignQueue fannedOutWorld))
  = [PrepareContactData 1 1 9999]
  /\ outcome (handlePrepareContact (allGood 593000 1) 1 1 9999 w1) = Completed
  /\ map (fun s => (CampaignShipping.id s, undeliveredUnconfirmed s))
         (shippings w2) = [(1, true)]
  /\ map (fun j => (job_name j, job_data j)) (q_jobs (campaignQueue w2))
     = [("DispatchCampaign", DispatchCampaignData 101 1 1);
        ("DispatchCampaign", DispatchCampaignData 101 1 1)].
Proof.
  vm_compute. repeat split; reflexivity.
Qed.

(** ** Scheduled messages *)

(** The callbacks run over the selected rows: every stored row whose id is
    among them becomes [AGENDADA], and the queue gains, in order, one
    [SendMessage] job per row, delayed by 40000 ms and carrying the updated
    instance. *)
Lemma scheduleEach_run (rows : list Schedule.t) :
  forall w : World,
  exists js : list Job,
    scheduleEach rows w
    = (Ok tt,
       with_sendScheduledMessages
         {| q_jobs := q_jobs (sendScheduledMessages w) ++ js;
            q_next := q_next (sendScheduledMessages w)
                      + Z.of_nat (List.length rows) |}
         (with_schedules
            (map (fun row =>
                    if existsb (fun s => Schedule.id row =? Schedule.id s) rows
                    then Schedule.set_status AGENDADA row else row)
                 (schedules w))
            w))
    /\ map (fun j => (job_name j, job_data j, job_opts j)) js
       = map (fun s =>
                ("SendMessage",
                 ScheduleData (Schedule.set_status AGENDADA s),
                 {| opt_delay := Some 40000;
                    opt_removeOnComplete := false |}))
             rows.
Proof.
  induction rows as [|s rest IH]; intros w.
  - exists []. split; [|reflexivity].
    cbn [scheduleEach existsb List.length]. rewrite app_nil_r, Z.add_0_r.
    rewrite map_id.
    destruct w as [? ? ? ? ? ? [js n] ? ? ?]; reflexivity.
  - cbn [scheduleEach]. unfold bind at 1. cbn [schedule_update].
    unfold bind at 1. unfold sendScheduledMessages_add, queue_add.
    cbn [fst snd sendScheduledMessages with_schedules].
    match goal with
    | |- context [scheduleEach rest ?w1] =>
        destruct (IH w1) as (js & Hrun & Hjs)
    end.
    eexists (_ :: js). rewrite Hrun. split.
    + cbn [sendScheduledMessages with_sendScheduledMessages with_schedules
           schedules q_jobs q_next List.length].
      rewrite <- app_assoc, Nat2Z.inj_succ, map_map. cbn [app].
      f_equal. unfold with_sendScheduledMessages, with_schedules.
      cbn. f_equal.
      * apply map_ext. intros row. cbn [existsb].
        destruct (Schedule.id row =? Schedule.id s); cbn [orb];
          [|reflexivity].
        destruct (existsb _ rest); reflexivity.
      * f_equal. lia.
    + cbn [map]. rewrite Hjs. reflexivity.
Qed.

Lemma find_by_id (l : list Schedule.t) (s : Schedule.t) :
  NoDup (map Schedule.id l) -> In s l ->
  find (fun x => Schedule.id x =? Schedule.id s) l = Some s.
Proof.
  intros Hnd Hin.
  destruct (find (fun x => Schedule.id x =? Schedule.id s) l) as [x|] eqn:E.
  - apply find_some in E. destruct E as [Hx E]. apply Z.eqb_eq in E.
    f_equal. apply (NoDup_map_eq Schedule.id l); assumption.
  - pose proof (find_none _ _ E s Hin) as N. cbn beta in N.
    rewrite Z.eqb_refl in N. discriminate.
Qed.

(** Selecting rows keeps their ids distinct. *)
Lemma selected_ids_distinct (keep : Schedule.t -> bool)
    (rows : list Schedule.t) :
  NoDup (map Schedule.id rows) -> NoDup (map Schedule.id (filter keep rows)).
Proof.
  induction rows as [|row rows IH]; cbn [map filter]; [intros _; constructor|].
  rewrite NoDup_cons_iff. intros [Hfresh Hrest].
  destruct (keep row); [|exact (IH Hrest)].
  cbn [map]. apply NoDup_cons; [|exact (IH Hrest)].
  intros Hin. apply Hfresh.
  apply in_map_iff in Hin. destruct Hin as (other & Hid & Hother).
  apply filter_In in Hother. destruct Hother as [Hother _].
  rewrite <- Hid. apply in_map. exact Hother.
Qed.

Lemma NoDup_map_Some {A} (l : list A) : NoDup l -> NoDup (map Some l).
Proof.
  induction 1 as [|a l Hnotin Hnd IH]; cbn [map]; constructor; [|exact IH].
  intros Hin. apply in_map_iff in Hin. destruct Hin as (x & E & Hx).
  injection E as ->. exact (Hnotin Hx).
Qed.

(** C6, as amended. For every schedule with status [PENDENTE], a null
    [sentAt] and [sendAt] between [now] truncated to the second and
    [now + 30 s] truncated to the second (the bounds as the query prints
    them), one run of the Schedule Verifier returns, sets the status of that
    schedule to [AGENDADA], and enqueues on the scheduled-send queue exactly
    one job for it: a [SendMessage] job carrying the updated schedule, with a
    delay of 40000 ms. *)
Theorem schedule_verifier_promotes_due_schedules (w : World) (now1 now2 : Z)
    (s : Schedule.t) :
  NoDup (map Schedule.id (schedules w)) ->
  In s (schedules w) ->
  Schedule.status s = PENDENTE ->
  Schedule.sentAt s = None ->
  format_seconds now1 <= Schedule.sendAt s <= format_seconds (now2 + 30000) ->
  let w' := world_after (handleVerifySchedules now1 now2 w) in
  let jobs :=
    jobs_since (sendScheduledMessages w) (sendScheduledMessages w') in
  outcome (handleVerifySchedules now1 now2 w) = Completed
  /\ findSchedule w' (Schedule.id s) = Some (Schedule.set_status AGENDADA s)
  /\ exists j,
       jobsForSchedule (Schedule.id s) jobs = [j]
       /\ job_name j = "SendMessage"
       /\ job_data j = ScheduleData (Schedule.set_status AGENDADA s)
       /\ job_opts j = {| opt_delay := Some 40000;
                          opt_removeOnComplete := false |}.
Proof.
  intros Hnd Hin Hst Hsent Hwin w' jobs.
  assert (Hsel : In s (pendingSchedules now1 now2 w)).
  { unfold pendingSchedules. apply filter_In. split; [exact Hin|].
    rewrite Hst, Hsent. cbn [ScheduleStatus_eqb isSome negb andb].
    apply andb_true_intro. split; apply Z.leb_le; lia. }
  assert (Hlen : (0 <? Z.of_nat (List.length (pendingSchedules now1 now2 w)))
                 = true).
  { destruct (pendingSchedules now1 now2 w); [destruct Hsel|].
    cbn [List.length]. apply Z.ltb_lt. lia. }
  unfold jobs, w', handleVerifySchedules, bind, query.
  rewrite Hlen.
  destruct (scheduleEach_run (pendingSchedules now1 now2 w) w)
    as (js & Hrun & Hjs).
  rewrite Hrun. unfold outcome, world_after. cbn [fst snd].
  cbn [sendScheduledMessages with_sendScheduledMessages with_schedules].
  rewrite jobs_since_app.
  split; [reflexivity|]. split.
  - unfold findSchedule.
    cbn [schedules with_sendScheduledMessages with_schedules].
    rewrite find_map_same.
    + rewrite (find_by_id _ s Hnd Hin). cbn [option_map].
      replace (existsb _ _) with true; [reflexivity|].
      symmetry. apply existsb_exists. exists s.
      split; [exact Hsel | apply Z.eqb_refl].
    + intros x. destruct (existsb _ _); reflexivity.
  - assert (Hkeys : map scheduleOf js
                    = map (fun x => Some (Schedule.id x))
                          (pendingSchedules now1 now2 w)).
    { transitivity
        (map (fun t : string * JobData * JobOpts =>
                match snd (fst t) with
                | ScheduleData x => Some (Schedule.id x)
                | _ => None
                end)
             (map (fun j => (job_name j, job_data j, job_opts j)) js)).
      - rewrite map_map. reflexivity.
      - rewrite Hjs, map_map. reflexivity. }
    assert (Hj : exists j, In j js
                           /\ (job_name j, job_data j, job_opts j)
                              = ("SendMessage",
                                 ScheduleData (Schedule.set_status AGENDADA s),
                                 {| opt_delay := Some 40000;
                                    opt_removeOnComplete := false |})).
    { assert (Hin' : In ("SendMessage",
                         ScheduleData (Schedule.set_status AGENDADA s),
                         {| opt_delay := Some 40000;
                            opt_removeOnComplete := false |})
                        (map (fun j => (job_name j, job_data j, job_opts j))
                             js)).
      { rewrite Hjs. apply in_map_iff. exists s.
        split; [reflexivity | exact Hsel]. }
      apply in_map_iff in Hin'. destruct Hin' as (j & E & Hjin).
      exists j. split; assumption. }
    destruct Hj as (j & Hjin & Ej). injection Ej as En Ed Eo.
    exists j. repeat split; try assumption.
    unfold jobsForSchedule.
    apply (filter_distinct_key scheduleOf); [|exact Hjin|].
    + rewrite Hkeys.
      rewrite <- (map_map Schedule.id Some).
      apply NoDup_map_Some, selected_ids_distinct. exact Hnd.
    + intros x.
      replace (scheduleOf j) with (Some (Schedule.id s))
        by (unfold scheduleOf; rewrite Ed; reflexivity).
      destruct (scheduleOf x) as [i|]; [|split; discriminate].
      rewrite Z.eqb_eq. split; congruence.
Qed.

(** The verifier on a schedule due at a whole second inside the window. *)
Lemma schedule_verifier_promotes_due_schedules_witness :
  findSchedule
    (world_after
       (handleVerifySchedules 1700000020900 1700000020901
          (with_schedules [demoSchedule 1 1700000030000 PENDENTE]
                          emptyWorld)))
    1
  = Some (Schedule.set_status AGENDADA
            (demoSchedule 1 1700000030000 PENDENTE)).
Proof.
  apply (schedule_verifier_promotes_due_schedules
           (with_schedules [demoSchedule 1 1700000030000 PENDENTE] emptyWorld)
           1700000020900 1700000020901
           (demoSchedule 1 1700000030000 PENDENTE)).
  - constructor; [intros []|constructor].
  - left. reflexivity.
  - reflexivity.
  - reflexivity.
  - vm_compute. split; discriminate.
Defined.

(** C6, as stated, fails: at [now = 1700000000900] a pending schedule with
    [sendAt = 1700000030800] is within [[now, now + 30 s]], but the query's
    upper bound is [now + 30 s] printed to the second, 1700000030000, and the
    run leaves the schedule [PENDENTE] and enqueues nothing. *)
Lemma schedule_in_the_last_fraction_of_a_second_is_skipped :
  let now := 1700000000900 in
  let s := demoSchedule 1 1700000030800 PENDENTE in
  let w' := world_after (handleVerifySchedules now now scheduleWorld) in
  In s (schedules scheduleWorld)
  /\ Schedule.status s = PENDENTE
  /\ Schedule.sentAt s = None
  /\ now <= Schedule.sendAt s <= now + 30000
  /\ format_seconds (now + 30000) = 1700000030000
  /\ option_map Schedule.status (findSchedule w' 1) = Some PENDENTE
  /\ q_jobs (sendScheduledMessages w') = [].
Proof.
  cbv zeta. split; [left; reflexivity|].
  split; [reflexivity|]. split; [reflexivity|].
  split; [cbn; lia|].
  vm_compute. repeat split; reflexivity.
Qed.

(** C8, as amended. In the scheduled-message handler, a failure of the send
    path (the channel is not resolved, or the send throws) re-raises the
    error, and sets the status of the schedule to [ERRO] when the re-fetch
    had returned the record; when the send path succeeds the handler returns,
    and the schedule is updated to [ENVIADA] with the sent timestamp when the
    re-fetch had returned the record. When the re-fetch threw or found
    nothing, neither update is made. The re-fetch does not decide whether the
    send is attempted: once the channel is resolved, the message goes to the
    number of the contact and with the body that the job payload carries. *)
Theorem scheduled_send_marks_the_fetched_record (w : World) (e : SendEnv)
    (schedule : Schedule.t) :
  let r := handleSendScheduledMessage e schedule w in
  let w' := world_after r in
  let fetched :=
    if findByPk_answers e then findSchedule w (Schedule.id schedule)
    else None in
  let marked (f : Schedule.t -> Schedule.t) :=
    match fetched with
    | Some record =>
        map (fun row =>
               if Schedule.id row =? Schedule.id record then f row else row)
            (schedules w)
    | None => schedules w
    end in
  ((getDefaultWhatsApp e = false \/ sendMessage e = false) ->
   outcome r = Threw (if getDefaultWhatsApp e then "SendMessage"
                      else "GetDefaultWhatsApp")
   /\ schedules w' = marked (Schedule.set_status ERRO))
  /\ (getDefaultWhatsApp e = true -> sendMessage e = true ->
      outcome r = Completed
      /\ schedules w'
         = marked (Schedule.set_sent (format_minutes (send_now e)) ENVIADA))
  /\ sentMessages w'
     = (sentMessages w
        ++ if getDefaultWhatsApp e
           then [{| sm_companyId := Schedule.companyId schedule;
                    sm_number := Contact.number (Schedule.contact schedule);
                    sm_body := Schedule.body schedule;
                    sm_returned := sendMessage e |}]
           else [])%list.
Proof.
  cbv zeta.
  unfold handleSendScheduledMessage, bind, try_catch, query, SendMessage,
    update_if_fetched, await_ok, modify, throw, ret, outcome, world_after.
  destruct (findByPk_answers e), (getDefaultWhatsApp e), (sendMessage e);
    try destruct (findSchedule w (Schedule.id schedule)) as [record|];
    cbn; rewrite ?app_nil_r;
    (split; [intros [H|H]; try discriminate H; split; reflexivity|]);
    (split; [intros H1 H2; try discriminate H1; try discriminate H2;
             split; reflexivity|]);
    reflexivity.
Qed.

(** The handler on the promoted schedule, the send failing after a re-fetch
    that answered. *)
Lemma scheduled_send_marks_the_fetched_record_witness :
  outcome
    (handleSendScheduledMessage
       {| send_now := 1700000070123; findByPk_answers := true;
          getDefaultWhatsApp := true; sendMessage := false |}
       (demoSchedule 1 1700000030000 AGENDADA) promotedWorld)
  = Threw "SendMessage"
  /\ schedules
       (world_after
          (handleSendScheduledMessage
             {| send_now := 1700000070123; findByPk_answers := true;
                getDefaultWhatsApp := true; sendMessage := false |}
             (demoSchedule 1 1700000030000 AGENDADA) promotedWorld))
     = [demoSchedule 1 1700000030000 ERRO].
Proof.
  apply (proj1 (scheduled_send_marks_the_fetched_record promotedWorld
                  {| send_now := 1700000070123; findByPk_answers := true;
                     getDefaultWhatsApp := true; sendMessage := false |}
                  (demoSchedule 1 1700000030000 AGENDADA))).
  right. reflexivity.
Defined.

(** C8, as stated, fails: when the re-fetch throws there is no record to
    update; a send that then fails leaves the schedule [AGENDADA], not
    [ERRO], and a send that succeeds leaves it [AGENDADA] with no sent
    timestamp, not [ENVIADA]. In both runs the message was handed to
    [SendMessage] with the payload's number and body. *)
Lemma refetch_failure_leaves_the_schedule_unmarked :
  let payload := demoSchedule 1 1700000030000 AGENDADA in
  let failing :=
    handleSendScheduledMessage
      {| send_now := 1700000070123; findByPk_answers := false;
         getDefaultWhatsApp := true; sendMessage := false |}
      payload promotedWorld in
  let sending :=
    handleSendScheduledMessage
      {| send_now := 1700000070123; findByPk_answers := false;
         getDefaultWhatsApp := true; sendMessage := true |}
      payload promotedWorld in
  outcome failing = Threw "SendMessage"
  /\ option_map Schedule.status (findSchedule (world_after failing) 1)
     = Some AGENDADA
  /\ outcome sending = Completed
  /\ findSchedule (world_after sending) 1 = Some payload
  /\ sentMessages (world_after sending)
     = [{| sm_companyId := 1; sm_number := "5511900000000";
           sm_body := "Lembrete: consulta amanha"; sm_returned := true |}].
Proof.
  vm_compute. repeat split; reflexivity.
Qed.

(** * Further properties of the handlers *)

(** ** Settings and message variants *)

Lemma applySetting_fields (acc : CampaignDelay) (s : Setting.t) :
  randomMessageInterval (applySetting acc s)
  = (if (Setting.key s =? "randomMessageInterval")%string
     then Setting.value s else randomMessageInterval acc)
  /\ longerIntervalAfter (applySetting acc s)
     = (if (Setting.key s =? "longerIntervalAfter")%string
        then Setting.value s else longerIntervalAfter acc)
  /\ greaterInterval (applySetting acc s)
     = (if (Setting.key s =? "greaterInterval")%string
        then Setting.value s else greaterInterval acc)
  /\ fixedMessageInterval (applySetting acc s)
     = (if (Setting.key s =? "fixedMessageInterval")%string
        then Setting.value s else fixedMessageInterval acc).
Proof.
  unfold applySetting.
  destruct (Setting.key s =? "randomMessageInterval")%string;
    destruct (Setting.key s =? "fixedMessageInterval")%string;
    destruct (Setting.key s =? "longerIntervalAfter")%string;
    destruct (Setting.key s =? "greaterInterval")%string;
    repeat split; reflexivity.
Qed.

(** The settings after the rows [rows] of all companies, read for the
    company [companyId] from the values [acc]: every field is the value of
    the last row of the company with its key, or the value in [acc]. *)
Lemma fold_applySetting (companyId : Z) (rows : list Setting.t)
    (acc : CampaignDelay) :
  let result :=
    fold_left applySetting
      (filter (fun s => Setting.companyId s =? companyId) rows) acc in
  let pick key dflt :=
    match lastSetting key companyId rows with
    | Some v => v
    | None => dflt
    end in
  randomMessageInterval result
  = pick "randomMessageInterval" (randomMessageInterval acc)
  /\ longerIntervalAfter result
     = pick "longerIntervalAfter" (longerIntervalAfter acc)
  /\ greaterInterval result
     = pick "greaterInterval" (greaterInterval acc)
  /\ fixedMessageInterval result
     = pick "fixedMessageInterval" (fixedMessageInterval acc).
Proof.
  cbv zeta. unfold lastSetting.
  induction rows as [|s rows IH] using rev_ind.
  - repeat split.
  - rewrite filter_app, !fold_left_app. cbn [filter fold_left].
    destruct IH as (I1 & I2 & I3 & I4).
    destruct (Setting.companyId s =? companyId); cbn [fold_left andb app];
      [|repeat split; assumption].
    destruct (applySetting_fields
                (fold_left applySetting
                   (filter (fun s0 => Setting.companyId s0 =? companyId) rows)
                   acc) s) as (-> & -> & -> & ->).
    destruct (Setting.key s =? "randomMessageInterval")%string;
      destruct (Setting.key s =? "fixedMessageInterval")%string;
      destruct (Setting.key s =? "longerIntervalAfter")%string;
      destruct (Setting.key s =? "greaterInterval")%string;
      repeat split; assumption.
Qed.

(** X1. [getSettings]: each pacing setting of a campaign is the value of the last
    row of its company that has the key of the setting, and the default when
    the company has no such row; rows of other companies and rows with other
    keys play no role. *)
Theorem getSettings_last_row_or_default (w : World) (c : Campaign.t) :
  let pick key dflt :=
    match lastSetting key (Campaign.companyId c) (settings w) with
    | Some v => v
    | None => dflt
    end in
  getSettings w c
  = {| randomMessageInterval := pick "randomMessageInterval" 20;
       longerIntervalAfter := pick "longerIntervalAfter" 20;
       greaterInterval := pick "greaterInterval" 60;
       fixedMessageInterval := pick "fixedMessageInterval" 0 |}.
Proof.
  cbv zeta. unfold getSettings.
  destruct (fold_applySetting (Campaign.companyId c) (settings w)
              campaignDelayDefaults) as (H1 & H2 & H3 & H4).
  cbv zeta in H1, H2, H3, H4.
  destruct (fold_left applySetting _ campaignDelayDefaults)
    as [r l g f].
  cbn in H1, H2, H3, H4. subst. reflexivity.
Qed.

Lemma fold_push_present (texts : list (option string)) :
  forall acc, fold_left push_present texts acc = (acc ++ presentTexts texts)%list.
Proof.
  induction texts as [|m texts IH]; intros acc; cbn [fold_left presentTexts
    flat_map].
  - rewrite app_nil_r. reflexivity.
  - rewrite IH. unfold push_present, Js.present.
    destruct m as [t|]; [|reflexivity].
    destruct (t =? "")%string; cbn [negb app];
      [reflexivity | rewrite <- app_assoc; reflexivity].
Qed.

Lemma presentTexts_In (texts : list (option string)) (m : string) :
  In m (presentTexts texts) <-> m <> "" /\ In (Some m) texts.
Proof.
  unfold presentTexts. rewrite in_flat_map. split.
  - intros (o & Hin & Hm). destruct o as [t|]; [|destruct Hm].
    destruct (String.eqb_spec t "") as [E|N]; [destruct Hm|].
    destruct Hm as [<-|[]]. split; assumption.
  - intros [N Hin]. exists (Some m). split; [exact Hin|].
    destruct (String.eqb_spec m "") as [E|_]; [contradiction|].
    left. reflexivity.
Qed.

Lemma presentTexts_length (texts : list (option string)) :
  (List.length (presentTexts texts) <= List.length texts)%nat.
Proof.
  induction texts as [|m texts IH]; cbn [presentTexts flat_map List.length];
    [apply Nat.le_refl|].
  rewrite length_app. fold (presentTexts texts).
  destruct m as [t|]; [destruct (t =? "")%string|]; cbn [List.length]; lia.
Qed.

(** X2. [getCampaignValidMessages] and [getCampaignValidConfirmationMessages]
    return the configured variants that are neither null nor empty, in the
    order 1 to 5: at most five texts, none of them empty, and a text is
    returned exactly when one of the five columns holds it. *)
Theorem valid_messages_are_the_present_variants (c : Campaign.t) :
  let columns :=
    [Campaign.message1 c; Campaign.message2 c; Campaign.message3 c;
     Campaign.message4 c; Campaign.message5 c] in
  let confirmationColumns :=
    [Campaign.confirmationMessage1 c; Campaign.confirmationMessage2 c;
     Campaign.confirmationMessage3 c; Campaign.confirmationMessage4 c;
     Campaign.confirmationMessage5 c] in
  getCampaignValidMessages c = presentTexts columns
  /\ getCampaignValidConfirmationMessages c = presentTexts confirmationColumns
  /\ (forall m, In m (getCampaignValidMessages c)
                <-> m <> "" /\ In (Some m) columns)
  /\ (forall m, In m (getCampaignValidConfirmationMessages c)
                <-> m <> "" /\ In (Some m) confirmationColumns)
  /\ (List.length (getCampaignValidMessages c) <= 5)%nat
  /\ (List.length (getCampaignValidConfirmationMessages c) <= 5)%nat.
Proof.
  cbv zeta.
  unfold getCampaignValidMessages, getCampaignValidConfirmationMessages.
  rewrite !fold_push_present. cbn [app].
  split; [reflexivity|]. split; [reflexivity|].
  split; [intros m; apply presentTexts_In|].
  split; [intros m; apply presentTexts_In|].
  split; apply (presentTexts_length [_; _; _; _; _]).
Qed.

(** Replacing a pattern that does not occur changes nothing. *)
Lemma replace_all_absent (pat rep s : string) :
  Js.includes pat s = false -> Js.replace_all pat rep s = s.
Proof.
  unfold Js.replace_all. generalize EmptyString as before.
  induction s as [|ch s IH]; intros before; [reflexivity|].
  cbn [Js.includes Js.replace_from].
  destruct (prefix pat (String ch s)); [discriminate|].
  intros H. rewrite (IH _ H). reflexivity.
Qed.

(** X3. [getProcessedMessage] is the three substitutions one after the other,
    [{nome}], then [{email}], then [{numero}]: the [includes] tests change
    nothing, and what an earlier substitution inserts is seen by the later
    ones. *)
Theorem getProcessedMessage_substitutes_in_sequence (msg : string)
    (contact : Contact.t) :
  getProcessedMessage msg contact
  = Js.replace_all "{numero}" (Contact.number contact)
      (Js.replace_all "{email}" (Contact.email contact)
         (Js.replace_all "{nome}" (Contact.name contact) msg)).
Proof.
  unfold getProcessedMessage.
  destruct (Js.includes "{nome}" msg) eqn:E1;
    [|rewrite (replace_all_absent _ (Contact.name contact) _ E1)].
  - destruct (Js.includes "{email}" _) eqn:E2;
      [|rewrite (replace_all_absent _ (Contact.email contact) _ E2)];
      (destruct (Js.includes "{numero}" _) eqn:E3;
       [|rewrite (replace_all_absent _ (Contact.number contact) _ E3)]);
      reflexivity.
  - destruct (Js.includes "{email}" msg) eqn:E2;
      [|rewrite (replace_all_absent _ (Contact.email contact) _ E2)];
      (destruct (Js.includes "{numero}" _) eqn:E3;
       [|rewrite (replace_all_absent _ (Contact.number contact) _ E3)]);
      reflexivity.
Qed.

(** X4. [randomValue(min, max)] returns an integer of [[min, min + max)]: [max]
    is the number of values, not the largest of them. Both ends are reached,
    by the smallest and by the largest draw. *)
Theorem randomValue_spans_max_values_from_min (min max : Z) :
  0 < max -> max <= Js.random_den ->
  (forall u, Js.valid_draw u -> min <= randomValue u min max < min + max)
  /\ (exists u, Js.valid_draw u /\ randomValue u min max = min)
  /\ (exists u, Js.valid_draw u /\ randomValue u min max = min + max - 1).
Proof.
  intros Hpos Hmax.
  assert (Hden : 0 < Js.random_den) by reflexivity.
  split; [intros u Hu; apply randomValue_range; assumption|]. split.
  - exists 0. split; [split; [apply Z.le_refl|exact Hden]|].
    unfold randomValue, Js.floor_random_times.
    rewrite Z.mul_0_l. reflexivity.
  - exists (Js.random_den - 1). split; [unfold Js.valid_draw; lia|].
    unfold randomValue. rewrite (floor_random_times_top max Hpos Hmax). lia.
Qed.

(** The witness: twenty values from zero. *)
Lemma randomValue_spans_max_values_from_min_witness :
  (forall u, Js.valid_draw u -> 0 <= randomValue u 0 20 < 0 + 20)
  /\ (exists u, Js.valid_draw u /\ randomValue u 0 20 = 0)
  /\ (exists u, Js.valid_draw u /\ randomValue u 0 20 = 0 + 20 - 1).
Proof.
  apply (randomValue_spans_max_values_from_min 0 20).
  - reflexivity.
  - vm_compute. discriminate.
Defined.

(** ** Rendering the texts of a recipient *)

(** With a draw of [Math.random()], the variant that is read exists. *)
Lemma pickMessage_valid (u : Z) (messages : list string) (contact : Contact.t)
    (w : World) :
  Js.valid_draw u ->
  exists r,
    pickMessage u messages contact w = (Ok r, w)
    /\ match r with
       | Some t =>
           exists m, In m messages
                     /\ t = (zwnj ++ getProcessedMessage m contact)%string
       | None => messages = []
       end.
Proof.
  intros Hu. unfold pickMessage.
  destruct messages as [|m0 rest]; [exists None; split; reflexivity|].
  set (n := Z.of_nat (List.length (m0 :: rest))).
  assert (Hn : 0 < n) by (unfold n; cbn [List.length]; lia).
  replace (0 <? n) with true by (symmetry; apply Z.ltb_lt; exact Hn).
  cbv zeta.
  pose proof (randomValue_range u 0 n Hu Hn) as R.
  unfold js_index.
  replace (randomValue u 0 n <? 0) with false
    by (symmetry; apply Z.ltb_ge; lia).
  destruct (nth_error (m0 :: rest) (Z.to_nat (randomValue u 0 n)))
    as [m|] eqn:En.
  - eexists. split; [reflexivity|]. exists m.
    split; [eapply nth_error_In; exact En | reflexivity].
  - apply nth_error_None in En. subst n. lia.
Qed.

(** X5. [handlePrepareContact], the rendering: with draws of [Math.random()] it
    does not throw and leaves the state alone; the number is that of the
    resolved contact; the message is the rendering, behind a zero-width
    non-joiner, of one of the valid variants, and is absent exactly when the
    campaign has no valid variant; the confirmation message likewise, and it
    is absent too when the campaign does not ask for confirmation. *)
Theorem rendering_picks_a_configured_variant (e : Env) (c : Campaign.t)
    (campaignId : Z) (item : ContactListItem.t) (contact : Contact.t)
    (w : World) :
  (forall k, Js.valid_draw (random e k)) ->
  exists v,
    renderShipping e c campaignId item contact w = (Ok v, w)
    /\ sv_number v = Contact.number contact
    /\ sv_contactId v = ContactListItem.id item
    /\ sv_campaignId v = campaignId
    /\ match sv_message v with
       | Some t =>
           exists m, In m (getCampaignValidMessages c)
                     /\ t = (zwnj ++ getProcessedMessage m contact)%string
       | None => getCampaignValidMessages c = []
       end
    /\ match sv_confirmationMessage v with
       | Some t =>
           Campaign.confirmation c = true
           /\ exists m, In m (getCampaignValidConfirmationMessages c)
                        /\ t = (zwnj ++ getProcessedMessage m contact)%string
       | None =>
           Campaign.confirmation c = false
           \/ getCampaignValidConfirmationMessages c = []
       end.
Proof.
  intros Hrnd. unfold renderShipping. cbv zeta. unfold bind.
  destruct (pickMessage_valid (random e 0) (getCampaignValidMessages c)
              contact w (Hrnd 0%nat)) as (r & -> & Hr).
  destruct (Campaign.confirmation c) eqn:Hconf.
  - match goal with
    | |- context [pickMessage (random e ?k) ?ms contact w] =>
        destruct (pickMessage_valid (random e k) ms contact w (Hrnd k))
          as (r' & -> & Hr')
    end.
    eexists. split; [reflexivity|]. cbn [sv_number sv_contactId sv_campaignId
      sv_message sv_confirmationMessage].
    repeat split; try exact Hr.
    destruct r' as [t|]; [split; [reflexivity|exact Hr'] | right; exact Hr'].
  - eexists. split; [reflexivity|]. cbn [sv_number sv_contactId sv_campaignId
      sv_message sv_confirmationMessage].
    repeat split; try exact Hr. left. reflexivity.
Qed.

(** The rendering for the first recipient of the demonstration campaign. *)
Lemma rendering_picks_a_configured_variant_witness :
  exists v,
    renderShipping (allGood 0 1)
      (demoCampaign 1 PROGRAMADA true (recipients 1)) 1 (recipient 1)
      (contactOf 1) emptyWorld = (Ok v, emptyWorld)
    /\ sv_number v = "5511900000000"
    /\ sv_contactId v = 1
    /\ sv_campaignId v = 1
    /\ match sv_message v with
       | Some t =>
           exists m,
             In m (getCampaignValidMessages
                     (demoCampaign 1 PROGRAMADA true (recipients 1)))
             /\ t = (zwnj ++ getProcessedMessage m (contactOf 1))%string
       | None =>
           getCampaignValidMessages
             (demoCampaign 1 PROGRAMADA true (recipients 1)) = []
       end
    /\ match sv_confirmationMessage v with
       | Some t =>
           true = true
           /\ exists m,
                In m (getCampaignValidConfirmationMessages
                        (demoCampaign 1 PROGRAMADA true (recipients 1)))
                /\ t = (zwnj ++ getProcessedMessage m (contactOf 1))%string
       | None =>
           true = false
           \/ getCampaignValidConfirmationMessages
                (demoCampaign 1 PROGRAMADA true (recipients 1)) = []
       end.
Proof.
  apply (rendering_picks_a_configured_variant (allGood 0 1)
           (demoCampaign 1 PROGRAMADA true (recipients 1)) 1 (recipient 1)
           (contactOf 1) emptyWorld).
  intro k. apply Z.mod_pos_bound. reflexivity.
Defined.

(** ** A campaign that is not there *)

Lemma getCampaign_missing (w : World) (id : Z) :
  (forall c, In c (campaigns w) -> Campaign.id c <> id) ->
  getCampaign w id = None.
Proof.
  intros H. unfold getCampaign.
  destruct (find _ (campaigns w)) as [c|] eqn:E; [|reflexivity].
  apply find_some in E. destruct E as [Hin E]. apply Z.eqb_eq in E.
  destruct (H c Hin E).
Qed.

(** X6. When no campaign row has the id of the job, each of the three campaign
    handlers throws ["Campanha não identificada"] and changes nothing: no
    row, no job, no message, no notification. *)
Theorem missing_campaign_is_rethrown (w : World) (e : Env) (id : Z) :
  (forall c, In c (campaigns w) -> Campaign.id c <> id) ->
  (forall delay,
     handleProcessCampaign e id delay w
     = (Thrown "Campanha não identificada", w))
  /\ (forall contactListItemId delay,
        handlePrepareContact e contactListItemId id delay w
        = (Thrown "Campanha não identificada", w))
  /\ (forall contactId campaignShippingId,
        handleDispatchCampaign e contactId id campaignShippingId w
        = (Thrown "Campanha não identificada", w)).
Proof.
  intros H. apply getCampaign_missing in H.
  unfold handleProcessCampaign, handlePrepareContact, handleDispatchCampaign,
    loadCampaign, bind, query.
  rewrite H. repeat split.
Qed.

(** In a state without campaigns. *)
Lemma missing_campaign_is_rethrown_witness :
  handleProcessCampaign (allGood 0 1) 1 0 emptyWorld
  = (Thrown "Campanha não identificada", emptyWorld).
Proof.
  refine (proj1 (missing_campaign_is_rethrown emptyWorld (allGood 0 1) 1 _) 0).
  intros c [].
Defined.

(** ** The orchestrator on any campaign *)

(** What [getCampaign] loads for the row it finds. *)
Lemma getCampaign_found (w : World) (id : Z) (row : Campaign.t) :
  find (fun c => Campaign.id c =? id) (campaigns w) = Some row ->
  getCampaign w id
  = Some (Campaign.set_contacts (validContacts (Campaign.contacts row)) row).
Proof. intros H. unfold getCampaign. rewrite H. reflexivity. Qed.

(** The list that is loaded is not empty and holds valid items of the
    stored list. *)
Lemma validContacts_some (stored : option (list ContactListItem.t))
    (l : list ContactListItem.t) :
  validContacts stored = Some l ->
  l <> []
  /\ exists items, stored = Some items
                   /\ l = filter ContactListItem.isWhatsappValid items.
Proof.
  unfold validContacts. destruct stored as [items|]; [|discriminate].
  destruct (filter ContactListItem.isWhatsappValid items) as [|x rest] eqn:E;
    [discriminate|].
  intros H. injection H as <-. split; [discriminate|].
  exists items. split; [reflexivity | symmetry; exact E].
Qed.

(** X7. [handleProcessCampaign], once the campaign row is found, always
    returns, the error of a contact list that is not loaded being caught and
    not rethrown, and it writes no shipping record and sends nothing. When
    the campaign has a list with at least one valid item, it sets the
    campaign to [EM_ANDAMENTO] whatever its status was, a finished campaign
    included, and enqueues one job per valid item. When the campaign has no
    list, or a list without a valid item, it sets the campaign to
    [FINALIZADA_COM_ERROS], with the completion time, and enqueues
    nothing. *)
Theorem orchestrator_returns_and_marks_the_campaign (w : World) (e : Env)
    (id delay : Z) (row : Campaign.t) :
  find (fun c => Campaign.id c =? id) (campaigns w) = Some row ->
  let r := handleProcessCampaign e id delay w in
  let w' := world_after r in
  outcome r = Completed
  /\ shippings w' = shippings w
  /\ wbotSent w' = wbotSent w
  /\ match validContacts (Campaign.contacts row) with
     | Some l =>
         l <> []
         /\ campaigns w'
            = map (fun stored =>
                     if Campaign.id stored =? id
                     then Campaign.set_status EM_ANDAMENTO stored else stored)
                  (campaigns w)
         /\ List.length (enqueued w w') = List.length l
     | None =>
         campaigns w'
         = map (fun stored =>
                  if Campaign.id stored =? id
                  then Campaign.set_completed FINALIZADA_COM_ERROS (now e)
                         stored
                  else stored)
               (campaigns w)
         /\ enqueued w w' = []
     end.
Proof.
  intros Hrow. cbv zeta.
  pose proof (getCampaign_found w id row Hrow) as Hc.
  pose proof (getCampaign_id w id _ Hc) as Hid.
  unfold handleProcessCampaign, loadCampaign, try_catch, bind, query.
  rewrite Hc. cbn [ret Campaign.contacts Campaign.set_contacts].
  destruct (validContacts (Campaign.contacts row)) as [l|] eqn:Hv.
  - rewrite fanOut_run. unfold outcome, world_after, enqueued.
    cbn [campaign_update ret fst snd campaigns shippings wbotSent
      campaignQueue with_campaigns with_campaignQueue].
    rewrite Hid, jobs_since_app, fanOutJobs_length.
    repeat split. apply (validContacts_some _ _ Hv).
  - unfold outcome, world_after, enqueued.
    cbn [campaign_update throw ret fst snd campaigns shippings wbotSent
      campaignQueue with_campaigns].
    rewrite Hid, jobs_since_same.
    repeat split.
Qed.

(** The orchestrator on the campaign whose list has no valid item. *)
Lemma orchestrator_returns_and_marks_the_campaign_witness :
  (outcome (handleProcessCampaign (allGood 591000 1) 1 9999 noRecipientWorld)
   = Completed
   /\ campaigns
        (world_after
           (handleProcessCampaign (allGood 591000 1) 1 9999 noRecipientWorld))
      = [Campaign.set_completed FINALIZADA_COM_ERROS 591000
           (demoCampaign 1 PROGRAMADA false [invalidRecipient 1])]
   /\ enqueued noRecipientWorld
        (world_after
           (handleProcessCampaign (allGood 591000 1) 1 9999 noRecipientWorld))
      = [])
  /\ (outcome (handleProcessCampaign (allGood 591000 1) 1 9999 dueWorld)
      = Completed
      /\ campaigns
           (world_after
              (handleProcessCampaign (allGood 591000 1) 1 9999 dueWorld))
         = [Campaign.set_status EM_ANDAMENTO
              (demoCampaign 1 PROGRAMADA false (recipients 2))]
      /\ List.length
           (enqueued dueWorld
              (world_after
                 (handleProcessCampaign (allGood 591000 1) 1 9999 dueWorld)))
         = 2%nat).
Proof.
  split.
  - destruct (orchestrator_returns_and_marks_the_campaign noRecipientWorld
                (allGood 591000 1) 1 9999
                (demoCampaign 1 PROGRAMADA false [invalidRecipient 1]) eq_refl)
      as (Hout & _ & _ & Hrows & Hjobs).
    split; [exact Hout|]. split; [exact Hrows | exact Hjobs].
  - destruct (orchestrator_returns_and_marks_the_campaign dueWorld
                (allGood 591000 1) 1 9999
                (demoCampaign 1 PROGRAMADA false (recipients 2)) eq_refl)
      as (Hout & _ & _ & _ & Hrows & Hjobs).
    split; [exact Hout|]. split; [exact Hrows | exact Hjobs].
Defined.

(** What the loop adds to the delay is not negative when the settings are
    not. *)
Lemma advance_nonneg (s : CampaignDelay) (index u : Z) :
  0 <= greaterInterval s -> 0 <= fixedMessageInterval s ->
  0 <= randomMessageInterval s -> Js.valid_draw u ->
  0 <= advance s index u.
Proof.
  intros Hg Hf Hr Hu.
  unfold advance, parseToMilliseconds, Js.or_num, Js.truthy_num.
  destruct (Js.rem_is_zero index (longerIntervalAfter s)).
  - destruct (Z.eqb_spec (greaterInterval s) 0); lia.
  - destruct (Z.eqb_spec (fixedMessageInterval s) 0); cbn [negb]; [|lia].
    assert (Hm : 0 < (if randomMessageInterval s =? 0 then 20
                      else randomMessageInterval s))
      by (destruct (Z.eqb_spec (randomMessageInterval s) 0); lia).
    pose proof (randomValue_range u 0 _ Hu Hm). lia.
Qed.

(** X8. [handleProcessCampaign], the pacing: when no setting of the company is
    negative, the delays of the jobs never decrease along the recipient
    list, and none is below the delay of the [ProcessCampaign] job. *)
Theorem orchestrator_delays_never_decrease (w : World) (e : Env) (id d0 : Z)
    (c : Campaign.t) (l : list ContactListItem.t) :
  getCampaign w id = Some c ->
  Campaign.contacts c = Some l ->
  0 <= greaterInterval (getSettings w c) ->
  0 <= fixedMessageInterval (getSettings w c) ->
  0 <= randomMessageInterval (getSettings w c) ->
  (forall k, Js.valid_draw (random e k)) ->
  let delays :=
    map delayOf (enqueued w (world_after (handleProcessCampaign e id d0 w))) in
  forall i j : nat,
    (i <= j < List.length l)%nat ->
    d0 <= nth i delays 0 <= nth j delays 0.
Proof.
  intros Hc Hl Hg Hf Hr Hrnd delays.
  assert (Hstep : forall i : nat, (S i < List.length l)%nat ->
                    nth i delays 0 <= nth (S i) delays 0).
  { intros i Hi.
    destruct (handleProcessCampaign_advance w e id d0 c l (S i) Hc Hl)
      as [k Hk]; [lia|].
    fold delays in Hk. replace (S i - 1)%nat with i in Hk by lia.
    pose proof (advance_nonneg (getSettings w c) (Z.of_nat (S i))
                  (random e k) Hg Hf Hr (Hrnd k)).
    lia. }
  assert (Hfirst : l <> [] -> nth 0 delays 0 = d0).
  { intros Hne. unfold delays.
    destruct (handleProcessCampaign_fans_out w e id d0 c l Hc Hl) as [_ ->].
    apply fanOutJobs_first. exact Hne. }
  assert (Hfrom : forall i j : nat, (i <= j < List.length l)%nat ->
                    nth i delays 0 <= nth j delays 0).
  { intros i j. induction j as [|j IH]; intros Hij.
    - replace i with 0%nat by lia. lia.
    - destruct (Nat.eq_dec i (S j)) as [->|Hne]; [lia|].
      transitivity (nth j delays 0); [apply IH; lia | apply Hstep; lia]. }
  intros i j Hij. split; [|apply Hfrom; exact Hij].
  rewrite <- Hfirst; [apply Hfrom; lia|].
  intros ->. cbn [List.length] in Hij. lia.
Qed.

(** The campaign of 21 recipients under the default settings. *)
Lemma orchestrator_delays_never_decrease_witness :
  let delays :=
    map delayOf
      (enqueued pacingWorld
         (world_after (handleProcessCampaign (allGood 0 1) 1 0 pacingWorld))) in
  0 <= nth 3 delays 0 <= nth 17 delays 0.
Proof.
  refine (orchestrator_delays_never_decrease pacingWorld (allGood 0 1) 1 0
            (demoCampaign 1 PROGRAMADA false (recipients 21)) (recipients 21)
            _ _ _ _ _ _ 3%nat 17%nat _).
  - reflexivity.
  - reflexivity.
  - vm_compute. discriminate.
  - vm_compute. discriminate.
  - vm_compute. discriminate.
  - intro k. apply Z.mod_pos_bound. reflexivity.
  - vm_compute. lia.
Defined.

(** The multiples of [n] up to [a + 1]. *)
Lemma div_succ (a n : Z) :
  0 <= a -> 0 < n ->
  (a + 1) / n = a / n + (if Js.rem_is_zero (a + 1) n then 1 else 0).
Proof.
  intros Ha Hn. unfold Js.rem_is_zero.
  replace (n =? 0) with false by (symmetry; apply Z.eqb_neq; lia).
  rewrite Z.rem_mod_nonneg by lia.
  pose proof (Z.div_mod a n ltac:(lia)) as Hdm.
  pose proof (Z.mod_pos_bound a n Hn) as Hb.
  destruct (Z.eq_dec (a mod n + 1) n) as [E|N].
  - assert (Hx : a + 1 = n * (a / n + 1) + 0) by lia.
    rewrite <- (Z.mod_unique_pos (a + 1) n (a / n + 1) 0); [|lia|exact Hx].
    rewrite <- (Z.div_unique_pos (a + 1) n (a / n + 1) 0); [|lia|exact Hx].
    reflexivity.
  - assert (Hx : a + 1 = n * (a / n) + (a mod n + 1)) by lia.
    rewrite <- (Z.mod_unique_pos (a + 1) n (a / n) (a mod n + 1));
      [|lia|exact Hx].
    rewrite <- (Z.div_unique_pos (a + 1) n (a / n) (a mod n + 1));
      [|lia|exact Hx].
    replace (a mod n + 1 =? 0) with false by (symmetry; apply Z.eqb_neq; lia).
    lia.
Qed.

(** X9. [handleProcessCampaign], the pacing with a fixed interval: when
    [fixedMessageInterval] is [f], not zero, and [longerIntervalAfter] is
    [n > 0], the job of the recipient number [k], counted from 0, carries the
    delay of the [ProcessCampaign] job plus one cooldown for each of the
    [k / n] multiples of [n] up to [k] and [f] seconds for each other
    recipient before it; no random draw plays a role. *)
Theorem orchestrator_fixed_interval_schedule (w : World) (e : Env) (id d0 : Z)
    (c : Campaign.t) (l : list ContactListItem.t) :
  getCampaign w id = Some c ->
  Campaign.contacts c = Some l ->
  0 < longerIntervalAfter (getSettings w c) ->
  fixedMessageInterval (getSettings w c) <> 0 ->
  let s := getSettings w c in
  let cooldown := if greaterInterval s =? 0 then 60 else greaterInterval s in
  let delays :=
    map delayOf (enqueued w (world_after (handleProcessCampaign e id d0 w))) in
  forall k : nat,
    (k < List.length l)%nat ->
    let cooldowns := Z.of_nat k / longerIntervalAfter s in
    nth k delays 0
    = d0 + 1000 * (cooldown * cooldowns
                   + fixedMessageInterval s * (Z.of_nat k - cooldowns)).
Proof.
  intros Hc Hl Hn Hf s cooldown delays k. cbv zeta.
  induction k as [|k IH]; intros Hk.
  - unfold delays.
    destruct (handleProcessCampaign_fans_out w e id d0 c l Hc Hl) as [_ ->].
    rewrite fanOutJobs_first by (intros ->; cbn [List.length] in Hk; lia).
    cbn [Z.of_nat]. rewrite Z.div_0_l by (unfold s; lia). lia.
  - destruct (handleProcessCampaign_advance w e id d0 c l (S k) Hc Hl)
      as [d Hd]; [lia|].
    fold delays s in Hd. replace (S k - 1)%nat with k in Hd by lia.
    rewrite IH in Hd by lia.
    rewrite Nat2Z.inj_succ. unfold Z.succ.
    rewrite (div_succ (Z.of_nat k) (longerIntervalAfter s)) by (unfold s; lia).
    rewrite Nat2Z.inj_succ in Hd. unfold Z.succ in Hd.
    unfold advance, parseToMilliseconds, Js.or_num, Js.truthy_num in Hd.
    fold cooldown in Hd.
    replace (fixedMessageInterval s =? 0) with false in Hd
      by (symmetry; apply Z.eqb_neq; exact Hf).
    cbn [negb] in Hd.
    destruct (Js.rem_is_zero (Z.of_nat k + 1) (longerIntervalAfter s)); lia.
Qed.

(** The campaign of five recipients paced by 5 s, with 60 s after every
    second message: the delays are 0, 5, 65, 70 and 130 seconds; here the
    last of them. *)
Lemma orchestrator_fixed_interval_schedule_witness :
  nth 4
      (map delayOf
         (enqueued fixedPaceWorld
            (world_after
               (handleProcessCampaign (allGood 0 1) 1 0 fixedPaceWorld)))) 0
  = 0 + 1000 * (60 * (4 / 2) + 5 * (4 - 4 / 2)).
Proof.
  refine (orchestrator_fixed_interval_schedule fixedPaceWorld (allGood 0 1)
            1 0 (demoCampaign 1 PROGRAMADA false (recipients 5)) (recipients 5)
            _ _ _ _ 4%nat _).
  - reflexivity.
  - reflexivity.
  - reflexivity.
  - vm_compute. discriminate.
  - vm_compute. lia.
Defined.

(** ** When the preparer fails *)

Lemma renderShipping_returns (e : Env) (c : Campaign.t) (campaignId : Z)
    (item : ContactListItem.t) (contact : Contact.t) (w : World) :
  (forall k, Js.valid_draw (random e k)) ->
  exists v, renderShipping e c campaignId item contact w = (Ok v, w).
Proof.
  intros Hrnd. unfold renderShipping. cbv zeta. unfold bind.
  destruct (pickMessage_valid (random e 0) (getCampaignValidMessages c)
              contact w (Hrnd 0%nat)) as (r & -> & _).
  destruct (Campaign.confirmation c).
  - match goal with
    | |- context [pickMessage (random e ?k) ?ms contact w] =>
        destruct (pickMessage_valid (random e k) ms contact w (Hrnd k))
          as (r' & -> & _)
    end.
    eexists. reflexivity.
  - eexists. reflexivity.
Qed.

(** The idempotency block does not throw. *)
Lemma bookDispatch_total (c : Campaign.t) (contact : Contact.t)
    (v : ShippingValues) (delay : Z) (w : World) :
  exists w1, bookDispatch c contact v delay w = (Ok tt, w1).
Proof.
  destruct (existingRecord (sv_campaignId v) (sv_contactId v) w) as [r|] eqn:Hr.
  - destruct (undeliveredUnconfirmed r) eqn:Hu.
    + eexists. apply (bookDispatch_pending c contact v delay w r Hr Hu).
    + eexists. apply (bookDispatch_settled c contact v delay w r Hr Hu).
  - eexists. apply (bookDispatch_created c contact v delay w Hr).
Qed.

(** The idempotency block writes no campaign row. *)
Lemma bookDispatch_campaigns c contact v delay (w : World) :
  campaigns (snd (bookDispatch c contact v delay w)) = campaigns w.
Proof.
  destruct (existingRecord (sv_campaignId v) (sv_contactId v) w) as [r|] eqn:Hr.
  - destruct (undeliveredUnconfirmed r) eqn:Hu.
    + rewrite (bookDispatch_pending c contact v delay w r Hr Hu). reflexivity.
    + rewrite (bookDispatch_settled c contact v delay w r Hr Hu). reflexivity.
  - rewrite (bookDispatch_created c contact v delay w Hr). reflexivity.
Qed.

(** X10. [handlePrepareContact], with draws of [Math.random()]: the run
    returns exactly when its three collaborators answer ([ShowService],
    [GetWhatsappWbot], [verifyContact]) and the contact list of the campaign
    is loaded. When a collaborator throws, the run throws
    ["Contato invalido"], whatever the error was; the campaign is set to
    [FINALIZADA_COM_ERROS] with the completion time; and no shipping record,
    job or notification is written. When the collaborators answer and the
    contact list is not loaded (the campaign has no list, or none of its
    items is valid any more), the evaluator throws after the dispatch was
    booked: the run throws ["Contato invalido"] and the campaign is set to
    [FINALIZADA_COM_ERROS] likewise. *)
Theorem preparer_outcome_by_collaborators_and_list (w : World) (e : Env)
    (itemId cid delay : Z) (c : Campaign.t) :
  getCampaign w cid = Some c ->
  (forall k, Js.valid_draw (random e k)) ->
  let r := handlePrepareContact e itemId cid delay w in
  let w' := world_after r in
  let answered :=
    isSome (showService e) && getWhatsappWbot e && isSome (verifyContact e) in
  let failed :=
    map (fun row =>
           if Campaign.id row =? cid
           then Campaign.set_completed FINALIZADA_COM_ERROS (now e) row
           else row)
        (campaigns w) in
  (answered = true -> Campaign.contacts c <> None -> outcome r = Completed)
  /\ (answered = true -> Campaign.contacts c = None ->
      outcome r = Threw "Contato invalido" /\ campaigns w' = failed)
  /\ (answered = false ->
      outcome r = Threw "Contato invalido"
      /\ campaigns w' = failed
      /\ sameShippingsAndJobs w w'
      /\ ioEvents w' = ioEvents w).
Proof.
  intros Hc Hrnd. cbv zeta.
  pose proof (getCampaign_id w cid c Hc) as Hid.
  unfold handlePrepareContact, loadCampaign, try_catch, bind, query, await,
    await_ok.
  rewrite Hc. cbn [ret].
  destruct (showService e) as [item|]; cbn [isSome andb ret throw];
    [destruct (getWhatsappWbot e); cbn [andb ret throw];
     [destruct (verifyContact e) as [contact|]; cbn [isSome ret throw]|]|].
  - destruct (renderShipping_returns e c cid item contact w Hrnd) as [v ->].
    pose proof (bookDispatch_campaigns c contact v delay w) as Hrows.
    destruct (bookDispatch_total c contact v delay w) as [w1 Hbook].
    rewrite Hbook in Hrows |- *. cbn [snd] in Hrows.
    destruct (Campaign.contacts c) as [l|] eqn:Hl.
    + split; [intros _ _|split; [intros _ N|]]; try discriminate.
      rewrite (verifyAndFinalizeCampaign_run w1 e c l Hl).
      destruct (_ =? _); reflexivity.
    + split; [intros _ N; contradiction|]. split; [intros _ _|discriminate].
      unfold verifyAndFinalizeCampaign. rewrite Hl.
      unfold outcome, world_after.
      cbn [throw campaign_update fst snd campaigns with_campaigns].
      rewrite Hid, Hrows. split; reflexivity.
  - split; [discriminate|]. split; [discriminate|intros _].
    unfold outcome, world_after, sameShippingsAndJobs.
    cbn [campaign_update fst snd campaigns with_campaigns].
    rewrite Hid. repeat split.
  - split; [discriminate|]. split; [discriminate|intros _].
    unfold outcome, world_after, sameShippingsAndJobs.
    cbn [campaign_update fst snd campaigns with_campaigns].
    rewrite Hid. repeat split.
  - split; [discriminate|]. split; [discriminate|intros _].
    unfold outcome, world_after, sameShippingsAndJobs.
    cbn [campaign_update fst snd campaigns with_campaigns].
    rewrite Hid. repeat split.
Qed.

(** The preparation of the single recipient of [soloWorld]. *)
Lemma preparer_outcome_by_collaborators_and_list_witness :
  outcome (handlePrepareContact (allGood 592000 1) 1 1 9999 fannedOutWorld)
  = Completed
  /\ (outcome
        (handlePrepareContact (allGood 592000 1) 1 1 9999 noRecipientWorld)
      = Threw "Contato invalido"
      /\ campaigns
           (world_after
              (handlePrepareContact (allGood 592000 1) 1 1 9999
                 noRecipientWorld))
         = map (fun row =>
                  if Campaign.id row =? 1
                  then Campaign.set_completed FINALIZADA_COM_ERROS 592000 row
                  else row)
               (campaigns noRecipientWorld))
  /\ (outcome
        (handlePrepareContact (contactUnknown 592000 1) 1 1 9999
           fannedOutWorld)
      = Threw "Contato invalido"
      /\ campaigns
           (world_after
              (handlePrepareContact (contactUnknown 592000 1) 1 1 9999
                 fannedOutWorld))
         = map (fun row =>
                  if Campaign.id row =? 1
                  then Campaign.set_completed FINALIZADA_COM_ERROS 592000 row
                  else row)
               (campaigns fannedOutWorld)
      /\ sameShippingsAndJobs fannedOutWorld
           (world_after
              (handlePrepareContact (contactUnknown 592000 1) 1 1 9999
                 fannedOutWorld))
      /\ ioEvents
           (world_after
              (handlePrepareContact (contactUnknown 592000 1) 1 1 9999
                 fannedOutWorld))
         = ioEvents fannedOutWorld).
Proof.
  split; [|split].
  - refine (proj1 (preparer_outcome_by_collaborators_and_list
                     fannedOutWorld (allGood 592000 1) 1 1 9999
                     (demoCampaign 1 EM_ANDAMENTO false (recipients 1))
                     _ _) _ _).
    + vm_compute. reflexivity.
    + intro k. apply Z.mod_pos_bound. reflexivity.
    + reflexivity.
    + discriminate.
  - refine (proj1 (proj2 (preparer_outcome_by_collaborators_and_list
                            noRecipientWorld (allGood 592000 1) 1 1 9999
                            (Campaign.set_contacts None
                               (demoCampaign 1 PROGRAMADA false
                                             [invalidRecipient 1]))
                            _ _)) _ _).
    + vm_compute. reflexivity.
    + intro k. apply Z.mod_pos_bound. reflexivity.
    + reflexivity.
    + reflexivity.
  - refine (proj2 (proj2 (preparer_outcome_by_collaborators_and_list
                            fannedOutWorld (contactUnknown 592000 1) 1 1 9999
                            (demoCampaign 1 EM_ANDAMENTO false (recipients 1))
                            _ _)) _).
    + vm_compute. reflexivity.
    + intro k. apply Z.mod_pos_bound. reflexivity.
    + reflexivity.
Defined.

(** ** When the dispatcher fails *)

(** The ticket stage returns or throws; it writes nothing. *)
Lemma openTicket_cases (e : Env) (w : World) :
  openTicket e w = (Ok tt, w) \/ exists msg, openTicket e w = (Thrown msg, w).
Proof.
  unfold openTicket, bind, await, await_ok.
  destruct (findOrCreateTicket e) as [[[] [t|]]|]; cbn;
    try (left; reflexivity); try (right; eexists; reflexivity);
    destruct (updateTicket e); cbn;
    try (left; reflexivity); right; eexists; reflexivity.
Qed.

(** The [catch] block of the send writes the campaign row and nothing
    else. *)
Lemma abortDispatch_world (e : Env) (c : Campaign.t) (w : World) :
  snd (abortDispatch e c w)
  = with_campaigns
      (map (fun row =>
              if Campaign.id row =? Campaign.id c
              then Campaign.set_completed FINALIZADA_COM_ERROS (now e) row
              else row)
           (campaigns w)) w.
Proof.
  unfold abortDispatch, closeTicket, bind, await, await_ok, throw.
  cbn [campaign_update].
  destruct (findOrCreateTicket e) as [[created [t|]]|]; cbn; try reflexivity.
  destruct (updateTicket e); reflexivity.
Qed.

(** The update of a failed dispatch overwrites a finalization made in the
    same run. *)
Lemma errors_over_finalized (at_ id : Z) (rows : list Campaign.t) :
  map (fun row => if Campaign.id row =? id
                  then Campaign.set_completed FINALIZADA_COM_ERROS at_ row
                  else row)
      (map (fun row => if Campaign.id row =? id
                       then Campaign.set_completed FINALIZADA at_ row
                       else row)
           rows)
  = map (fun row => if Campaign.id row =? id
                    then Campaign.set_completed FINALIZADA_COM_ERROS at_ row
                    else row)
        rows.
Proof.
  rewrite map_map. apply map_ext. intros row.
  destruct (Campaign.id row =? id) eqn:E; cbn [Campaign.set_completed
    Campaign.id]; rewrite E; reflexivity.
Qed.

(** A computation that throws has thrown in its first part or in what
    follows it. *)
Lemma bind_Thrown {A B} (m : M A) (k : A -> M B) (w w' : World)
    (msg : string) :
  bind m k w = (Thrown msg, w') ->
  m w = (Thrown msg, w')
  \/ exists a w1, m w = (Ok a, w1) /\ k a w1 = (Thrown msg, w').
Proof.
  unfold bind. destruct (m w) as [[a|msg0] w1]; intros H.
  - right. exists a, w1. split; [reflexivity | exact H].
  - left. injection H as -> ->. reflexivity.
Qed.

Lemma await_ok_Thrown (what : string) (returns : bool) (w w' : World)
    (msg : string) :
  await_ok what returns w = (Thrown msg, w') -> returns = false /\ w' = w.
Proof.
  destruct returns; cbn; intros H; inversion H; split; reflexivity.
Qed.

(** The media stage of the send returns, having sent the media message if
    there is one, or throws, having sent nothing. *)
Lemma media_stage (e : Env) (c : Campaign.t) (s : CampaignShipping.t)
    (w : World) :
  let stage :=
    (if negb (isConfirm c s) && Js.present (Campaign.mediaPath c)
     then
       options <- await "getMessageOptions" (getMessageOptions e) ;;
       if options : bool
       then wbot_sendMessage (sendMedia e)
              (CampaignShipping.number s ++ "@s.whatsapp.net")%string
              (Media (Campaign.mediaName c))
       else ret tt
     else ret tt) in
  (exists w1, stage w = (Ok tt, w1)
              /\ campaigns w1 = campaigns w
              /\ shippings w1 = shippings w
              /\ nextShippingId w1 = nextShippingId w
              /\ ioEvents w1 = ioEvents w
              /\ wbotSent w1 = (wbotSent w ++ mediaSent e c s)%list)
  \/ exists msg, stage w = (Thrown msg, w).
Proof.
  cbv zeta. unfold mediaSent, bind, await, wbot_sendMessage.
  destruct (negb (isConfirm c s) && Js.present (Campaign.mediaPath c)).
  - destruct (getMessageOptions e) as [[|]|]; cbn [ret throw].
    + destruct (sendMedia e); cbn [modify throw].
      * left. eexists. split; [reflexivity|]. repeat split.
      * right. eexists. reflexivity.
    + left. exists w. rewrite app_nil_r. repeat split.
    + right. eexists. reflexivity.
  - left. exists w. rewrite app_nil_r. repeat split.
Qed.

Lemma failedEarly_refl (w : World) : failedEarly w w.
Proof.
  repeat split. exists []. rewrite app_nil_r.
  split; [reflexivity | intros m []].
Qed.

Lemma mediaSent_is_media (e : Env) (c : Campaign.t) (s : CampaignShipping.t)
    (m : WbotMessage) :
  In m (mediaSent e c s) -> exists name, wm_content m = Media name.
Proof.
  unfold mediaSent.
  destruct (negb (isConfirm c s) && Js.present (Campaign.mediaPath c));
    [|intros []].
  destruct (getMessageOptions e) as [[|]|]; cbn [In].
  - intros [<-|[]]. eexists. reflexivity.
  - intros [].
  - intros [].
Qed.

(** A send that throws has failed early or late, and in both cases the
    update of the [catch] block makes the campaign rows what it makes them
    of the rows before the send. *)
Lemma sendCampaignMessage_throws (e : Env) (c : Campaign.t) (sid : Z)
    (w w1 : World) (msg : string) :
  sendCampaignMessage e c sid w = (Thrown msg, w1) ->
  map (fun row =>
         if Campaign.id row =? Campaign.id c
         then Campaign.set_completed FINALIZADA_COM_ERROS (now e) row
         else row) (campaigns w1)
  = map (fun row =>
           if Campaign.id row =? Campaign.id c
           then Campaign.set_completed FINALIZADA_COM_ERROS (now e) row
           else row) (campaigns w)
  /\ (failedEarly w w1 \/ failedLate e c sid w w1).
Proof.
  intros H. unfold sendCampaignMessage in H.
  apply bind_Thrown in H. destruct H as [H|(found & w0 & H0 & H)];
    [discriminate H|].
  unfold query in H0. injection H0 as <- <-.
  apply bind_Thrown in H. destruct H as [H|(u & w0 & H0 & H)].
  { apply await_ok_Thrown in H. destruct H as [_ ->].
    split; [reflexivity | left; apply failedEarly_refl]. }
  apply await_ok_Ok in H0. destruct H0 as [_ ->].
  apply bind_Thrown in H. destruct H as [H|(s & w0 & H0 & H)].
  { destruct (findShipping w sid); [discriminate H|].
    injection H as _ <-.
    split; [reflexivity | left; apply failedEarly_refl]. }
  apply await_Ok in H0. destruct H0 as [Hs ->].
  cbv zeta in H.
  apply bind_Thrown in H.
  destruct (media_stage e c s w)
    as [(wm & Hstage & Ec & Es & En & Ei & Ew)|[msg0 Hstage]];
    cbv zeta in Hstage.
  2:{ destruct H as [H|(u1 & w0 & H0 & _)];
        [|rewrite Hstage in H0; discriminate H0].
      rewrite Hstage in H. injection H as _ <-.
      split; [reflexivity | left; apply failedEarly_refl]. }
  destruct H as [H|(u1 & w0 & H0 & H)];
    [rewrite Hstage in H; discriminate H|].
  rewrite Hstage in H0. injection H0 as _ E0. subst w0.
  apply bind_Thrown in H. destruct H as [H|(u2 & w2 & Htext & H)].
  { unfold wbot_sendMessage in H.
    destruct (sendText e); [discriminate H|]. injection H as _ E.
    subst w1. rewrite Ec. split; [reflexivity|]. left.
    split; [exact Es|]. split; [exact Ei|].
    exists (mediaSent e c s). split; [exact Ew | apply mediaSent_is_media]. }
  apply wbot_sendMessage_Ok in Htext. destruct Htext as [_ ->].
  apply bind_Thrown in H. destruct H as [H|(s' & w3 & Hupd & H)];
    [discriminate H|].
  cbn [shipping_update] in Hupd. injection Hupd as _ <-.
  assert (Hlate : forall w4 : World,
             shippings w4
             = map (fun row =>
                      if CampaignShipping.id row =? CampaignShipping.id s
                      then (if isConfirm c s
                            then CampaignShipping.set_confirmationRequestedAt
                                   (Some (now e))
                            else CampaignShipping.set_deliveredAt
                                   (Some (now e))) row
                      else row)
                   (shippings wm) ->
             wbotSent w4
             = (wbotSent wm
                ++ [{| wm_chatId :=
                         (CampaignShipping.number s
                          ++ "@s.whatsapp.net")%string;
                       wm_content :=
                         Text (if isConfirm c s
                               then CampaignShipping.confirmationMessage s
                               else CampaignShipping.message s) |}])%list ->
             Campaign.contacts c = None \/ contactIncluded e = false ->
             failedLate e c sid w w4).
  { intros w4 E1 E2 Hwhy. split; [exact Hwhy|]. exists s.
    split; [exact Hs|]. rewrite E1, E2, Es, Ew, <- app_assoc.
    split; reflexivity. }
  apply bind_Thrown in H. destruct H as [H|(c' & w4 & Heval & H)].
  { destruct (Campaign.contacts c) as [l|] eqn:Hl.
    - rewrite (verifyAndFinalizeCampaign_run _ e c l Hl) in H.
      destruct (_ =? _) in H; discriminate H.
    - unfold verifyAndFinalizeCampaign in H. rewrite Hl in H.
      injection H as _ <-.
      cbn [campaigns with_shippings with_wbotSent]. rewrite Ec.
      split; [reflexivity|]. right.
      apply Hlate; [reflexivity | reflexivity | left; reflexivity]. }
  apply bind_Thrown in H. destruct H as [H|(u3 & w5 & Hemit & H)];
    [discriminate H|].
  cbn [io_emit modify] in Hemit. injection Hemit as _ <-.
  apply await_ok_Thrown in H. destruct H as [Hgone ->].
  destruct (Campaign.contacts c) as [l|] eqn:Hl.
  - rewrite (verifyAndFinalizeCampaign_run _ e c l Hl) in Heval.
    destruct (_ =? _) in Heval; injection Heval as _ <-;
      cbn [campaigns with_ioEvents with_campaigns with_shippings
        with_wbotSent];
      rewrite ?Ec, ?errors_over_finalized;
      (split; [reflexivity|]); right;
      (apply Hlate; [reflexivity | reflexivity | right; exact Hgone]).
  - unfold verifyAndFinalizeCampaign in Heval. rewrite Hl in Heval.
    discriminate Heval.
Qed.

(** X11. [handleDispatchCampaign]: a run that does not return has set the
    campaign to [FINALIZADA_COM_ERROS] with the completion time, also over a
    finalization made in the same run. Either it failed before the text went
    out (the ticket, the session, the record, the media or the text itself):
    then every shipping record is as it was, no notification was emitted and
    at most the media message was sent. Or it failed after the text went out
    and the record of the job was stamped, which happens when the contact
    list of the campaign is not loaded (the evaluator throws) or when the
    [contact] include of the record is null (the last log line throws): the
    recipient then has the message and the stamp, under a campaign marked
    as failed. *)
Theorem failed_dispatch_marks_the_campaign (w : World) (e : Env)
    (contactId cid sid : Z) (c : Campaign.t) :
  getCampaign w cid = Some c ->
  let r := handleDispatchCampaign e contactId cid sid w in
  let w' := world_after r in
  outcome r <> Completed ->
  campaigns w'
  = map (fun row =>
           if Campaign.id row =? cid
           then Campaign.set_completed FINALIZADA_COM_ERROS (now e) row
           else row)
        (campaigns w)
  /\ (failedEarly w w' \/ failedLate e c sid w w').
Proof.
  intros Hc. cbv zeta.
  pose proof (getCampaign_id w cid c Hc) as Hid.
  unfold handleDispatchCampaign, loadCampaign, try_catch, bind, query.
  rewrite Hc. cbn [ret].
  destruct (openTicket_cases e w) as [->|[msg ->]].
  - destruct (sendCampaignMessage e c sid w) as [[[]|msg] w1] eqn:Hsend.
    + intros H. exfalso. apply H. reflexivity.
    + intros _.
      destruct (sendCampaignMessage_throws e c sid w w1 msg Hsend)
        as [Hrows Hrest].
      unfold world_after. rewrite abortDispatch_world.
      unfold failedEarly, failedLate.
      cbn [campaigns shippings ioEvents wbotSent with_campaigns].
      rewrite Hid in Hrows |- *. split; [exact Hrows | exact Hrest].
  - intros _. unfold world_after.
    cbn [campaign_update throw snd campaigns with_campaigns].
    rewrite Hid. split; [reflexivity|]. left.
    unfold failedEarly. cbn [shippings ioEvents wbotSent with_campaigns].
    repeat split. exists []. rewrite app_nil_r.
    split; [reflexivity | intros m []].
Qed.

(** The dispatch to the prepared recipient of [confirmWorld], the session
    failing to send the text. *)
Lemma failed_dispatch_marks_the_campaign_witness :
  campaigns
    (world_after (handleDispatchCampaign (sendFails 600000 1) 101 1 1
                    confirmWorld))
  = map (fun row =>
           if Campaign.id row =? 1
           then Campaign.set_completed FINALIZADA_COM_ERROS 600000 row
           else row)
        (campaigns confirmWorld)
  /\ campaigns
       (world_after
          (handleDispatchCampaign (contactGone 602000 1) 101 1 1
             (step fannedOutWorld (RunJob 0 (allGood 592000 1)))))
     = map (fun row =>
              if Campaign.id row =? 1
              then Campaign.set_completed FINALIZADA_COM_ERROS 602000 row
              else row)
           (campaigns (step fannedOutWorld (RunJob 0 (allGood 592000 1)))).
Proof.
  split.
  - refine (proj1
              (failed_dispatch_marks_the_campaign confirmWorld
                 (sendFails 600000 1) 101 1 1
                 (demoCampaign 1 EM_ANDAMENTO true (recipients 1)) _ _)).
    + vm_compute. reflexivity.
    + vm_compute. discriminate.
  - refine (proj1
              (failed_dispatch_marks_the_campaign
                 (step fannedOutWorld (RunJob 0 (allGood 592000 1)))
                 (contactGone 602000 1) 101 1 1
                 (demoCampaign 1 EM_ANDAMENTO false (recipients 1)) _ _)).
    + vm_compute. reflexivity.
    + vm_compute. discriminate.
Defined.

(** The dispatch to the prepared recipient of [soloWorld] when the
    contact-list item of the record is gone: the text goes out, the record
    gets its delivery time, the evaluator finalizes the campaign, and then
    the run throws and the campaign is marked as failed. *)
Example dispatch_delivers_then_fails_at_the_log_line :
  let w := step fannedOutWorld (RunJob 0 (allGood 592000 1)) in
  let r := handleDispatchCampaign (contactGone 602000 1) 101 1 1 w in
  outcome r = Threw "Erro no disparo da campanha"
  /\ option_map CampaignShipping.deliveredAt (findShipping (world_after r) 1)
     = Some (Some 602000)
  /\ map wm_content (wbotSent (world_after r))
     = [Text (Some (zwnj ++ "Oi Ana")%string)]
  /\ option_map Campaign.status (getCampaign (world_after r) 1)
     = Some FINALIZADA_COM_ERROS.
Proof. vm_compute. repeat split; reflexivity. Qed.

(** ** The delivery that completes a campaign *)

(** Recording the delivery of an undelivered record of the campaign raises
    the delivered count by one. *)
Lemma countDelivered_after_delivery (rows : list CampaignShipping.t)
    (s : CampaignShipping.t) (at_ cid : Z) :
  NoDup (map CampaignShipping.id rows) ->
  In s rows ->
  CampaignShipping.campaignId s = cid ->
  CampaignShipping.deliveredAt s = None ->
  List.length
    (filter (fun r => (CampaignShipping.campaignId r =? cid)
                      && isSome (CampaignShipping.deliveredAt r))
       (map (fun row =>
               if CampaignShipping.id row =? CampaignShipping.id s
               then CampaignShipping.set_deliveredAt (Some at_) row
               else row)
            rows))
  = S (List.length
         (filter (fun r => (CampaignShipping.campaignId r =? cid)
                           && isSome (CampaignShipping.deliveredAt r))
                 rows)).
Proof.
  intros Hnd Hin Hcid Hnull.
  induction rows as [|row rest IH]; [destruct Hin|].
  cbn [map] in Hnd. apply NoDup_cons_iff in Hnd. destruct Hnd as [Hfresh Hnd].
  cbn [map filter].
  destruct Hin as [->|Hin].
  - rewrite Z.eqb_refl.
    cbn [CampaignShipping.set_deliveredAt CampaignShipping.campaignId
      CampaignShipping.deliveredAt isSome].
    rewrite Hcid, Z.eqb_refl, Hnull. cbn [andb isSome List.length].
    f_equal. f_equal. f_equal.
    rewrite <- (map_id rest) at 2. apply map_ext_in. intros other Hother.
    destruct (Z.eqb_spec (CampaignShipping.id other) (CampaignShipping.id s))
      as [E|_]; [|reflexivity].
    exfalso. apply Hfresh. rewrite <- E. apply in_map. exact Hother.
  - destruct (Z.eqb_spec (CampaignShipping.id row) (CampaignShipping.id s))
      as [E|_].
    + exfalso. apply Hfresh. rewrite E. apply in_map. exact Hin.
    + destruct ((CampaignShipping.campaignId row =? cid)
                && isSome (CampaignShipping.deliveredAt row));
        cbn [List.length]; rewrite (IH Hnd Hin); reflexivity.
Qed.

(** What a send that returns has done to the campaign rows: the evaluator
    ran on the shipping table with the record of the job updated. *)
Lemma sendCampaignMessage_campaigns (e : Env) (c : Campaign.t) (sid : Z)
    (s : CampaignShipping.t) (l : list ContactListItem.t) (w w' : World) :
  Campaign.contacts c = Some l ->
  findShipping w sid = Some s ->
  sendCampaignMessage e c sid w = (Ok tt, w') ->
  campaigns w'
  = if Z.of_nat (List.length l)
       =? countDelivered (Campaign.id c)
            (with_shippings (shippings w') (nextShippingId w) w)
    then map (fun row =>
                if Campaign.id row =? Campaign.id c
                then Campaign.set_completed FINALIZADA (now e) row else row)
             (campaigns w)
    else campaigns w.
Proof.
  intros Hl Hs H. unfold sendCampaignMessage in H.
  apply bind_Ok in H. destruct H as (found & w0 & H0 & H).
  unfold query in H0. injection H0 as <- <-. rewrite Hs in H.
  apply bind_Ok in H. destruct H as (u & w0 & H0 & H).
  apply await_ok_Ok in H0. destruct H0 as [_ ->].
  apply bind_Ok in H. destruct H as (s' & w0 & H0 & H).
  apply await_Ok in H0. destruct H0 as [E ->]. injection E as <-.
  apply bind_Ok in H. destruct H as (u1 & w1 & Hmedia & H).
  apply bind_Ok in H. destruct H as (u2 & w2 & Htext & H).
  apply wbot_sendMessage_Ok in Htext. destruct Htext as [_ ->].
  apply bind_Ok in H. destruct H as (s' & w3 & Hupd & H).
  cbn [shipping_update] in Hupd. injection Hupd as <- <-.
  apply bind_Ok in H. destruct H as (c' & w4 & Heval & H).
  apply bind_Ok in H. destruct H as (u3 & w5 & Hemit & H).
  cbn [io_emit modify] in Hemit. injection Hemit as <- <-.
  apply await_ok_Ok in H. destruct H as [_ ->].
  assert (Hw1 : campaigns w1 = campaigns w).
  { destruct (negb (isConfirm c s) && Js.present (Campaign.mediaPath c)).
    - apply bind_Ok in Hmedia. destruct Hmedia as (b & w0 & H0 & Hmedia).
      apply await_Ok in H0. destruct H0 as [_ ->].
      destruct b.
      + apply wbot_sendMessage_Ok in Hmedia. destruct Hmedia as [_ ->].
        reflexivity.
      + injection Hmedia as <- <-. reflexivity.
    - injection Hmedia as <- <-. reflexivity. }
  rewrite (verifyAndFinalizeCampaign_run _ e c l Hl) in Heval.
  unfold countDelivered in Heval |- *.
  cbn [shippings with_shippings with_wbotSent] in Heval.
  destruct (Z.of_nat (List.length l) =? _) eqn:Hcount in Heval;
    injection Heval as <- <-;
    cbn [campaigns shippings with_ioEvents with_campaigns with_shippings
      with_wbotSent];
    rewrite Hcount, Hw1; reflexivity.
Qed.

(** X12. [handleDispatchCampaign] with [verifyAndFinalizeCampaign]: a final send
    that returns, for a record of the campaign that was undelivered, raises
    the delivered count of the campaign by one, and sets the campaign to
    [FINALIZADA], with the completion time, exactly when that makes the
    count equal to the number of valid recipients; otherwise the campaign
    rows are left as they are. *)
Theorem last_delivery_finalizes_the_campaign (w : World) (e : Env)
    (contactId cid sid : Z) (c : Campaign.t) (l : list ContactListItem.t)
    (s : CampaignShipping.t) :
  getCampaign w cid = Some c ->
  Campaign.contacts c = Some l ->
  NoDup (map CampaignShipping.id (shippings w)) ->
  findShipping w sid = Some s ->
  CampaignShipping.campaignId s = cid ->
  CampaignShipping.deliveredAt s = None ->
  isConfirm c s = false ->
  outcome (handleDispatchCampaign e contactId cid sid w) = Completed ->
  let w' := world_after (handleDispatchCampaign e contactId cid sid w) in
  countDelivered cid w' = countDelivered cid w + 1
  /\ campaigns w'
     = if countDelivered cid w + 1 =? Z.of_nat (List.length l)
       then map (fun row =>
                   if Campaign.id row =? cid
                   then Campaign.set_completed FINALIZADA (now e) row
                   else row)
                (campaigns w)
       else campaigns w.
Proof.
  intros Hc Hl Hnd Hs Hcid Hnull Hfinal Hout w'.
  pose proof (getCampaign_id w cid c Hc) as Hid.
  pose proof (handleDispatchCampaign_returns e contactId cid sid c w Hc Hout)
    as Hrun.
  fold w' in Hrun.
  destruct (sendCampaignMessage_returns e c sid s w w' Hs Hrun) as [Hsh _].
  pose proof (sendCampaignMessage_campaigns e c sid s l w w' Hl Hs Hrun)
    as Hcamp.
  rewrite Hfinal in Hsh.
  assert (Hin : In s (shippings w))
    by (unfold findShipping in Hs; apply find_some in Hs; apply Hs).
  assert (Hcount : countDelivered cid w' = countDelivered cid w + 1).
  { unfold countDelivered. rewrite Hsh.
    rewrite (countDelivered_after_delivery (shippings w) s (now e) cid
               Hnd Hin Hcid Hnull).
    lia. }
  split; [exact Hcount|].
  rewrite Hcamp, Hid.
  replace (countDelivered cid
             (with_shippings (shippings w') (nextShippingId w) w))
    with (countDelivered cid w') by reflexivity.
  rewrite Hcount, Z.eqb_sym. reflexivity.
Qed.

(** The dispatch to the single recipient of the campaign of [soloWorld],
    prepared: the campaign becomes [FINALIZADA]. *)
Lemma last_delivery_finalizes_the_campaign_witness :
  let w := step fannedOutWorld (RunJob 0 (allGood 592000 1)) in
  let w' := world_after (handleDispatchCampaign (allGood 602000 1) 101 1 1 w) in
  countDelivered 1 w' = countDelivered 1 w + 1
  /\ campaigns w'
     = if countDelivered 1 w + 1 =? Z.of_nat (List.length (recipients 1))
       then map (fun row =>
                   if Campaign.id row =? 1
                   then Campaign.set_completed FINALIZADA 602000 row
                   else row)
                (campaigns w)
       else campaigns w.
Proof.
  eapply (last_delivery_finalizes_the_campaign
            (step fannedOutWorld (RunJob 0 (allGood 592000 1)))
            (allGood 602000 1) 101 1 1).
  - vm_compute. reflexivity.
  - reflexivity.
  - vm_compute. repeat constructor. intros [].
  - vm_compute. reflexivity.
  - reflexivity.
  - reflexivity.
  - reflexivity.
  - vm_compute. reflexivity.
Defined.

(** ** What the verifiers leave behind *)

(** What the orchestrator writes into the campaign rows. *)
Lemma handleProcessCampaign_campaigns (w : World) (e : Env) (id delay : Z)
    (c : Campaign.t) :
  getCampaign w id = Some c ->
  campaigns (world_after (handleProcessCampaign e id delay w))
  = map (fun row =>
           if Campaign.id row =? id
           then match Campaign.contacts c with
                | Some _ => Campaign.set_status EM_ANDAMENTO row
                | None =>
                    Campaign.set_completed FINALIZADA_COM_ERROS (now e) row
                end
           else row)
        (campaigns w).
Proof.
  intros Hc. pose proof (getCampaign_id w id c Hc) as Hid.
  unfold handleProcessCampaign, loadCampaign, try_catch, bind, query.
  rewrite Hc. cbn [ret].
  destruct (Campaign.contacts c) as [l|].
  - rewrite fanOut_run. unfold world_after.
    cbn [campaign_update ret snd campaigns with_campaigns with_campaignQueue].
    rewrite Hid. reflexivity.
  - unfold world_after.
    cbn [campaign_update throw ret snd campaigns with_campaigns].
    rewrite Hid. reflexivity.
Qed.

(** X13. [handleVerifyCampaigns] and [handleProcessCampaign]: the verifier writes
    no campaign row, so that a campaign it has enqueued is selected again by
    every later run whose window holds it, as long as it is [PROGRAMADA]; it
    is the orchestrator that takes the campaign out of the verifier's reach,
    whether the contact list is valid or not. *)
Theorem verifier_reselects_until_the_orchestrator_runs :
  (forall (w : World) (dbNow : Z) (clock : nat -> Z) (later : Z),
     campaigns (world_after (handleVerifyCampaigns dbNow clock w))
     = campaigns w
     /\ dueCampaigns later (world_after (handleVerifyCampaigns dbNow clock w))
        = dueCampaigns later w)
  /\ (forall (w : World) (e : Env) (id delay : Z) (c : Campaign.t)
             (later scheduledAt : Z),
        getCampaign w id = Some c ->
        ~ In (id, scheduledAt)
             (dueCampaigns later
                (world_after (handleProcessCampaign e id delay w)))).
Proof.
  split.
  - intros w dbNow clock later.
    assert (E : campaigns (world_after (handleVerifyCampaigns dbNow clock w))
                = campaigns w).
    { unfold handleVerifyCampaigns, bind, query.
      destruct (verifyEach_run clock (dueCampaigns dbNow w) 0 w)
        as (js & -> & _).
      reflexivity. }
    split; [exact E|]. unfold dueCampaigns. rewrite E. reflexivity.
  - intros w e id delay c later scheduledAt Hc Hin.
    unfold dueCampaigns in Hin.
    rewrite (handleProcessCampaign_campaigns w e id delay c Hc) in Hin.
    apply in_map_iff in Hin. destruct Hin as (row' & E & Hin).
    apply filter_In in Hin. destruct Hin as [Hin Hsel].
    apply andb_prop in Hsel. destruct Hsel as [_ Hst].
    apply in_map_iff in Hin. destruct Hin as (row & <- & _).
    injection E as Eid _.
    destruct (Z.eqb_spec (Campaign.id row) id) as [_|N];
      [|apply N; exact Eid].
    destruct (Campaign.contacts c); discriminate Hst.
Qed.

(** The verifier, then the orchestrator, on the due campaign. *)
Lemma verifier_reselects_until_the_orchestrator_runs_witness :
  dueCampaigns 590020
    (world_after (handleVerifyCampaigns 590000 (fun _ => 590001) dueWorld))
  = dueCampaigns 590020 dueWorld
  /\ ~ In (1, 600000)
          (dueCampaigns 590020
             (world_after (handleProcessCampaign (allGood 591000 1) 1 9999
                             dueWorld))).
Proof.
  split.
  - apply (proj1 verifier_reselects_until_the_orchestrator_runs dueWorld
             590000 (fun _ => 590001) 590020).
  - apply (proj2 verifier_reselects_until_the_orchestrator_runs dueWorld
             (allGood 591000 1) 1 9999
             (demoCampaign 1 PROGRAMADA false (recipients 2)) 590020 600000).
    reflexivity.
Defined.

(** What the schedule verifier writes into the schedule rows. *)
Lemma handleVerifySchedules_schedules (w : World) (now1 now2 : Z) :
  handleVerifySchedules now1 now2 w
  = (Ok tt, world_after (handleVerifySchedules now1 now2 w))
  /\ schedules (world_after (handleVerifySchedules now1 now2 w))
     = map (fun row =>
              if existsb (fun s => Schedule.id row =? Schedule.id s)
                         (pendingSchedules now1 now2 w)
              then Schedule.set_status AGENDADA row else row)
           (schedules w).
Proof.
  unfold handleVerifySchedules, bind, query.
  destruct (pendingSchedules now1 now2 w) as [|s0 rest] eqn:E.
  - cbn. split; [reflexivity|]. symmetry. apply map_id.
  - replace (0 <? Z.of_nat (List.length (s0 :: rest))) with true
      by (symmetry; apply Z.ltb_lt; cbn [List.length]; lia).
    destruct (scheduleEach_run (s0 :: rest) w) as (js & -> & _).
    split; reflexivity.
Qed.

(** X14. [handleVerifySchedules] promotes a schedule once: whatever the clock
    reads later, a run of the verifier after this one selects only rows that
    this one has not selected, nor any row with the id of one of them; and
    a second run at the same clock readings selects nothing and changes
    nothing. *)
Theorem schedule_is_promoted_once (w : World) (now1 now2 : Z) :
  let w' := world_after (handleVerifySchedules now1 now2 w) in
  (forall (later1 later2 : Z) (s' : Schedule.t),
     In s' (pendingSchedules later1 later2 w') ->
     In s' (schedules w)
     /\ forall s, In s (pendingSchedules now1 now2 w) ->
                  Schedule.id s <> Schedule.id s')
  /\ pendingSchedules now1 now2 w' = []
  /\ handleVerifySchedules now1 now2 w' = (Ok tt, w').
Proof.
  intros w'.
  destruct (handleVerifySchedules_schedules w now1 now2) as [_ Hrows].
  fold w' in Hrows.
  assert (Hlater : forall (later1 later2 : Z) (s' : Schedule.t),
             In s' (pendingSchedules later1 later2 w') ->
             In s' (schedules w)
             /\ forall s, In s (pendingSchedules now1 now2 w) ->
                          Schedule.id s <> Schedule.id s').
  { intros later1 later2 s' Hin. unfold pendingSchedules in Hin at 1.
    apply filter_In in Hin. destruct Hin as [Hin Hsel].
    rewrite Hrows in Hin. apply in_map_iff in Hin.
    destruct Hin as (row & E & Hrow).
    destruct (existsb _ (pendingSchedules now1 now2 w)) eqn:Hex in E.
    - subst s'. cbn in Hsel. discriminate Hsel.
    - subst s'. split; [exact Hrow|]. intros s Hs Eid.
      assert (Hyes : existsb (fun s0 => Schedule.id row =? Schedule.id s0)
                       (pendingSchedules now1 now2 w) = true).
      { apply existsb_exists. exists s. split; [exact Hs|].
        apply Z.eqb_eq. symmetry. exact Eid. }
      rewrite Hyes in Hex. discriminate Hex. }
  assert (Hnone : pendingSchedules now1 now2 w' = []).
  { destruct (pendingSchedules now1 now2 w') as [|s' rest] eqn:E;
      [reflexivity|].
    assert (Hin : In s' (pendingSchedules now1 now2 w'))
      by (rewrite E; left; reflexivity).
    destruct (Hlater now1 now2 s' Hin) as [Hold Hfresh].
    exfalso. apply (Hfresh s'); [|reflexivity].
    unfold pendingSchedules in Hin |- *.
    apply filter_In in Hin. apply filter_In. split; [exact Hold|apply Hin]. }
  split; [exact Hlater|]. split; [exact Hnone|].
  unfold handleVerifySchedules, bind, query. rewrite Hnone. reflexivity.
Qed.

(** ** What every step keeps

    A reflexive and transitive relation that the writes of the handlers
    respect relates every state to the states that any sequence of steps
    leads to. *)

Section Steps.

Context (R : World -> World -> Prop) {R_preorder : PreOrder R}.

(** What went out may be logged. *)
Hypothesis R_log : forall w w', sameStored w w' -> R w w'.

(** A campaign row may be updated, but not to [PROGRAMADA]. *)
Hypothesis R_campaign_update :
  forall f c,
    (forall row, Campaign.id (f row) = Campaign.id row
                 /\ Campaign.status (f row) <> PROGRAMADA) ->
    preserves R (campaign_update f c).

(** The dispatcher may stamp a shipping record. *)
Hypothesis R_dispatch_update :
  forall (confirm : bool) (at_ : Z) (record : CampaignShipping.t),
    preserves R
      (shipping_update
         (if confirm
          then CampaignShipping.set_confirmationRequestedAt (Some at_)
          else CampaignShipping.set_deliveredAt (Some at_))
         record).

Hypothesis R_bookDispatch :
  forall c contact v delay, preserves R (bookDispatch c contact v delay).

(** A job may be added to the campaign queue under a registered name. *)
Hypothesis R_campaignQueue_add :
  forall name data opts,
    handled {| job_id := 0; job_name := name; job_data := data;
               job_opts := opts |} = true ->
    preserves R (campaignQueue_add name data opts).

Hypothesis R_schedule_update :
  forall f schedule, preserves R (schedule_update f schedule).

Hypothesis R_sendScheduledMessages_add :
  forall schedule,
    preserves R
      (sendScheduledMessages_add "SendMessage" (ScheduleData schedule)
         {| opt_delay := Some 40000; opt_removeOnComplete := false |}).

(** A worker may take a job. *)
Hypothesis R_take_campaign :
  forall w n, R w (with_campaignQueue (take_job n (campaignQueue w)) w).

Hypothesis R_take_scheduled :
  forall w n,
    R w (with_sendScheduledMessages (take_job n (sendScheduledMessages w)) w).

Lemma kept_io_emit companyId action record :
  preserves R (io_emit companyId action record).
Proof. intros w. apply R_log. repeat split. Qed.

Lemma kept_wbot_sendMessage returns chatId content :
  preserves R (wbot_sendMessage returns chatId content).
Proof.
  unfold wbot_sendMessage. destruct returns; [|preserves_step].
  intros w. apply R_log. repeat split.
Qed.

Lemma kept_completed st at_ c :
  st <> PROGRAMADA ->
  preserves R (campaign_update (Campaign.set_completed st at_) c).
Proof.
  intros Hst. apply R_campaign_update. intros row.
  split; [reflexivity | exact Hst].
Qed.

(** One step of the proof that a handler respects [R]. *)
Ltac kept :=
  first [ apply kept_io_emit
        | apply kept_wbot_sendMessage
        | apply kept_completed; discriminate
        | apply R_campaign_update; intros ?;
          split; [reflexivity | cbn; discriminate]
        | apply R_dispatch_update
        | apply R_bookDispatch
        | apply R_campaignQueue_add; reflexivity
        | apply R_schedule_update
        | apply R_sendScheduledMessages_add
        | progress cbv zeta
        | preserves_step ].

Lemma kept_loadCampaign id : preserves R (loadCampaign id).
Proof. unfold loadCampaign. repeat kept. Qed.

Lemma kept_verifyAndFinalizeCampaign e c :
  preserves R (verifyAndFinalizeCampaign e c).
Proof. unfold verifyAndFinalizeCampaign. repeat kept. Qed.

Lemma kept_fanOut e settings c contacts :
  forall delay index draws,
    preserves R (fanOut e settings c contacts delay index draws).
Proof.
  induction contacts as [|contact rest IH]; intros; cbn [fanOut].
  - kept.
  - kept; [kept|].
    destruct (Js.rem_is_zero _ _); [|destruct (Js.truthy_num _)]; apply IH.
Qed.

Lemma kept_handleProcessCampaign e id delay :
  preserves R (handleProcessCampaign e id delay).
Proof.
  unfold handleProcessCampaign.
  repeat first [ apply kept_loadCampaign | apply kept_fanOut | kept ].
Qed.

Lemma kept_verifyEach clock due :
  forall k, preserves R (verifyEach clock k due).
Proof.
  induction due as [|[id scheduledAt] rest IH]; intros; cbn [verifyEach].
  - kept.
  - repeat kept. apply IH.
Qed.

Lemma kept_handleVerifyCampaigns dbNow clock :
  preserves R (handleVerifyCampaigns dbNow clock).
Proof.
  unfold handleVerifyCampaigns. kept; [kept|]. apply kept_verifyEach.
Qed.

Lemma kept_renderShipping e c campaignId item contact :
  preserves R (renderShipping e c campaignId item contact).
Proof. unfold renderShipping, pickMessage. repeat kept. Qed.

Lemma kept_handlePrepareContact e itemId campaignId delay :
  preserves R (handlePrepareContact e itemId campaignId delay).
Proof.
  unfold handlePrepareContact.
  repeat first [ apply kept_loadCampaign | apply kept_renderShipping
               | apply kept_verifyAndFinalizeCampaign | kept ].
Qed.

Lemma kept_openTicket e : preserves R (openTicket e).
Proof. unfold openTicket. repeat kept. Qed.

Lemma kept_closeTicket e : preserves R (closeTicket e).
Proof. unfold closeTicket. repeat kept. Qed.

Lemma kept_sendCampaignMessage e c sid :
  preserves R (sendCampaignMessage e c sid).
Proof.
  unfold sendCampaignMessage.
  repeat first [ apply kept_verifyAndFinalizeCampaign | kept ].
Qed.

Lemma kept_handleDispatchCampaign e contactId campaignId sid :
  preserves R (handleDispatchCampaign e contactId campaignId sid).
Proof.
  unfold handleDispatchCampaign, abortDispatch.
  repeat first [ apply kept_loadCampaign | apply kept_openTicket
               | apply kept_closeTicket | apply kept_sendCampaignMessage
               | kept ].
Qed.

Lemma kept_scheduleEach rows : preserves R (scheduleEach rows).
Proof.
  induction rows as [|schedule rest IH]; cbn [scheduleEach].
  - kept.
  - repeat kept. exact IH.
Qed.

Lemma kept_handleVerifySchedules now1 now2 :
  preserves R (handleVerifySchedules now1 now2).
Proof.
  unfold handleVerifySchedules.
  repeat first [ apply kept_scheduleEach | kept ].
Qed.

Lemma kept_handleSendScheduledMessage e schedule :
  preserves R (handleSendScheduledMessage e schedule).
Proof.
  unfold handleSendScheduledMessage, SendMessage, update_if_fetched.
  repeat first
    [ lazymatch goal with
      | |- preserves _ (modify _) =>
          apply (@preserves_modify R); intros w; apply R_log; repeat split
      end
    | kept ].
Qed.

(** Every step of the queues respects [R]. *)
Lemma kept_step (w : World) (ev : Event) : R w (step w ev).
Proof.
  destruct ev as [dbNow clock|n e|now1 now2|n e]; cbn [step].
  - apply kept_handleVerifyCampaigns.
  - destruct (nth_error (q_jobs (campaignQueue w)) n) as [j|];
      [|reflexivity].
    transitivity (with_campaignQueue (take_job n (campaignQueue w)) w);
      [apply R_take_campaign|].
    unfold world_after, process.
    destruct (job_data j) as [id delay|itemId cid delay|contactId cid sid|sch].
    + destruct (job_name j =? "ProcessCampaign")%string;
        [apply kept_handleProcessCampaign|reflexivity].
    + destruct (job_name j =? "PrepareContact")%string;
        [apply kept_handlePrepareContact|reflexivity].
    + destruct (job_name j =? "DispatchCampaign")%string;
        [apply kept_handleDispatchCampaign|reflexivity].
    + reflexivity.
  - apply kept_handleVerifySchedules.
  - destruct (nth_error (q_jobs (sendScheduledMessages w)) n) as [j|];
      [|reflexivity].
    transitivity (with_sendScheduledMessages
                    (take_job n (sendScheduledMessages w)) w);
      [apply R_take_scheduled|].
    unfold world_after, processScheduled.
    destruct (job_data j); try reflexivity.
    destruct (job_name j =? "SendMessage")%string;
      [apply kept_handleSendScheduledMessage|reflexivity].
Qed.

Lemma kept_run (evs : list Event) : forall w, R w (run w evs).
Proof.
  unfold run. induction evs as [|ev evs IH]; intros w; cbn [fold_left].
  - reflexivity.
  - transitivity (step w ev); [apply kept_step | apply IH].
Qed.

End Steps.

(** *** The shipping table stays well formed *)

Lemma keepsWf_sameShippings (w w' : World) :
  shippings w' = shippings w -> nextShippingId w' = nextShippingId w ->
  keepsWf w w'.
Proof.
  intros E1 E2 Hwf. unfold shippings_wf. rewrite E1, E2. exact Hwf.
Qed.

(** The stamp of the dispatcher changes neither the id nor the pair of a
    record. *)
Lemma dispatch_update_keepsWf (confirm : bool) (at_ : Z)
    (record : CampaignShipping.t) :
  preserves keepsWf
    (shipping_update
       (if confirm
        then CampaignShipping.set_confirmationRequestedAt (Some at_)
        else CampaignShipping.set_deliveredAt (Some at_))
       record).
Proof.
  intros w (Hids & Hlt & Hkeys). unfold shippings_wf.
  cbn [shipping_update snd shippings nextShippingId with_shippings].
  assert (Hid : forall rows : list CampaignShipping.t,
             map CampaignShipping.id
               (map (fun row =>
                       if CampaignShipping.id row =? CampaignShipping.id record
                       then (if confirm
                             then CampaignShipping.set_confirmationRequestedAt
                                    (Some at_)
                             else CampaignShipping.set_deliveredAt (Some at_))
                              row
                       else row) rows)
             = map CampaignShipping.id rows).
  { intros rows. rewrite map_map. apply map_ext. intros row.
    destruct (_ =? _); [destruct confirm|]; reflexivity. }
  split; [rewrite Hid; exact Hids|]. split.
  - intros s Hs. apply (in_map CampaignShipping.id) in Hs.
    rewrite Hid in Hs. apply in_map_iff in Hs.
    destruct Hs as (s0 & <- & Hs0). apply Hlt. exact Hs0.
  - rewrite map_map. rewrite (map_ext _ shipping_key); [exact Hkeys|].
    intros row. destruct (_ =? _); [destruct confirm|]; reflexivity.
Qed.

Lemma run_keepsWf (evs : list Event) (w : World) : keepsWf w (run w evs).
Proof.
  apply (kept_run keepsWf).
  - intros w0 w1 (_ & E1 & E2 & _). apply keepsWf_sameShippings; assumption.
  - intros f c _ w0. apply keepsWf_sameShippings; reflexivity.
  - apply dispatch_update_keepsWf.
  - apply bookDispatch_keepsWf.
  - intros name data opts _ w0. apply keepsWf_sameShippings; reflexivity.
  - intros f schedule w0. apply keepsWf_sameShippings; reflexivity.
  - intros schedule w0. apply keepsWf_sameShippings; reflexivity.
  - intros w0 n. apply keepsWf_sameShippings; reflexivity.
  - intros w0 n. apply keepsWf_sameShippings; reflexivity.
Qed.

(** X15. In every state that the steps of the queues reach from a state without
    shipping records, taken one at a time, the shipping table is well
    formed: the ids of the records are distinct and below the next id, and
    no two records stand for the same campaign and recipient, whatever jobs
    ran, in whatever order, however often, and whether they failed or not. *)
Theorem reachable_shipping_table_is_well_formed (w : World) :
  reachable w -> shippings_wf w.
Proof.
  intros (w0 & evs & (Hempty & _) & <-).
  apply run_keepsWf. unfold shippings_wf. rewrite Hempty.
  repeat split; try constructor. intros s [].
Qed.

(** The state reached in [doubleTick], where the one recipient was prepared
    twice. *)
Lemma reachable_shipping_table_is_well_formed_witness :
  shippings_wf (run soloWorld doubleTick).
Proof.
  apply (reachable_shipping_table_is_well_formed (run soloWorld doubleTick)).
  exists soloWorld, doubleTick. split; [|reflexivity].
  repeat split. intros c [<-|[]]. reflexivity.
Defined.

(** *** A delivery is not undone *)

#[local] Instance deliveredStays_preorder : PreOrder deliveredStays.
Proof.
  split.
  - intros w s Hin. exists s. repeat split; [exact Hin | intros H; exact H].
  - intros w1 w2 w3 H12 H23 s1 Hin1.
    destruct (H12 s1 Hin1) as (s2 & Hin2 & Hid2 & Hd2).
    destruct (H23 s2 Hin2) as (s3 & Hin3 & Hid3 & Hd3).
    exists s3. split; [exact Hin3|]. split; [congruence|].
    intros H. apply Hd3, Hd2, H.
Qed.

Lemma deliveredStays_same (w w' : World) :
  shippings w' = shippings w -> deliveredStays w w'.
Proof.
  intros E s Hin. exists s. rewrite E.
  repeat split; [exact Hin | intros H; exact H].
Qed.

(** An update of a shipping record that does not clear [deliveredAt]. *)
Lemma shipping_update_deliveredStays f record :
  (forall s, CampaignShipping.id (f s) = CampaignShipping.id s
             /\ (CampaignShipping.deliveredAt s <> None ->
                 CampaignShipping.deliveredAt (f s) <> None)) ->
  preserves deliveredStays (shipping_update f record).
Proof.
  intros Hf w s Hin.
  cbn [shipping_update snd shippings with_shippings].
  exists (if CampaignShipping.id s =? CampaignShipping.id record
          then f s else s).
  split; [apply in_map_iff; exists s; split; [reflexivity|exact Hin]|].
  destruct (CampaignShipping.id s =? CampaignShipping.id record).
  - apply Hf.
  - split; [reflexivity | intros H; exact H].
Qed.

Lemma findOrCreate_deliveredStays v : preserves deliveredStays (findOrCreate v).
Proof.
  intros w. unfold findOrCreate.
  destruct (existingRecord _ _ w); cbn [snd]; [reflexivity|].
  intros s Hin. exists s. cbn [shippings with_shippings].
  split; [apply in_app_iff; left; exact Hin|].
  split; [reflexivity | intros H; exact H].
Qed.

Lemma bookDispatch_deliveredStays c contact v delay :
  preserves deliveredStays (bookDispatch c contact v delay).
Proof.
  unfold bookDispatch.
  preserves_step; [apply findOrCreate_deliveredStays|].
  match goal with
  | found : (CampaignShipping.t * bool)%type |- _ =>
      destruct found as [record created]
  end.
  preserves_step.
  - destruct (negb created && undeliveredUnconfirmed record).
    + apply shipping_update_deliveredStays. intros s.
      split; [reflexivity | intros H; exact H].
    + preserves_step.
  - repeat first [ apply shipping_update_deliveredStays;
                   intros s; split; [reflexivity | intros H; exact H]
                 | lazymatch goal with
                   | |- preserves _ (campaignQueue_add _ _ _) =>
                       intros w; apply deliveredStays_same; reflexivity
                   end
                 | preserves_step ].
Qed.

(** X16. Along every sequence of steps of the queues, no shipping record is
    deleted, and a record that has a delivery time keeps having one: no
    handler clears [deliveredAt]. *)
Theorem delivery_is_never_undone (evs : list Event) (w : World)
    (s : CampaignShipping.t) :
  In s (shippings w) ->
  exists s', In s' (shippings (run w evs))
             /\ CampaignShipping.id s' = CampaignShipping.id s
             /\ (CampaignShipping.deliveredAt s <> None ->
                 CampaignShipping.deliveredAt s' <> None).
Proof.
  revert s. change (deliveredStays w (run w evs)).
  apply (kept_run deliveredStays).
  - intros w0 w1 (_ & E1 & _). apply deliveredStays_same; assumption.
  - intros f c _ w0. apply deliveredStays_same; reflexivity.
  - intros confirm at_ record. apply shipping_update_deliveredStays.
    intros s. destruct confirm; (split; [reflexivity|]).
    + intros H. exact H.
    + intros _. discriminate.
  - apply bookDispatch_deliveredStays.
  - intros name data opts _ w0. apply deliveredStays_same; reflexivity.
  - intros f schedule w0. apply deliveredStays_same; reflexivity.
  - intros schedule w0. apply deliveredStays_same; reflexivity.
  - intros w0 n. apply deliveredStays_same; reflexivity.
  - intros w0 n. apply deliveredStays_same; reflexivity.
Qed.

(** The record delivered in [doubleTick], through the dispatch that fails
    afterwards. *)
Lemma delivery_is_never_undone_witness :
  exists s',
    In s' (shippings (run (run soloWorld (firstn 7 doubleTick))
                          (skipn 7 doubleTick)))
    /\ CampaignShipping.id s' = 1
    /\ (Some 604000 <> None -> CampaignShipping.deliveredAt s' <> None).
Proof.
  apply (delivery_is_never_undone (skipn 7 doubleTick)
           (run soloWorld (firstn 7 doubleTick))
           (CampaignShipping.mk 1 1 1 "5511900000000"
              (Some (zwnj ++ "Oi Ana")%string) None None (Some 604000) None
              (Some 6))).
  vm_compute. left. reflexivity.
Defined.

(** *** No campaign goes back to [PROGRAMADA] *)

#[local] Instance noNewProgramada_preorder : PreOrder noNewProgramada.
Proof.
  split.
  - intros w. split; [reflexivity|]. intros c Hin Hst. exists c.
    repeat split; assumption.
  - intros w1 w2 w3 [E12 H12] [E23 H23]. split; [congruence|].
    intros c3 Hin3 Hst3.
    destruct (H23 c3 Hin3 Hst3) as (c2 & Hin2 & Hid2 & Hst2).
    destruct (H12 c2 Hin2 Hst2) as (c1 & Hin1 & Hid1 & Hst1).
    exists c1. repeat split; congruence.
Qed.

Lemma noNewProgramada_same (w w' : World) :
  campaigns w' = campaigns w -> noNewProgramada w w'.
Proof.
  intros E. split; [rewrite E; reflexivity|].
  intros c' Hin Hst. rewrite E in Hin. exists c'. repeat split; assumption.
Qed.

Lemma campaign_update_noNewProgramada f c :
  (forall row, Campaign.id (f row) = Campaign.id row
               /\ Campaign.status (f row) <> PROGRAMADA) ->
  preserves noNewProgramada (campaign_update f c).
Proof.
  intros Hf w. cbn [campaign_update snd]. unfold noNewProgramada.
  cbn [campaigns with_campaigns]. split.
  - rewrite map_map. apply map_ext. intros row.
    destruct (_ =? _); [apply Hf | reflexivity].
  - intros c' Hin Hst. apply in_map_iff in Hin.
    destruct Hin as (row & E & Hin).
    destruct (Campaign.id row =? Campaign.id c).
    + subst c'. destruct (Hf row) as [_ N]. contradiction.
    + subst c'. exists row. repeat split; assumption.
Qed.

Lemma run_noNewProgramada (evs : list Event) (w : World) :
  noNewProgramada w (run w evs).
Proof.
  apply (kept_run noNewProgramada).
  - intros w0 w1 (E & _). apply noNewProgramada_same; assumption.
  - apply campaign_update_noNewProgramada.
  - intros confirm at_ record w0. apply noNewProgramada_same; reflexivity.
  - intros c contact v delay w0. apply noNewProgramada_same.
    apply bookDispatch_campaigns.
  - intros name data opts _ w0. apply noNewProgramada_same; reflexivity.
  - intros f schedule w0. apply noNewProgramada_same; reflexivity.
  - intros schedule w0. apply noNewProgramada_same; reflexivity.
  - intros w0 n. apply noNewProgramada_same; reflexivity.
  - intros w0 n. apply noNewProgramada_same; reflexivity.
Qed.

(** X17. Along every sequence of steps of the queues, no campaign row is created
    or deleted and none becomes [PROGRAMADA]; so a campaign that has no
    [PROGRAMADA] row, as after its orchestrator ran, is never selected by the
    campaign verifier again, whatever happens and whenever it looks. *)
Theorem campaign_never_returns_to_programada (evs : list Event) (w : World) :
  noNewProgramada w (run w evs)
  /\ forall id : Z,
       (forall c, In c (campaigns w) -> Campaign.id c = id ->
                  Campaign.status c <> PROGRAMADA) ->
       forall dbNow scheduledAt : Z,
         ~ In (id, scheduledAt) (dueCampaigns dbNow (run w evs)).
Proof.
  pose proof (run_noNewProgramada evs w) as Hrun.
  split; [exact Hrun|].
  intros id Hnot dbNow scheduledAt Hin.
  unfold dueCampaigns in Hin. apply in_map_iff in Hin.
  destruct Hin as (c' & E & Hin). injection E as Eid _.
  apply filter_In in Hin. destruct Hin as [Hin Hsel].
  apply andb_prop in Hsel. destruct Hsel as [_ Hst].
  assert (Hst' : Campaign.status c' = PROGRAMADA)
    by (destruct (Campaign.status c'); try discriminate Hst; reflexivity).
  destruct Hrun as [_ Hrun].
  destruct (Hrun c' Hin Hst') as (c & Hc & Hid & Hstc).
  apply (Hnot c Hc); congruence.
Qed.

(** After the orchestrator has run on the due campaign, through the rest of
    [doubleTick]. *)
Lemma campaign_never_returns_to_programada_witness :
  noNewProgramada (run soloWorld (firstn 3 doubleTick))
    (run (run soloWorld (firstn 3 doubleTick)) (skipn 3 doubleTick))
  /\ ~ In (1, 600000)
          (dueCampaigns 590000
             (run (run soloWorld (firstn 3 doubleTick))
                  (skipn 3 doubleTick))).
Proof.
  destruct (campaign_never_returns_to_programada (skipn 3 doubleTick)
              (run soloWorld (firstn 3 doubleTick))) as [Hkept Hnever].
  split; [exact Hkept|].
  apply (Hnever 1).
  intros c Hin _.
  vm_compute in Hin. destruct Hin as [<-|[]]. discriminate.
Defined.

(** *** Every job has a handler *)

#[local] Instance keepsQueues_preorder : PreOrder keepsQueues.
Proof.
  split.
  - intros w H. exact H.
  - intros w1 w2 w3 H12 H23 H. apply H23, H12, H.
Qed.

Lemma keepsQueues_same (w w' : World) :
  campaignQueue w' = campaignQueue w ->
  sendScheduledMessages w' = sendScheduledMessages w ->
  keepsQueues w w'.
Proof. intros E1 E2 H. unfold queues_ok. rewrite E1, E2. exact H. Qed.

(** A job added under the next id. *)
Lemma queue_ok_add (ok : Job -> bool) (q : Queue) (j : Job) :
  queue_ok ok q -> ok j = true -> job_id j = q_next q ->
  queue_ok ok {| q_jobs := q_jobs q ++ [j]; q_next := q_next q + 1 |}.
Proof.
  intros [Hids Hjobs] Hok Hid. unfold queue_ok. cbn [q_jobs q_next]. split.
  - rewrite map_app. cbn [map].
    apply NoDup_app; [exact Hids|constructor; [intros []|constructor]|].
    intros x Hx [<-|[]]. apply in_map_iff in Hx.
    destruct Hx as (old & E & Hold). destruct (Hjobs old Hold) as [_ Hlt].
    lia.
  - intros x Hx. apply in_app_iff in Hx. destruct Hx as [Hx|[<-|[]]].
    + destruct (Hjobs x Hx) as [Hokx Hlt]. split; [exact Hokx | lia].
    + split; [exact Hok | lia].
Qed.

(** The jobs that are left when a worker has taken one. *)
Lemma take_job_jobs (n : nat) (jobs : list Job) :
  (forall j, In j (firstn n jobs ++ skipn (S n) jobs) -> In j jobs)
  /\ (NoDup (map job_id jobs) ->
      NoDup (map job_id (firstn n jobs ++ skipn (S n) jobs))).
Proof.
  revert n. induction jobs as [|first jobs IH]; intros n.
  - destruct n; cbn; split; intros; assumption.
  - destruct n as [|n]; cbn [firstn skipn app map].
    + split; [intros j Hj; right; exact Hj|].
      rewrite NoDup_cons_iff. intros [_ Hrest]. exact Hrest.
    + destruct (IH n) as [Hin Hnd]. split.
      * intros j [<-|Hj]; [left; reflexivity | right; apply Hin; exact Hj].
      * rewrite !NoDup_cons_iff. intros [Hfresh Hrest].
        split; [|apply Hnd; exact Hrest].
        intros Hid. apply Hfresh. apply in_map_iff in Hid.
        destruct Hid as (j & E & Hj). apply in_map_iff. exists j.
        split; [exact E | apply Hin; exact Hj].
Qed.

Lemma queue_ok_take (ok : Job -> bool) (q : Queue) (n : nat) :
  queue_ok ok q -> queue_ok ok (take_job n q).
Proof.
  intros [Hids Hjobs]. destruct (take_job_jobs n (q_jobs q)) as [Hin Hnd].
  unfold queue_ok, take_job. cbn [q_jobs q_next].
  split; [apply Hnd; exact Hids|].
  intros j Hj. apply Hjobs, Hin, Hj.
Qed.

Lemma campaignQueue_add_keepsQueues name data opts :
  handled {| job_id := 0; job_name := name; job_data := data;
             job_opts := opts |} = true ->
  preserves keepsQueues (campaignQueue_add name data opts).
Proof.
  intros Hok w [Hc Hs]. split; [|exact Hs].
  cbn [campaignQueue_add queue_add snd campaignQueue with_campaignQueue].
  apply queue_ok_add; [exact Hc | exact Hok | reflexivity].
Qed.

Lemma bookDispatch_keepsQueues c contact v delay :
  preserves keepsQueues (bookDispatch c contact v delay).
Proof.
  intros w [Hc Hs].
  destruct (existingRecord (sv_campaignId v) (sv_contactId v) w) as [r|] eqn:Hr.
  - destruct (undeliveredUnconfirmed r) eqn:Hu.
    + rewrite (bookDispatch_pending c contact v delay w r Hr Hu).
      split; [|exact Hs].
      cbn [snd campaignQueue with_shippings with_campaignQueue].
      apply queue_ok_add; [exact Hc | reflexivity | reflexivity].
    + rewrite (bookDispatch_settled c contact v delay w r Hr Hu).
      split; assumption.
  - rewrite (bookDispatch_created c contact v delay w Hr).
    split; [|exact Hs].
    cbn [snd campaignQueue with_shippings with_campaignQueue].
    apply queue_ok_add; [exact Hc | reflexivity | reflexivity].
Qed.

Lemma run_keepsQueues (evs : list Event) (w : World) :
  keepsQueues w (run w evs).
Proof.
  apply (kept_run keepsQueues).
  - intros w0 w1 (_ & _ & _ & _ & _ & E1 & E2).
    apply keepsQueues_same; assumption.
  - intros f c _ w0. apply keepsQueues_same; reflexivity.
  - intros confirm at_ record w0. apply keepsQueues_same; reflexivity.
  - apply bookDispatch_keepsQueues.
  - apply campaignQueue_add_keepsQueues.
  - intros f schedule w0. apply keepsQueues_same; reflexivity.
  - intros schedule w0 [Hc Hs]. split; [exact Hc|].
    cbn [sendScheduledMessages_add queue_add snd sendScheduledMessages
      with_sendScheduledMessages].
    apply queue_ok_add; [exact Hs | reflexivity | reflexivity].
  - intros w0 n [Hc Hs]. split; [|exact Hs].
    cbn [campaignQueue with_campaignQueue]. apply queue_ok_take. exact Hc.
  - intros w0 n [Hc Hs]. split; [exact Hc|].
    cbn [sendScheduledMessages with_sendScheduledMessages].
    apply queue_ok_take. exact Hs.
Qed.

(** X18. [startQueueProcess] registers a handler for every job the handlers
    enqueue: in every state that the steps of the queues reach from empty
    queues, each job of the campaign queue carries the payload of the
    handler registered under its name ([ProcessCampaign], [PrepareContact]
    or [DispatchCampaign]), each job of the scheduled-send queue is a
    [SendMessage] job with a schedule and a delay of 40 s, and within a
    queue the job ids are distinct. *)
Theorem reachable_jobs_have_handlers (w : World) :
  reachable w -> queues_ok w.
Proof.
  intros (w0 & evs & (_ & Hc & Hs & _) & <-).
  apply run_keepsQueues. unfold queues_ok, queue_ok. rewrite Hc, Hs.
  cbn [map]. repeat split; try apply NoDup_nil;
    match goal with H : In _ [] |- _ => destruct H end.
Qed.

(** The state reached in [firstDispatchFails], with a dispatch job left in
    the queue. *)
Lemma reachable_jobs_have_handlers_witness :
  queues_ok (run dueWorld firstDispatchFails).
Proof.
  apply (reachable_jobs_have_handlers (run dueWorld firstDispatchFails)).
  exists dueWorld, firstDispatchFails. split; [|reflexivity].
  repeat split. intros c [<-|[]]. reflexivity.
Defined.

(** ** The user monitor *)

(** One iteration, as a pass over the table. *)
Lemma sweepUser_map (answer : Z -> option Z) (users : list User.t) (id : Z) :
  sweepUser answer users id
  = map (fun row =>
           if User.id row =? id
           then match answer id with
                | Some at_ => User.mk (User.id row) false at_
                | None => row
                end
           else row)
        users.
Proof.
  unfold sweepUser.
  destruct (find (fun u => User.id u =? id) users) as [user|] eqn:E.
  - apply find_some in E. destruct E as [_ E]. apply Z.eqb_eq in E.
    rewrite E. destruct (answer id); [reflexivity|].
    rewrite <- (map_id users) at 1. apply map_ext. intros row.
    destruct (_ =? _); reflexivity.
  - rewrite <- (map_id users) at 1. apply map_ext_in. intros row Hrow.
    pose proof (find_none _ _ E row Hrow) as N. cbn beta in N.
    rewrite N. reflexivity.
Qed.

(** The loop, as a pass over the table. *)
Lemma sweep_all (answer : Z -> option Z) (ids : list Z) :
  forall users : list User.t,
    fold_left (sweepUser answer) ids users
    = map (fun row =>
             if existsb (Z.eqb (User.id row)) ids
             then match answer (User.id row) with
                  | Some at_ => User.mk (User.id row) false at_
                  | None => row
                  end
             else row)
          users.
Proof.
  induction ids as [|id ids IH]; intros users; cbn [fold_left existsb].
  - symmetry. apply map_id.
  - rewrite IH, sweepUser_map, map_map. apply map_ext. intros row.
    destruct (Z.eqb_spec (User.id row) id) as [<-|_]; cbn [orb];
      [|reflexivity].
    destruct (answer (User.id row)) eqn:A.
    + cbn [User.id]. rewrite A. destruct (existsb _ ids); reflexivity.
    + rewrite A. destruct (existsb _ ids); reflexivity.
Qed.

(** X19. [handleLoginStatus], for a [Users] table with distinct ids: no user is
    added or removed; a user that is offline, or was seen in the last five
    minutes, is left as it is; a user that is online and was silent for more
    than five minutes is set offline, with the time of the update, unless
    its update throws, in which case it is left as it is and the other users
    are swept all the same. So a second sweep at the same time selects only
    users whose update had thrown. *)
Theorem login_sweep_sets_stale_users_offline (dbNow : Z)
    (answer : Z -> option Z) (users : list User.t) :
  NoDup (map User.id users) ->
  let users' := handleLoginStatus dbNow answer users in
  map User.id users' = map User.id users
  /\ (forall u, In u users ->
        In (if (User.updatedAt u <? dbNow - 300000) && User.online u
            then match answer (User.id u) with
                 | Some at_ => User.mk (User.id u) false at_
                 | None => u
                 end
            else u)
           users')
  /\ (forall id, In id (staleOnline dbNow users') ->
        In id (staleOnline dbNow users) /\ answer id = None).
Proof.
  intros Hnd users'.
  assert (Hsel : forall u, In u users ->
             existsb (Z.eqb (User.id u)) (staleOnline dbNow users)
             = (User.updatedAt u <? dbNow - 300000) && User.online u).
  { intros u Hu.
    destruct ((User.updatedAt u <? dbNow - 300000) && User.online u) eqn:Hst.
    - apply existsb_exists. exists (User.id u).
      split; [|apply Z.eqb_refl].
      unfold staleOnline. apply in_map. apply filter_In.
      split; assumption.
    - destruct (existsb _ _) eqn:Hex; [|reflexivity].
      apply existsb_exists in Hex. destruct Hex as (i & Hi & E).
      apply Z.eqb_eq in E. unfold staleOnline in Hi.
      apply in_map_iff in Hi. destruct Hi as (other & Eid & Hother).
      apply filter_In in Hother. destruct Hother as [Hother Hstale].
      assert (other = u).
      { clear Hst. revert Hnd Hother Hu. subst i. revert E.
        induction users as [|x rest IHu]; cbn [map]; intros E Hnd Ho Hu;
          [destruct Hu|].
        apply NoDup_cons_iff in Hnd. destruct Hnd as [Hfresh Hnd].
        destruct Ho as [->|Ho], Hu as [->|Hu].
        - reflexivity.
        - exfalso. apply Hfresh. rewrite <- E. apply in_map. exact Hu.
        - exfalso. apply Hfresh. rewrite E. apply in_map. exact Ho.
        - apply IHu; assumption. }
      subst other. rewrite Hstale in Hst. discriminate Hst. }
  assert (Hrows : users'
                  = map (fun row =>
                           if (User.updatedAt row <? dbNow - 300000)
                              && User.online row
                           then match answer (User.id row) with
                                | Some at_ => User.mk (User.id row) false at_
                                | None => row
                                end
                           else row)
                        users).
  { unfold users', handleLoginStatus. rewrite sweep_all.
    apply map_ext_in. intros row Hrow. rewrite (Hsel row Hrow).
    reflexivity. }
  split; [|split].
  - rewrite Hrows, map_map. apply map_ext. intros row.
    destruct (_ && _); [destruct (answer _)|]; reflexivity.
  - intros u Hu. rewrite Hrows.
    apply (in_map (fun row =>
                     if (User.updatedAt row <? dbNow - 300000)
                        && User.online row
                     then match answer (User.id row) with
                          | Some at_ => User.mk (User.id row) false at_
                          | None => row
                          end
                     else row)). exact Hu.
  - intros id Hid. unfold staleOnline in Hid. apply in_map_iff in Hid.
    destruct Hid as (u' & <- & Hu'). apply filter_In in Hu'.
    destruct Hu' as [Hu' Hstale]. rewrite Hrows in Hu'.
    apply in_map_iff in Hu'. destruct Hu' as (u & E & Hu).
    destruct ((User.updatedAt u <? dbNow - 300000) && User.online u) eqn:Hst.
    + destruct (answer (User.id u)) eqn:A.
      * subst u'. cbn in Hstale. rewrite andb_false_r in Hstale.
        discriminate Hstale.
      * subst u'. split; [|exact A].
        unfold staleOnline. apply in_map. apply filter_In.
        split; assumption.
    + subst u'. rewrite Hstale in Hst. discriminate Hst.
Qed.

(** The sweep of the four users: 1 goes offline, the update of 2 throws, 3
    and 4 are not selected. *)
Lemma login_sweep_sets_stale_users_offline_witness :
  map User.id (handleLoginStatus 1000000 demoAnswer demoUsers)
  = map User.id demoUsers.
Proof.
  refine (proj1 (login_sweep_sets_stale_users_offline 1000000 demoAnswer
                   demoUsers _)).
  vm_compute.
  repeat (apply NoDup_cons;
          [intros H; repeat (destruct H as [H|H]; [discriminate H|]);
           destruct H|]).
  apply NoDup_nil.
Defined.

(** ** A handler run works on the campaign of its job *)

Section Isolation.

Variable id : Z.

#[local] Instance leavesAlone_preorder : PreOrder (leavesAlone id).
Proof.
  split.
  - intros w. split; [reflexivity | intros j Hj _; exact Hj].
  - intros w1 w2 w3 [E12 J12] [E23 J23]. split; [congruence|].
    intros j Hj Hid. apply J12; [apply J23|]; assumption.
Qed.

Lemma leavesAlone_same (w w' : World) :
  campaigns w' = campaigns w -> campaignQueue w' = campaignQueue w ->
  leavesAlone id w w'.
Proof.
  intros E1 E2. unfold leavesAlone, rowsOf. rewrite E1, E2.
  split; [reflexivity | intros j Hj _; exact Hj].
Qed.

(** An update of the row of another campaign. *)
Lemma campaign_update_leavesAlone f (c : Campaign.t) :
  Campaign.id c <> id ->
  (forall row, Campaign.id (f row) = Campaign.id row) ->
  preserves (leavesAlone id) (campaign_update f c).
Proof.
  intros Hc Hf w. cbn [campaign_update snd].
  split; [|intros j Hj _; exact Hj].
  unfold rowsOf. cbn [campaigns with_campaigns].
  induction (campaigns w) as [|row rows IH]; [reflexivity|].
  cbn [map filter]. rewrite IH.
  destruct (Z.eqb_spec (Campaign.id row) (Campaign.id c)) as [E|_];
    [|reflexivity].
  rewrite Hf.
  destruct (Z.eqb_spec (Campaign.id row) id) as [E'|_]; [|reflexivity].
  exfalso. apply Hc. congruence.
Qed.

(** A job added for another campaign. *)
Lemma campaignQueue_add_leavesAlone name data opts :
  campaignOf {| job_id := 0; job_name := name; job_data := data;
                job_opts := opts |} <> Some id ->
  preserves (leavesAlone id) (campaignQueue_add name data opts).
Proof.
  intros Hj w.
  cbn [campaignQueue_add queue_add snd]. split; [reflexivity|].
  cbn [campaignQueue with_campaignQueue q_jobs].
  intros j Hin Hid. apply in_app_iff in Hin.
  destruct Hin as [Hin|[<-|[]]]; [exact Hin|].
  exfalso. apply Hj. exact Hid.
Qed.

(** One step of the proof that a handler leaves the campaign [id] alone:
    the writes are for the campaign [c] of the job. *)
Ltac alone :=
  first [ apply campaign_update_leavesAlone;
          [assumption | intros ?; reflexivity]
        | apply campaignQueue_add_leavesAlone;
          cbn [campaignOf job_data]; congruence
        | lazymatch goal with
          | |- preserves _ (io_emit _ _ _) =>
              intros ?; apply leavesAlone_same; reflexivity
          | |- preserves _ (modify _) =>
              intros ?; apply leavesAlone_same; reflexivity
          | |- preserves _ (shipping_update _ _) =>
              intros ?; apply leavesAlone_same; reflexivity
          | |- preserves _ (schedule_update _ _) =>
              intros ?; apply leavesAlone_same; reflexivity
          | |- preserves _ (sendScheduledMessages_add _ _ _) =>
              intros ?; apply leavesAlone_same; reflexivity
          | |- preserves _ (findOrCreate _) =>
              intros w0; unfold findOrCreate;
              destruct (existingRecord _ _ w0);
              apply leavesAlone_same; reflexivity
          | |- preserves _ (wbot_sendMessage ?r _ _) =>
              intros ?; unfold wbot_sendMessage; destruct r;
              apply leavesAlone_same; reflexivity
          end
        | progress cbv zeta
        | preserves_step ].

Lemma loadCampaign_leavesAlone id' :
  preserves (leavesAlone id) (loadCampaign id').
Proof. unfold loadCampaign. repeat alone. Qed.

Lemma loadCampaign_id (id' : Z) (w w' : World) (c : Campaign.t) :
  loadCampaign id' w = (Ok c, w') -> Campaign.id c = id'.
Proof.
  unfold loadCampaign, bind, query.
  destruct (getCampaign w id') as [c0|] eqn:E; [|discriminate].
  intros H. injection H as <- _. exact (getCampaign_id w id' c0 E).
Qed.

Lemma verifyAndFinalizeCampaign_leavesAlone e (c : Campaign.t) :
  Campaign.id c <> id ->
  preserves (leavesAlone id) (verifyAndFinalizeCampaign e c).
Proof. intros Hc. unfold verifyAndFinalizeCampaign. repeat alone. Qed.

Lemma fanOut_leavesAlone e settings (c : Campaign.t) contacts :
  Campaign.id c <> id ->
  forall delay index draws,
    preserves (leavesAlone id) (fanOut e settings c contacts delay index draws).
Proof.
  intros Hc.
  induction contacts as [|contact rest IH]; intros; cbn [fanOut].
  - alone.
  - alone; [alone|].
    destruct (Js.rem_is_zero _ _); [|destruct (Js.truthy_num _)]; apply IH.
Qed.

Lemma handleProcessCampaign_leavesAlone e id' delay :
  id' <> id -> preserves (leavesAlone id) (handleProcessCampaign e id' delay).
Proof.
  intros Hne. unfold handleProcessCampaign.
  apply (preserves_bind_returns (leavesAlone id)
           (fun c => Campaign.id c <> id)).
  - apply loadCampaign_leavesAlone.
  - intros w c w' H. rewrite (loadCampaign_id id' w w' c H). exact Hne.
  - intros c Hc.
    repeat first [ apply fanOut_leavesAlone; assumption | alone ].
Qed.

Lemma handlePrepareContact_leavesAlone e itemId id' delay :
  id' <> id ->
  preserves (leavesAlone id) (handlePrepareContact e itemId id' delay).
Proof.
  intros Hne. unfold handlePrepareContact.
  apply (preserves_bind_returns (leavesAlone id)
           (fun c => Campaign.id c <> id)).
  - apply loadCampaign_leavesAlone.
  - intros w c w' H. rewrite (loadCampaign_id id' w w' c H). exact Hne.
  - intros c Hc. unfold renderShipping, pickMessage, bookDispatch.
    repeat first [ apply verifyAndFinalizeCampaign_leavesAlone; assumption
                 | alone ].
Qed.

Lemma handleDispatchCampaign_leavesAlone e contactId id' sid :
  id' <> id ->
  preserves (leavesAlone id) (handleDispatchCampaign e contactId id' sid).
Proof.
  intros Hne. unfold handleDispatchCampaign.
  apply (preserves_bind_returns (leavesAlone id)
           (fun c => Campaign.id c <> id)).
  - apply loadCampaign_leavesAlone.
  - intros w c w' H. rewrite (loadCampaign_id id' w w' c H). exact Hne.
  - intros c Hc.
    unfold openTicket, sendCampaignMessage, abortDispatch, closeTicket.
    repeat first [ apply verifyAndFinalizeCampaign_leavesAlone; assumption
                 | alone ].
Qed.

Lemma verifyEach_leavesAlone clock due :
  (forall p, In p due -> fst p <> id) ->
  forall k, preserves (leavesAlone id) (verifyEach clock k due).
Proof.
  induction due as [|[id' scheduledAt] rest IH]; intros Hdue k;
    cbn [verifyEach].
  - alone.
  - alone.
    + apply campaignQueue_add_leavesAlone. cbn [campaignOf job_data].
      intros E. injection E as E.
      apply (Hdue (id', scheduledAt)); [left; reflexivity | exact E].
    + apply IH. intros p Hp. apply Hdue. right. exact Hp.
Qed.

Lemma handleVerifySchedules_leavesAlone now1 now2 :
  preserves (leavesAlone id) (handleVerifySchedules now1 now2).
Proof.
  unfold handleVerifySchedules.
  alone; [alone|].
  match goal with
  | |- preserves _ (if _ then scheduleEach ?rows else _) =>
      destruct (0 <? _); [induction rows as [|s rest IH]|]
  end; cbn [scheduleEach]; repeat alone. exact IH.
Qed.

Lemma handleSendScheduledMessage_leavesAlone e schedule :
  preserves (leavesAlone id) (handleSendScheduledMessage e schedule).
Proof.
  unfold handleSendScheduledMessage, SendMessage, update_if_fetched.
  repeat alone.
Qed.

(** A worker taking a job adds none. *)
Lemma take_job_leavesAlone (w : World) (n : nat) :
  leavesAlone id w (with_campaignQueue (take_job n (campaignQueue w)) w).
Proof.
  split; [reflexivity|]. intros j Hj _.
  cbn [campaignQueue with_campaignQueue take_job q_jobs] in Hj.
  exact (proj1 (take_job_jobs n (q_jobs (campaignQueue w))) j Hj).
Qed.

(** Every step leaves alone a campaign for which nothing is pending. *)
Lemma step_leavesAlone (w : World) (ev : Event) :
  quiet id w -> leavesAlone id w (step w ev).
Proof.
  intros [Hjobs Hrows].
  destruct ev as [dbNow clock|n e|now1 now2|n e]; cbn [step].
  - unfold world_after, handleVerifyCampaigns, bind, query.
    apply verifyEach_leavesAlone.
    intros [id' scheduledAt] Hp E. cbn [fst] in E. subst id'.
    unfold dueCampaigns in Hp. apply in_map_iff in Hp.
    destruct Hp as (c & Ec & Hc). injection Ec as Eid _.
    apply filter_In in Hc. destruct Hc as [Hc Hsel].
    apply andb_prop in Hsel. destruct Hsel as [_ Hst].
    apply (Hrows c Hc Eid).
    destruct (Campaign.status c); try discriminate Hst; reflexivity.
  - destruct (nth_error (q_jobs (campaignQueue w)) n) as [j|] eqn:Hn;
      [|reflexivity].
    transitivity (with_campaignQueue (take_job n (campaignQueue w)) w);
      [apply take_job_leavesAlone|].
    pose proof (Hjobs j (nth_error_In _ _ Hn)) as Hj.
    unfold world_after, process. unfold campaignOf in Hj.
    destruct (job_data j) as [id' delay|itemId id' delay|contactId id' sid|sch].
    + destruct (job_name j =? "ProcessCampaign")%string; [|reflexivity].
      apply handleProcessCampaign_leavesAlone. congruence.
    + destruct (job_name j =? "PrepareContact")%string; [|reflexivity].
      apply handlePrepareContact_leavesAlone. congruence.
    + destruct (job_name j =? "DispatchCampaign")%string; [|reflexivity].
      apply handleDispatchCampaign_leavesAlone. congruence.
    + reflexivity.
  - apply handleVerifySchedules_leavesAlone.
  - destruct (nth_error (q_jobs (sendScheduledMessages w)) n) as [j|];
      [|reflexivity].
    transitivity (with_sendScheduledMessages
                    (take_job n (sendScheduledMessages w)) w);
      [apply leavesAlone_same; reflexivity|].
    unfold world_after, processScheduled.
    destruct (job_data j); try reflexivity.
    destruct (job_name j =? "SendMessage")%string;
      [apply handleSendScheduledMessage_leavesAlone|reflexivity].
Qed.

Lemma quiet_kept (w w' : World) :
  quiet id w -> leavesAlone id w w' -> quiet id w'.
Proof.
  intros [Hjobs Hrows] [Erows Hnew]. split.
  - intros j Hj Hid. apply (Hjobs j); [apply Hnew|]; assumption.
  - intros c Hc Hid.
    assert (Hin : In c (rowsOf id w')).
    { unfold rowsOf. apply filter_In. split; [exact Hc|].
      apply Z.eqb_eq. exact Hid. }
    rewrite Erows in Hin. unfold rowsOf in Hin. apply filter_In in Hin.
    apply (Hrows c); [apply Hin | exact Hid].
Qed.

Lemma run_leavesAlone (evs : list Event) :
  forall w, quiet id w -> leavesAlone id w (run w evs).
Proof.
  unfold run. induction evs as [|ev evs IH]; intros w Hq; cbn [fold_left].
  - reflexivity.
  - pose proof (step_leavesAlone w ev Hq) as Hstep.
    transitivity (step w ev); [exact Hstep|].
    apply IH. exact (quiet_kept w (step w ev) Hq Hstep).
Qed.

End Isolation.

(** X20. A handler run works on the campaign of its job: when the campaign
    queue has no job for a campaign and no row of it is [PROGRAMADA], then
    along every sequence of steps of the queues, whatever jobs of other
    campaigns run and however they end, the rows of that campaign stay as
    they are and no job is ever enqueued for it. *)
Theorem quiet_campaign_is_left_alone (id : Z) (evs : list Event) (w : World) :
  quiet id w ->
  rowsOf id (run w evs) = rowsOf id w /\ quiet id (run w evs).
Proof.
  intros Hq. pose proof (run_leavesAlone id evs w Hq) as Hrun.
  split; [apply Hrun | exact (quiet_kept id w (run w evs) Hq Hrun)].
Qed.

(** The campaign 2, which is running and has no job in the queue, through
    the run [doubleTick] of the campaign 1. *)
Lemma quiet_campaign_is_left_alone_witness :
  rowsOf 2 (run twoCampaignWorld doubleTick)
  = [demoCampaign 2 EM_ANDAMENTO false (recipients 2)]
  /\ quiet 2 (run twoCampaignWorld doubleTick).
Proof.
  apply (quiet_campaign_is_left_alone 2 doubleTick twoCampaignWorld).
  split.
  - intros j [].
  - intros c [<-|[<-|[]]]; [intros H; discriminate H | intros _; discriminate].
Defined.

(** The run [doubleTick] does in [twoCampaignWorld] what it does in
    [soloWorld]: the campaign 1 is fanned out twice, its recipient is
    delivered to, and the second dispatch fails. *)
Example doubleTick_beside_a_running_campaign :
  map Campaign.status (campaigns (run twoCampaignWorld doubleTick))
  = [FINALIZADA_COM_ERROS; EM_ANDAMENTO]
  /\ map CampaignShipping.deliveredAt
       (shippings (run twoCampaignWorld doubleTick))
     = [Some 604000].
Proof. vm_compute. split; reflexivity. Qed.

(** The rows of a campaign after an update of all of them. *)
Lemma rowsOf_updated (id : Z) (f : Campaign.t -> Campaign.t)
    (rows : list Campaign.t) :
  (forall row, Campaign.id (f row) = Campaign.id row) ->
  filter (fun c => Campaign.id c =? id)
         (map (fun row => if Campaign.id row =? id then f row else row) rows)
  = map f (filter (fun c => Campaign.id c =? id) rows).
Proof.
  intros Hf. induction rows as [|row rows IH]; [reflexivity|].
  cbn [map filter].
  destruct (Campaign.id row =? id) eqn:E.
  - rewrite Hf, E. cbn [map]. rewrite IH. reflexivity.
  - rewrite E. exact IH.
Qed.

(** X21. A campaign without valid recipients ends with errors, for good:
    when the campaign has no contact list, or a list without a valid item,
    [handleProcessCampaign] sets its rows to [FINALIZADA_COM_ERROS] with the
    completion time and enqueues nothing; and when the queue holds no other
    job for the campaign, its rows stay like that in every state that the
    steps of the queues lead to from there. *)
Theorem campaign_without_valid_recipients_ends_with_errors (w : World)
    (e : Env) (id delay : Z) (row : Campaign.t) (evs : list Event) :
  find (fun c => Campaign.id c =? id) (campaigns w) = Some row ->
  validContacts (Campaign.contacts row) = None ->
  (forall j, In j (q_jobs (campaignQueue w)) -> campaignOf j <> Some id) ->
  rowsOf id (run (world_after (handleProcessCampaign e id delay w)) evs)
  = map (Campaign.set_completed FINALIZADA_COM_ERROS (now e)) (rowsOf id w).
Proof.
  intros Hrow Hnone Hjobs.
  pose proof (getCampaign_found w id row Hrow) as Hc.
  set (c := Campaign.set_contacts (validContacts (Campaign.contacts row)) row)
    in Hc.
  assert (Hl : Campaign.contacts c = None) by exact Hnone.
  set (w1 := world_after (handleProcessCampaign e id delay w)).
  assert (Hcamp : campaigns w1
                  = map (fun r =>
                           if Campaign.id r =? id
                           then Campaign.set_completed FINALIZADA_COM_ERROS
                                  (now e) r
                           else r)
                        (campaigns w)).
  { unfold w1. rewrite (handleProcessCampaign_campaigns w e id delay c Hc).
    rewrite Hl. reflexivity. }
  assert (Hqueue : campaignQueue w1 = campaignQueue w).
  { unfold w1, handleProcessCampaign, loadCampaign, try_catch, bind, query.
    rewrite Hc. cbn [ret]. rewrite Hl. reflexivity. }
  assert (Hrows : rowsOf id w1
                  = map (Campaign.set_completed FINALIZADA_COM_ERROS (now e))
                        (rowsOf id w)).
  { unfold rowsOf. rewrite Hcamp. apply rowsOf_updated.
    intros r. reflexivity. }
  assert (Hq : quiet id w1).
  { split.
    - rewrite Hqueue. exact Hjobs.
    - intros r Hr Hrid.
      assert (Hin : In r (rowsOf id w1)).
      { unfold rowsOf. apply filter_In. split; [exact Hr|].
        apply Z.eqb_eq. exact Hrid. }
      rewrite Hrows in Hin. apply in_map_iff in Hin.
      destruct Hin as (r0 & <- & _). discriminate. }
  destruct (run_leavesAlone id evs w1 Hq) as [Hkept _].
  rewrite Hkept. exact Hrows.
Qed.

(** The campaign whose list has no valid item, through two further ticks of
    the verifier. *)
Lemma campaign_without_valid_recipients_ends_with_errors_witness :
  rowsOf 1
    (run (world_after
            (handleProcessCampaign (allGood 600000 1) 1 0 noRecipientWorld))
         [VerifyCampaignsTick 600020 (fun _ => 600021);
          VerifyCampaignsTick 600040 (fun _ => 600041)])
  = [Campaign.set_completed FINALIZADA_COM_ERROS 600000
       (demoCampaign 1 PROGRAMADA false [invalidRecipient 1])].
Proof.
  apply (campaign_without_valid_recipients_ends_with_errors noRecipientWorld
           (allGood 600000 1) 1 0
           (demoCampaign 1 PROGRAMADA false [invalidRecipient 1])
           [VerifyCampaignsTick 600020 (fun _ => 600021);
            VerifyCampaignsTick 600040 (fun _ => 600041)]).
  - reflexivity.
  - reflexivity.
  - intros j [].
Defined.
